(** * BetterStreet -> Précompte: record reconstruction and field extraction

    A shallow embedding of [betterstreet_to_precompte_v5.py] (the record
    reassembler, the field extractor, the temporal normaliser and the
    per-record filter/classifier of [main]) together with the properties
    that the specification states about them.

    Python values are modelled as follows.
    - A [str] is the list of its Unicode code points ([list N]).
    - A [dict] with string keys is a [gmap (list N) _]; [d.get(k)] on a
      dictionary of optional strings is [f_get].
    - [Optional[T]] is [option T]; a raised exception is an explicit
      error result.
    - List indices are Python integers ([Z]); negative indices count
      from the end of the list. *)

From Stdlib Require Import ZArith NArith Bool Lia String Ascii Sorted.
From stdpp Require Import base option list gmap.

Abbreviation pystr := (list N).

(** ** String literals

    Literals are written as Rocq strings; the source file is UTF-8, so a
    literal is decoded from UTF-8 into code points. *)
Module Lit.

Fixpoint utf8_decode (bs : list N) : list N :=
  match bs with
  | [] => []
  | b0 :: r0 =>
    if (b0 <? 128)%N then b0 :: utf8_decode r0
    else match r0 with
    | [] => [b0]
    | b1 :: r1 =>
      if (b0 <? 224)%N
      then ((b0 - 192) * 64 + (b1 - 128))%N :: utf8_decode r1
      else match r1 with
      | [] => [b0; b1]
      | b2 :: r2 =>
        if (b0 <? 240)%N
        then ((b0 - 224) * 4096 + (b1 - 128) * 64 + (b2 - 128))%N
               :: utf8_decode r2
        else match r2 with
        | [] => [b0; b1; b2]
        | b3 :: r3 =>
          ((b0 - 240) * 262144 + (b1 - 128) * 4096
             + (b2 - 128) * 64 + (b3 - 128))%N :: utf8_decode r3
        end
      end
    end
  end.

Definition lit (s : string) : pystr :=
  utf8_decode (map N_of_ascii (list_ascii_of_string s)).

End Lit.
Export Lit.
Arguments lit s%_string.

(** ** [str] methods used by the program *)
Module Str.

(** [str.isspace] on one code point (CPython's [_PyUnicode_IsWhitespace]). *)
Definition isspace (c : N) : bool :=
  ((9 <=? c) && (c <=? 13) || (28 <=? c) && (c <=? 32)
   || (c =? 133) || (c =? 160) || (c =? 5760)
   || (8192 <=? c) && (c <=? 8202)
   || (c =? 8232) || (c =? 8233) || (c =? 8239) || (c =? 8287)
   || (c =? 12288))%N.

Fixpoint lstrip_by (p : N → bool) (s : pystr) : pystr :=
  match s with
  | [] => []
  | c :: r => if p c then lstrip_by p r else s
  end.

Definition rstrip_by (p : N → bool) (s : pystr) : pystr :=
  rev (lstrip_by p (rev s)).

Definition strip_by (p : N → bool) (s : pystr) : pystr :=
  rstrip_by p (lstrip_by p s).

(** [s.strip()] *)
Definition strip (s : pystr) : pystr := strip_by isspace s.

(** [s.strip(c)] and [s.rstrip(c)] for a one-character argument. *)
Definition strip_char (c : N) (s : pystr) : pystr := strip_by (N.eqb c) s.
Definition rstrip_char (c : N) (s : pystr) : pystr := rstrip_by (N.eqb c) s.

(** [s.replace(c, "")] for a one-character [c]. *)
Definition remove_char (c : N) (s : pystr) : pystr :=
  filter (λ x, x ≠ c) s.

(** [s.startswith(p)] *)
Fixpoint startswith (p s : pystr) : bool :=
  match p, s with
  | [], _ => true
  | _ :: _, [] => false
  | a :: p', b :: s' => (a =? b)%N && startswith p' s'
  end.

(** [needle in hay] *)
Fixpoint contains (needle hay : pystr) : bool :=
  startswith needle hay ||
  match hay with
  | [] => false
  | _ :: hay' => contains needle hay'
  end.

(** [s.split(d)] for a one-character delimiter. *)
Fixpoint split (d : N) (s : pystr) : list pystr :=
  match s with
  | [] => [[]]
  | c :: r =>
    if (c =? d)%N then [] :: split d r
    else match split d r with
         | t :: ts => (c :: t) :: ts
         | [] => [[c]]
         end
  end.

(** [s.split(d, maxsplit)] *)
Fixpoint split_max (d : N) (s : pystr) (maxsplit : nat) : list pystr :=
  match maxsplit with
  | O => [s]
  | S m =>
    match s with
    | [] => [[]]
    | c :: r =>
      if (c =? d)%N then [] :: split_max d r m
      else match split_max d r maxsplit with
           | t :: ts => (c :: t) :: ts
           | [] => [[c]]
           end
    end
  end.

(** [sep.join(parts)] *)
Fixpoint join (sep : pystr) (parts : list pystr) : pystr :=
  match parts with
  | [] => []
  | [p] => p
  | p :: rest => p ++ sep ++ join sep rest
  end.

(** Truthiness of a string, and [s or None]. *)
Definition nonempty (s : pystr) : bool :=
  match s with [] => false | _ => true end.

Definition or_none (s : pystr) : option pystr :=
  if nonempty s then Some s else None.

End Str.
Export Str.

(** ** Constants of the program *)

Definition BOM : N := 65279%N.        (* U+FEFF *)
Definition NL : N := 10%N.            (* line feed *)
Definition DQUOTE : N := 34%N.
Definition SQUOTE : N := 39%N.
Definition SEMI : N := 59%N.          (* the default delimiter *)
Definition ID_PREFIX : pystr := lit "BE-".

(** The cleaning applied to a first token by both the reassembler and the
    extractor: remove every U+FEFF, [strip()], then strip double quotes,
    then strip single quotes. *)
Definition clean_id (first : pystr) : pystr :=
  strip_char SQUOTE (strip_char DQUOTE (strip (remove_char BOM first))).

(** ** Record reassembler *)
Module Reassembler.

Definition is_blank (s : pystr) : bool := negb (nonempty (strip s)).

(** [lines[i:]] for the index [i] reached by the leading [while] loop. *)
Fixpoint skip_blank (lines : list pystr) : list pystr :=
  match lines with
  | [] => []
  | l :: r => if is_blank l then skip_blank r else lines
  end.

(** [line.split(delimiter, 1)[0]], then cleaned. *)
Definition first_token (delimiter : N) (line : pystr) : pystr :=
  clean_id (hd [] (split_max delimiter line 1)).

Definition starts_record (delimiter : N) (line : pystr) : bool :=
  startswith ID_PREFIX (first_token delimiter line).

(** One iteration of the [for raw in lines[i + 1:]] loop; the state is
    [(rebuilt, current)]. *)
Definition rebuild_step (delimiter : N)
    (st : list pystr * option pystr) (raw : pystr)
    : list pystr * option pystr :=
  let '(rebuilt, current) := st in
  let line := rstrip_char NL raw in
  if is_blank line then st
  else if starts_record delimiter line then
    match current with
    | Some c => (rebuilt ++ [c], Some line)
    | None => (rebuilt, Some line)
    end
  else
    match current with
    | None => st
    | Some c => (rebuilt, Some (c ++ lit " " ++ line))
    end.

(** The final flush. *)
Definition flush (st : list pystr * option pystr) : list pystr :=
  match st.2 with
  | Some c => st.1 ++ [c]
  | None => st.1
  end.

Definition rebuild_records_by_id (lines : list pystr) (delimiter : N)
    : list pystr :=
  match skip_blank lines with
  | [] => []
  | h :: rest =>
    flush (foldl (rebuild_step delimiter) ([rstrip_char NL h], None) rest)
  end.

End Reassembler.
Export Reassembler.


(** ** Library data the program depends on

    The Unicode character database (character classes of [str.isalpha],
    [str.isdigit], of the regular-expression escapes and the case folding
    of [re.IGNORECASE]) is not part of the program: it is a parameter of
    the development.  [latin1] below is the instance used to evaluate the
    program on concrete inputs; it is exact on code points below U+0100. *)
Class UnicodeData := {
  uc_isalpha : N → bool;        (* [c.isalpha()] *)
  uc_isdigit : N → bool;        (* [c.isdigit()] *)
  uc_decimal : N → bool;        (* the class of the escape for digits *)
  uc_word : N → bool;           (* the class of the escape for word characters *)
  uc_ci_eq : N → N → bool;      (* pattern character vs subject, ignoring case *)
}.

Module Latin1.

Definition between (lo hi c : N) : bool := ((lo <=? c) && (c <=? hi))%N.

Definition isalpha (c : N) : bool :=
  between 65 90 c || between 97 122 c || (c =? 170)%N || (c =? 181)%N
  || (c =? 186)%N || between 192 214 c || between 216 246 c
  || between 248 255 c.

Definition isdigit (c : N) : bool :=
  between 48 57 c || between 178 179 c || (c =? 185)%N.

Definition decimal (c : N) : bool := between 48 57 c.

Definition word (c : N) : bool :=
  isalpha c || isdigit c || (c =? 95)%N || between 188 190 c.

Definition lower (c : N) : N :=
  if between 65 90 c || between 192 214 c || between 216 222 c
  then (c + 32)%N else c.

Definition ci_eq (p c : N) : bool := (lower p =? lower c)%N.

Definition latin1 : UnicodeData :=
  {| uc_isalpha := isalpha; uc_isdigit := isdigit; uc_decimal := decimal;
     uc_word := word; uc_ci_eq := ci_eq |}.

End Latin1.
Export Latin1.

(** ** Regular expressions

    The four patterns of the program are only ever used for their truth
    value, so a pattern denotes the set of strings it matches and the
    matcher decides whether some match exists. *)
Module Regex.

Inductive regex : Type :=
  | Eps
  | Cls (p : N → bool)          (* one character of a class *)
  | Seq (r1 r2 : regex)
  | Alt (r1 r2 : regex)
  | Opt (r : regex)
  | Plus (p : N → bool)         (* one or more characters of a class *)
  | Bol                         (* start of the string *)
  | Eol                         (* end of the string, or before a final line feed *)
  | WordB (w : N → bool).       (* word boundary, for the word class [w] *)

(** One or more characters satisfying [p], then the continuation. *)
Fixpoint many1 (p : N → bool) (k : option N → pystr → bool) (s : pystr)
    : bool :=
  match s with
  | [] => false
  | c :: s' => p c && (k (Some c) s' || many1 p k s')
  end.

Definition is_word (w : N → bool) (o : option N) : bool :=
  match o with Some c => w c | None => false end.

(** [matches r prev s k]: some match of [r] at the front of [s] (the
    character before it being [prev]) can be followed by [k]. *)
Fixpoint matches (r : regex) (prev : option N) (s : pystr)
    (k : option N → pystr → bool) : bool :=
  match r with
  | Eps => k prev s
  | Cls p => match s with
             | [] => false
             | c :: s' => p c && k (Some c) s'
             end
  | Seq r1 r2 => matches r1 prev s (λ prev' s', matches r2 prev' s' k)
  | Alt r1 r2 => matches r1 prev s k || matches r2 prev s k
  | Opt r1 => matches r1 prev s k || k prev s
  | Plus p => many1 p k s
  | Bol => match prev with None => k prev s | Some _ => false end
  | Eol => match s with
           | [] => k prev s
           | [c] => (c =? 10)%N && k prev s
           | _ => false
           end
  | WordB w => xorb (is_word w prev) (is_word w (head s)) && k prev s
  end.

(** [bool(pattern.match(s))] *)
Definition re_match (r : regex) (s : pystr) : bool :=
  matches r None s (λ _ _, true).

(** [bool(pattern.search(s))] *)
Fixpoint search_from (r : regex) (prev : option N) (s : pystr) : bool :=
  matches r prev s (λ _ _, true) ||
  match s with
  | [] => false
  | c :: s' => search_from r (Some c) s'
  end.

Definition re_search (r : regex) (s : pystr) : bool := search_from r None s.

Definition seqs (rs : list regex) : regex := foldr Seq Eps rs.
Definition alts (rs : list regex) : regex :=
  match rs with
  | [] => Cls (λ _, false)
  | r :: rs' => foldl Alt r rs'
  end.
Definition chr (c : N) : regex := Cls (N.eqb c).
Definition one_of (cs : pystr) : regex := Cls (λ c, bool_decide (c ∈ cs)).

End Regex.
Export Regex.

Section Patterns.
Context `{UnicodeData}.

(** A literal under [re.IGNORECASE]. *)
Definition lit_i (s : string) : regex :=
  seqs (map (λ c, Cls (uc_ci_eq c)) (lit s)).

Definition digit : regex := Cls uc_decimal.
Definition sep : regex := one_of (lit "-/").

(** [RE_DT]: two digits, separator, two digits, separator, two to four
    digits, white space, [HH:MM] and optional [:SS], anchored. *)
Definition RE_DT : regex :=
  seqs [Bol; digit; digit; sep; digit; digit; sep;
        digit; digit; Opt (Seq digit (Opt digit));
        Plus isspace; digit; digit; chr 58; digit; digit;
        Opt (seqs [chr 58; digit; digit]); Eol].

(** [RE_DATE]: the date part alone, anchored. *)
Definition RE_DATE : regex :=
  seqs [Bol; digit; digit; sep; digit; digit; sep;
        digit; digit; Opt (Seq digit (Opt digit)); Eol].

(** [RE_BS_ID]: the prefix, three to five digits and a dash, ignoring
    case. *)
Definition RE_BS_ID : regex :=
  seqs [Bol; lit_i "BE-"; digit; digit; digit;
        Opt (Seq digit (Opt digit)); lit_i "-"].

(** [RE_STREET]: a street-type word between word boundaries, ignoring
    case. *)
Definition RE_STREET : regex :=
  seqs [WordB uc_word;
        alts [lit_i "rue"; lit_i "avenue";
              Seq (lit_i "av") (Opt (chr 46));
              lit_i "chaussée";
              Seq (lit_i "ch") (Opt (chr 46));
              lit_i "place"; lit_i "impasse"; lit_i "allée";
              lit_i "chemin"; lit_i "route"; lit_i "sentier";
              lit_i "clos"; lit_i "quai"; lit_i "boulevard";
              Seq (lit_i "bd") (Opt (chr 46))];
        WordB uc_word].

(** [is_empty(v)], [v] an optional string. *)
Definition is_empty (v : option pystr) : bool :=
  match v with
  | None => true
  | Some s => negb (nonempty (strip s))
  end.

Definition looks_like_betterstreet_id (v : pystr) : bool :=
  let t := strip v in
  startswith ID_PREFIX t || re_match RE_BS_ID t.

Definition looks_like_address (v : pystr) : bool :=
  let t := strip v in
  if (Z.of_nat (length t) <? 10)%Z then false
  else if looks_like_betterstreet_id t then false
  else if negb (existsb uc_isalpha t) then false
  else if negb (re_search RE_STREET t) then false
  else if negb (existsb uc_isdigit t) then false
  else true.

End Patterns.


(** ** Dates and times

    [datetime.datetime] values without time zone and with zero
    microseconds (no format of the program produces either).  The
    calendar arithmetic follows CPython's [datetime] module. *)
Module DateTime.

Record date := { d_year : Z; d_month : Z; d_day : Z }.
Record time := { t_hour : Z; t_minute : Z; t_second : Z }.
Record datetime := { dt_date : date; dt_time : time }.

(** A [timedelta] is its total number of seconds. *)
Definition timedelta := Z.
Definition hours (n : Z) : timedelta := (3600 * n)%Z.
Definition total_seconds (td : timedelta) : Z := td.

Definition dt_year (d : datetime) : Z := d_year (dt_date d).

Local Open Scope Z_scope.

Definition is_leap (y : Z) : bool :=
  (y mod 4 =? 0) && (negb (y mod 100 =? 0) || (y mod 400 =? 0)).

Definition days_in_month (y m : Z) : Z :=
  if m =? 2 then (if is_leap y then 29 else 28)
  else if (m =? 4) || (m =? 6) || (m =? 9) || (m =? 11) then 30
  else 31.

Definition DAYS_BEFORE_MONTH : list Z :=
  [0; 0; 31; 59; 90; 120; 151; 181; 212; 243; 273; 304; 334].

Definition DAYS_IN_MONTH : list Z :=
  [0; 31; 28; 31; 30; 31; 30; 31; 31; 30; 31; 30; 31].

Definition days_before_month (y m : Z) : Z :=
  nth (Z.to_nat m) DAYS_BEFORE_MONTH 0
  + (if (2 <? m) && is_leap y then 1 else 0).

Definition days_before_year (y : Z) : Z :=
  let y' := y - 1 in y' * 365 + y' / 4 - y' / 100 + y' / 400.

Definition ymd2ord (y m d : Z) : Z :=
  days_before_year y + days_before_month y m + d.

Definition toordinal (d : date) : Z :=
  ymd2ord (d_year d) (d_month d) (d_day d).

Definition MAXORDINAL : Z := 3652059.
Definition DI400Y : Z := 146097.
Definition DI100Y : Z := 36524.
Definition DI4Y : Z := 1461.

(** The month holding day [n] (counted from 0) of a year, with the number
    of days of the year before that month: an estimate of the month that
    is corrected when it is one too large. *)
Definition month_of_day (leapyear : bool) (n : Z) : Z * Z :=
  let month := Z.shiftr (n + 50) 5 in
  let preceding :=
    nth (Z.to_nat month) DAYS_BEFORE_MONTH 0
    + (if (2 <? month) && leapyear then 1 else 0) in
  if n <? preceding then
    let month := month - 1 in
    (month,
     preceding - (nth (Z.to_nat month) DAYS_IN_MONTH 0
                  + (if (month =? 2) && leapyear then 1 else 0)))
  else (month, preceding).

(** The check that [month_of_day] returns a month of the year and the
    number of days before it. *)
Definition month_of_day_ok (leap : bool) (n : Z) : bool :=
  let '(m, p) := month_of_day leap n in
  (1 <=? m) && (m <=? 12)
  && (nth (Z.to_nat m) DAYS_BEFORE_MONTH 0
      + (if (2 <? m) && leap then 1 else 0) =? p).

(** [date.fromordinal] *)
Definition ord2ymd (ordinal : Z) : date :=
  let n := ordinal - 1 in
  let n400 := n / DI400Y in
  let n := n mod DI400Y in
  let year := n400 * 400 + 1 in
  let n100 := n / DI100Y in
  let n := n mod DI100Y in
  let n4 := n / DI4Y in
  let n := n mod DI4Y in
  let n1 := n / 365 in
  let n := n mod 365 in
  let year := year + n100 * 100 + n4 * 4 + n1 in
  if (n1 =? 4) || (n100 =? 4) then
    {| d_year := year - 1; d_month := 12; d_day := 31 |}
  else
    let leapyear := (n1 =? 3) && (negb (n4 =? 24) || (n100 =? 3)) in
    let '(month, preceding) := month_of_day leapyear n in
    {| d_year := year; d_month := month; d_day := n - preceding + 1 |}.

Definition valid_date (d : date) : bool :=
  (1 <=? d_year d) && (d_year d <=? 9999)
  && (1 <=? d_month d) && (d_month d <=? 12)
  && (1 <=? d_day d) && (d_day d <=? days_in_month (d_year d) (d_month d)).

Definition valid_time (t : time) : bool :=
  (0 <=? t_hour t) && (t_hour t <=? 23)
  && (0 <=? t_minute t) && (t_minute t <=? 59)
  && (0 <=? t_second t) && (t_second t <=? 59).

Definition valid_datetime (d : datetime) : bool :=
  valid_date (dt_date d) && valid_time (dt_time d).

(** The constructor [datetime(y, m, d, H, M, S)]; [None] is its
    [ValueError]. *)
Definition make_datetime (y m d H M S : Z) : option datetime :=
  let v := {| dt_date := {| d_year := y; d_month := m; d_day := d |};
              dt_time := {| t_hour := H; t_minute := M; t_second := S |} |} in
  if valid_datetime v then Some v else None.

Definition time_seconds (t : time) : Z :=
  t_hour t * 3600 + t_minute t * 60 + t_second t.

(** Seconds elapsed since the start of day 0 of the proleptic calendar. *)
Definition dt_seconds (d : datetime) : Z :=
  toordinal (dt_date d) * 86400 + time_seconds (dt_time d).

(** [d + td]; [None] is the [OverflowError] raised when the result leaves
    the supported range of years. *)
Definition dt_add (d : datetime) (td : timedelta) : option datetime :=
  let total := dt_seconds d + td in
  let days := total / 86400 in
  let secs := total mod 86400 in
  if (0 <? days) && (days <=? MAXORDINAL) then
    Some {| dt_date := ord2ymd days;
            dt_time := {| t_hour := secs / 3600;
                          t_minute := (secs mod 3600) / 60;
                          t_second := secs mod 60 |} |}
  else None.

(** [a - b] *)
Definition dt_sub (a b : datetime) : timedelta := dt_seconds a - dt_seconds b.

(** [a < b]: the fields are compared lexicographically. *)
Fixpoint lex_lt (a b : list Z) : bool :=
  match a, b with
  | x :: a', y :: b' => (x <? y) || ((x =? y) && lex_lt a' b')
  | _, _ => false
  end.

Definition dt_fields (d : datetime) : list Z :=
  [d_year (dt_date d); d_month (dt_date d); d_day (dt_date d);
   t_hour (dt_time d); t_minute (dt_time d); t_second (dt_time d)].

Definition dt_lt (a b : datetime) : bool := lex_lt (dt_fields a) (dt_fields b).

End DateTime.
Export DateTime.

(** [datetime.strptime] is library code as well; the program only relies
    on whether it succeeds and on the value it returns. *)
Class Strptime := {
  strptime : pystr → pystr → option datetime;
}.

(** A model of CPython's [_strptime] for the directives the program uses
    (ASCII digits). A format becomes a sequence of items; each directive
    has alternatives tried in order, and the first overall match must
    consume the whole string. *)
Module PyStrptime.

Inductive item := Dir (c : N) | Ws | Ch (c : N).

Fixpoint parse_format (in_ws : bool) (fmt : pystr) : list item :=
  match fmt with
  | [] => []
  | c :: r =>
    if (c =? 37)%N then
      match r with
      | d :: r' => Dir d :: parse_format false r'
      | [] => [Ch c]
      end
    else if isspace c then
      (if in_ws then parse_format true r else Ws :: parse_format true r)
    else Ch c :: parse_format false r
  end.

Definition D09 : N * N := (48, 57)%N.

(** The alternatives of each directive, as sequences of character ranges. *)
Definition alternatives (d : N) : list (list (N * N)) :=
  (if d =? 100 then                     (* d *)
     [[(51, 51); (48, 49)]; [(49, 50); D09]; [(48, 48); (49, 57)];
      [(49, 57)]; [(32, 32); (49, 57)]]
   else if d =? 109 then                (* m *)
     [[(49, 49); (48, 50)]; [(48, 48); (49, 57)]; [(49, 57)]]
   else if d =? 121 then [[D09; D09]]   (* y *)
   else if d =? 89 then [[D09; D09; D09; D09]]   (* Y *)
   else if d =? 72 then                 (* H *)
     [[(50, 50); (48, 51)]; [(48, 49); D09]; [D09]]
   else if d =? 77 then                 (* M *)
     [[(48, 53); D09]; [D09]]
   else if d =? 83 then                 (* S *)
     [[(54, 54); (48, 49)]; [(48, 53); D09]; [D09]]
   else [])%N.

Fixpoint match_alt (alt : list (N * N)) (s : pystr)
    : option (pystr * pystr) :=
  match alt, s with
  | [], _ => Some ([], s)
  | _ :: _, [] => None
  | (lo, hi) :: alt', c :: s' =>
    if between lo hi c then
      match match_alt alt' s' with
      | Some (m, rest) => Some (c :: m, rest)
      | None => None
      end
    else None
  end.

(** [int(text)] for text made of digits, possibly after a space. *)
Definition int_of (text : pystr) : Z :=
  foldl (λ acc c, if between 48 57 c then (10 * acc + Z.of_N (c - 48))%Z
                  else acc) 0%Z text.

Definition found := list (N * Z).

Fixpoint run (items : list item) : pystr → found → option (found * pystr) :=
  match items with
  | [] => λ s acc, Some (acc, s)
  | Ch c :: its => λ s acc,
      match s with
      | x :: s' => if Latin1.ci_eq c x then run its s' acc else None
      | [] => None
      end
  | Ws :: its =>
      fix ws (s : pystr) (acc : found) : option (found * pystr) :=
        match s with
        | c :: s' =>
          if isspace c then
            match ws s' acc with
            | Some r => Some r
            | None => run its s' acc
            end
          else None
        | [] => None
        end
  | Dir d :: its => λ s acc,
      (fix try (alts : list (list (N * N))) : option (found * pystr) :=
         match alts with
         | [] => None
         | alt :: alts' =>
           match match_alt alt s with
           | Some (text, rest) =>
             match run its rest ((d, int_of text) :: acc) with
             | Some r => Some r
             | None => try alts'
             end
           | None => try alts'
           end
         end) (alternatives d)
  end.

Fixpoint lookup_dir (d : N) (f : found) : option Z :=
  match f with
  | [] => None
  | (k, v) :: f' => if (k =? d)%N then Some v else lookup_dir d f'
  end.

Definition build (f : found) : option datetime :=
  let year :=
    match lookup_dir 89 f, lookup_dir 121 f with
    | Some y, _ => y
    | None, Some y => if (y <=? 68)%Z then (2000 + y)%Z else (1900 + y)%Z
    | None, None => 1900%Z
    end in
  make_datetime year
    (default 1%Z (lookup_dir 109 f)) (default 1%Z (lookup_dir 100 f))
    (default 0%Z (lookup_dir 72 f)) (default 0%Z (lookup_dir 77 f))
    (default 0%Z (lookup_dir 83 f)).

Definition py_strptime (s fmt : pystr) : option datetime :=
  match run (parse_format false fmt) s [] with
  | Some (f, []) => build f
  | _ => None
  end.

Definition cpython : Strptime := {| strptime := py_strptime |}.

End PyStrptime.
Export PyStrptime.

(** ** Temporal normaliser *)

Definition DT_FORMATS : list pystr :=
  [lit "%d-%m-%y %H:%M";
   lit "%d-%m-%Y %H:%M";
   lit "%d/%m/%y %H:%M";
   lit "%d/%m/%Y %H:%M";
   lit "%Y-%m-%d %H:%M";
   lit "%Y-%m-%d %H:%M:%S";
   lit "%d-%m-%Y %H:%M:%S";
   lit "%d/%m/%Y %H:%M:%S"].

Definition DATE_ONLY_FORMATS : list pystr :=
  [lit "%d-%m-%y";
   lit "%d-%m-%Y";
   lit "%d/%m/%y";
   lit "%d/%m/%Y"].

Inductive exn :=
  | ValueError (msg : pystr)
  | OverflowError.

Inductive result (A : Type) :=
  | Ok (a : A)
  | Raise (e : exn).
Arguments Ok {A} a.
Arguments Raise {A} e.

(** [str(e)] *)
Definition exn_str (e : exn) : pystr :=
  match e with
  | ValueError msg => msg
  | OverflowError => lit "date value out of range"
  end.

Section Temporal.
Context `{Strptime}.

(** The [for fmt in ...: try ... except ValueError: pass] loop. *)
Fixpoint try_formats (s : pystr) (fmts : list pystr) : option datetime :=
  match fmts with
  | [] => None
  | fmt :: rest =>
    match strptime s fmt with
    | Some d => Some d
    | None => try_formats s rest
    end
  end.

Definition parse_dt (val : pystr) : result datetime :=
  let s := strip val in
  match try_formats s DT_FORMATS with
  | Some d => Ok d
  | None => Raise (ValueError (lit "Date/heure non reconnue: " ++ s))
  end.

Definition parse_date_only (val : pystr) : option date :=
  let s := strip val in
  dt_date <$> try_formats s DATE_ONLY_FORMATS.

Definition in_year (dt : option datetime) (year : Z) : bool :=
  match dt with
  | Some d => (dt_year d =? year)%Z
  | None => false
  end.

End Temporal.

(** ** Python lists and dictionaries *)
Module Py.

(** [l[i]], with Python's negative indices; [None] is [IndexError]. *)
Definition py_get {A} (l : list A) (i : Z) : option A :=
  if (i <? 0)%Z then
    (if (i + Z.of_nat (length l) <? 0)%Z then None
     else l !! Z.to_nat (i + Z.of_nat (length l)))
  else l !! Z.to_nat i.

(** [l[lo:hi]] for non-negative bounds. *)
Definition slice {A} (l : list A) (lo hi : Z) : list A :=
  take (Z.to_nat hi - Z.to_nat lo) (drop (Z.to_nat lo) l).

(** [len(l)] *)
Definition len {A} (l : list A) : Z := Z.of_nat (length l).

(** [[i for i, t in enumerate(l) if p(t)]] *)
Fixpoint indices_from {A} (p : A → bool) (i : Z) (l : list A) : list Z :=
  match l with
  | [] => []
  | x :: l' =>
    if p x then i :: indices_from p (i + 1)%Z l'
    else indices_from p (i + 1)%Z l'
  end.

Definition indices {A} (p : A → bool) (l : list A) : list Z :=
  indices_from p 0%Z l.

(** [range(start, stop, -1)] *)
Definition range_down (start stop : Z) : list Z :=
  map (λ k, (start - Z.of_nat k)%Z) (seq 0 (Z.to_nat (start - stop))).

(** [dict(pairs)]: later pairs overwrite earlier ones. *)
Definition py_dict {V} (pairs : list (pystr * V)) : gmap (list N) V :=
  foldl (λ m kv, <[kv.1 := kv.2]> m) ∅ pairs.

(** [d.get(k)] on a dictionary of optional strings. *)
Definition f_get (f : gmap (list N) (option (list N))) (k : pystr)
    : option pystr :=
  mjoin (f !! k).

(** Truthiness of an optional string. *)
Definition truthy (v : option pystr) : bool :=
  match v with Some s => nonempty s | None => false end.

End Py.
Export Py.

(** ** Field extractor *)

Definition K_ID : pystr := lit "ID".
Definition K_DESCRIPTION : pystr := lit "Description".
Definition K_CATEGORIE : pystr := lit "Catégorie".
Definition K_BATIMENT : pystr := lit "Bâtiment/Équipement".
Definition K_ADRESSE : pystr := lit "Adresse".
Definition K_CREE_LE : pystr := lit "Créé le".
Definition K_ECHEANCE : pystr := lit "Échéance".
Definition K_DEBUT : pystr := lit "Début planification".
Definition K_FIN : pystr := lit "Fin planification".
Definition K_AGENTS : pystr := lit "Agents/Équipes".
Definition K_CONSIGNE : pystr := lit "Consigne".

(** The names under which the fallback path stores what it infers. *)
Definition INFERRED_FIELDS : list pystr :=
  [K_ID; K_DESCRIPTION; K_CATEGORIE; K_BATIMENT; K_ADRESSE; K_CREE_LE;
   K_ECHEANCE; K_DEBUT; K_FIN; K_AGENTS; K_CONSIGNE].

Record ExtractResult := {
  fields : gmap (list N) (option (list N));
  aligned : bool;
}.

Section Extractor.
Context `{UnicodeData}.

(** [toks[i]] at an index the program has checked to be in range. *)
Definition tok (toks : list pystr) (i : Z) : pystr :=
  default [] (py_get toks i).

Definition is_dt (t : pystr) : bool := nonempty t && re_match RE_DT t.
Definition is_date (t : pystr) : bool := nonempty t && re_match RE_DATE t.

(** [(dt_idxs[-2], dt_idxs[-1]) if len(dt_idxs) >= 2 else (None, None)] *)
Definition start_end_idx (dt_idxs : list Z) : option Z * option Z :=
  if (2 <=? len dt_idxs)%Z then (py_get dt_idxs (-2), py_get dt_idxs (-1))
  else (None, None).

Definition created_echeance_idx (date_idxs : list Z) (start_idx : option Z)
    : option Z * option Z :=
  match start_idx with
  | Some si =>
    let prev := filter (λ i, (i < si)%Z) date_idxs in
    if (2 <=? len prev)%Z then (py_get prev (-2), py_get prev (-1))
    else (None, None)
  | None =>
    if (2 <=? len date_idxs)%Z then (py_get date_idxs 0, py_get date_idxs 1)
    else (None, None)
  end.

Definition set_description_1 (toks : list pystr)
    (f : gmap (list N) (option (list N))) : gmap (list N) (option (list N)) :=
  if (1 <? len toks)%Z then <[K_DESCRIPTION := or_none (strip (tok toks 1))]> f
  else f.

(** The block guarded by [created_idx is not None] and its [elif]. *)
Definition set_created (toks : list pystr) (created_idx : option Z)
    (f : gmap (list N) (option (list N))) : gmap (list N) (option (list N)) :=
  match created_idx with
  | Some ci =>
    let f := <[K_CREE_LE := or_none (tok toks ci)]> f in
    let f :=
      if (1 <=? ci - 1)%Z then
        let cand := strip (tok toks (ci - 1)) in
        if nonempty cand && negb (re_match RE_DATE cand)
           && negb (re_match RE_DT cand)
        then <[K_CATEGORIE := Some cand]> f else f
      else f in
    if (2 <? ci)%Z then
      let desc := strip (join (lit ";") (slice toks 1 (ci - 1))) in
      <[K_DESCRIPTION := or_none desc]> f
    else set_description_1 toks f
  | None => set_description_1 toks f
  end.

Definition set_opt (k : pystr) (toks : list pystr) (idx : option Z)
    (f : gmap (list N) (option (list N))) : gmap (list N) (option (list N)) :=
  match idx with
  | Some i => <[k := or_none (tok toks i)]> f
  | None => f
  end.

(** [idx + k] when [idx] is set and [idx + k < len(toks)]. *)
Definition index_after (toks : list pystr) (idx : option Z) (k : Z)
    : option Z :=
  match idx with
  | Some i => if (i + k <? len toks)%Z then Some (i + k)%Z else None
  | None => None
  end.

(** The token after the end of planning, else three after the due date. *)
Definition agents_index (toks : list pystr) (end_idx echeance_idx : option Z)
    : option Z :=
  match index_after toks end_idx 1 with
  | Some a => Some a
  | None => index_after toks echeance_idx 3
  end.

(** A candidate that is an id, address-like, a date or a date-time. *)
Definition anchor_like (cand : pystr) : bool :=
  looks_like_betterstreet_id cand || looks_like_address cand
  || re_match RE_DATE cand || re_match RE_DT cand.

(** Address and building around the due date. *)
Definition set_around_echeance (toks : list pystr) (echeance_idx : option Z)
    (f : gmap (list N) (option (list N))) : gmap (list N) (option (list N)) :=
  match echeance_idx with
  | Some ei =>
    let addr_i := (ei - 1)%Z in
    let bat_i := (ei - 2)%Z in
    let f :=
      if (0 <=? addr_i)%Z && (addr_i <? len toks)%Z then
        let cand_addr := strip (tok toks addr_i) in
        if nonempty cand_addr && looks_like_address cand_addr
        then <[K_ADRESSE := Some cand_addr]> f else f
      else f in
    if (0 <=? bat_i)%Z && (bat_i <? len toks)%Z then
      let cand_bat := strip (tok toks bat_i) in
      if nonempty cand_bat && negb (looks_like_betterstreet_id cand_bat)
         && negb (looks_like_address cand_bat)
         && negb (re_match RE_DATE cand_bat) && negb (re_match RE_DT cand_bat)
      then <[K_BATIMENT := Some cand_bat]> f else f
    else f
  | None => f
  end.

(** The scan for the first address-like token. *)
Definition set_address_scan (toks : list pystr)
    (f : gmap (list N) (option (list N))) : gmap (list N) (option (list N)) :=
  if negb (truthy (f_get f K_ADRESSE)) then
    match List.find looks_like_address toks with
    | Some t => <[K_ADRESSE := Some (strip t)]> f
    | None => f
    end
  else f.

(** A candidate accepted by the building and instruction scans. *)
Definition scan_accepts (f : gmap (list N) (option (list N))) (cand : pystr)
    : bool :=
  nonempty cand && negb (anchor_like cand)
  && negb (truthy (f_get f K_DESCRIPTION)
           && bool_decide (f_get f K_DESCRIPTION = Some cand)).

(** The backward scan for a building, before the address. *)
Definition set_batiment_scan (toks : list pystr)
    (f : gmap (list N) (option (list N))) : gmap (list N) (option (list N)) :=
  if negb (truthy (f_get f K_BATIMENT)) && truthy (f_get f K_ADRESSE) then
    let addr := strip (default [] (f_get f K_ADRESSE)) in
    match indices (λ t, bool_decide (strip t = addr)) toks with
    | addr_pos :: _ =>
      let js := range_down (addr_pos - 1) (Z.max (-1) (addr_pos - 8)) in
      match List.find (scan_accepts f) (map (λ j, strip (tok toks j)) js) with
      | Some cand => <[K_BATIMENT := Some cand]> f
      | None => f
      end
    | [] => f
    end
  else f.

(** The instruction: the last accepted token after the agents. *)
Definition set_consigne (toks : list pystr) (agents_idx : option Z)
    (f : gmap (list N) (option (list N))) : gmap (list N) (option (list N)) :=
  match agents_idx with
  | Some ai =>
    if (ai + 1 <? len toks)%Z then
      let tail := drop (Z.to_nat (ai + 1)) toks in
      match List.find (scan_accepts f) (map strip (rev tail)) with
      | Some t => <[K_CONSIGNE := Some t]> f
      | None => f
      end
    else f
  | None => f
  end.

(** The fallback path: the field map inferred from the anchors. *)
Definition heuristic_fields (toks : list pystr) (rid : pystr)
    (header_cols : list pystr) : gmap (list N) (option (list N)) :=
  let dt_idxs := indices is_dt toks in
  let '(start_idx, end_idx) := start_end_idx dt_idxs in
  let date_idxs := indices is_date toks in
  let '(created_idx, echeance_idx) :=
    created_echeance_idx date_idxs start_idx in
  let f := py_dict (map (λ k, (k, None)) header_cols) in
  let f := <[K_ID := Some rid]> f in
  let f := set_created toks created_idx f in
  let f := set_opt K_ECHEANCE toks echeance_idx f in
  let f := set_opt K_DEBUT toks start_idx f in
  let f := set_opt K_FIN toks end_idx f in
  let agents_idx := agents_index toks end_idx echeance_idx in
  let f := set_opt K_AGENTS toks agents_idx f in
  let f := set_around_echeance toks echeance_idx f in
  let f := set_address_scan toks f in
  let f := set_batiment_scan toks f in
  set_consigne toks agents_idx f.

Definition extract_fields (record_line : pystr) (header_cols : list pystr)
    (delimiter : N) : option ExtractResult :=
  let toks := map strip (split delimiter record_line) in
  match toks with
  | [] => None
  | _ :: _ =>
    let rid := clean_id (tok toks 0) in
    if negb (startswith ID_PREFIX rid) then None
    else if (len toks =? len header_cols)%Z then
      let data := py_dict (zip header_cols toks) in
      let norm := or_none <$> data in
      Some {| fields := norm; aligned := true |}
    else
      Some {| fields := heuristic_fields toks rid header_cols;
              aligned := false |}
  end.

End Extractor.

(** ** Record filter and classifier: the body of [main]

    File access, the spreadsheet and the console report are outside the
    model: [main] takes the lines of the file and returns the records
    and anomalies it hands to the report, with its counters.  Values the
    program renders with [str] or [strftime] are kept as values. *)

Record OutRecord := {
  r_ID : option pystr;
  r_Description : option pystr;
  r_Categorie : option pystr;
  r_Batiment_Equipement : option pystr;
  r_Adresse : option pystr;
  r_Date_Debut : option date;
  r_Heure_Debut : option time;
  r_Date_Fin : option date;
  r_Heure_Fin : option time;
  r_Consigne : option pystr;
  r_Agents_Equipes : option pystr;
  r_Duree : option timedelta;
}.

Record Anomaly := {
  a_ID : option pystr;
  a_Debut_raw : option pystr;
  a_Fin_raw : option pystr;
  a_Fin_corrigee : option datetime;
  a_Duree_corrigee : option timedelta;
  a_Notes : pystr;
}.

(** What one iteration of the loop over the records does. *)
Inductive outcome :=
  | Dropped                                  (* [ex is None] *)
  | SkippedOtherYear (al : bool)
  | Kept (al : bool) (r : OutRecord) (a : option Anomaly)
  | Crashed (e : exn).                       (* an exception leaves [main] *)

Record Run := {
  records : list OutRecord;
  anomalies : list Anomaly;
  kept : Z;
  skipped_other_year : Z;
  aligned_count : Z;
  broken_count : Z;
}.

Definition NOTE_START_ERR : pystr := lit "Start parse error: ".
Definition NOTE_END_ERR : pystr := lit "End parse error: ".
Definition NOTE_START_MISSING : pystr := lit "Start missing".
Definition NOTE_END_MISSING : pystr := lit "End missing".
Definition NOTE_AGENTS_MISSING : pystr := lit "Agents/Équipes missing".
Definition NOTE_SHIFTED : pystr :=
  lit "End time shifted +12h (12h ambiguity forced)".
Definition NOTE_NEGATIVE : pystr :=
  lit "Duration still negative after correction".
Definition NOTE_SEP : pystr := lit " | ".

Section Classifier.
Context `{UnicodeData} `{Strptime}.

(** One [try: if not is_empty(raw): dt = parse_dt(str(raw))
    except Exception as e: notes.append(...)] block: the parsed value and
    the note it appends. *)
Definition parse_planning (label : pystr) (raw : option pystr)
    : option datetime * list pystr :=
  match raw with
  | Some s =>
    if is_empty raw then (None, [])
    else match parse_dt s with
         | Ok d => (Some d, [])
         | Raise e => (None, [label ++ exn_str e])
         end
  | None => (None, [])
  end.

Definition parse_created (raw : option pystr) : option date :=
  match raw with
  | Some s => if is_empty raw then None else parse_date_only s
  | None => None
  end.

(** The notes collected before the year filter. *)
Definition notes_before_filter (start_notes end_notes : list pystr)
    (start_dt end_dt : option datetime) (agents_equipes : option pystr)
    : list pystr :=
  start_notes ++ end_notes
  ++ (if start_dt is None then [NOTE_START_MISSING] else [])
  ++ (if end_dt is None then [NOTE_END_MISSING] else [])
  ++ (if is_empty agents_equipes then [NOTE_AGENTS_MISSING] else []).

(** The year filter. *)
Definition keep_record (start_dt end_dt : option datetime)
    (created_date : option date) (year : Z) : bool :=
  let planned_in_year := in_year start_dt year || in_year end_dt year in
  let created_in_year :=
    match created_date with
    | Some d => (d_year d =? year)%Z
    | None => false
    end in
  let has_planning := bool_decide (start_dt ≠ None ∨ end_dt ≠ None) in
  if has_planning then planned_in_year else created_in_year.

(** The forced 12-hour correction: the corrected end and its note. *)
Definition correct_end (start_dt end_dt : option datetime)
    : result (option datetime * list pystr) :=
  match start_dt, end_dt with
  | Some s, Some e =>
    if dt_lt e s then
      match dt_add e (hours 12) with
      | Some e' => Ok (Some e', [NOTE_SHIFTED])
      | None => Raise OverflowError
      end
    else Ok (end_dt, [])
  | _, _ => Ok (end_dt, [])
  end.

(** The duration and its note. *)
Definition duration_of (start_dt end_dt_corrected : option datetime)
    : option timedelta * list pystr :=
  match start_dt, end_dt_corrected with
  | Some s, Some e =>
    let duration_td := dt_sub e s in
    (Some duration_td,
     if (total_seconds duration_td <? 0)%Z then [NOTE_NEGATIVE] else [])
  | _, _ => (None, [])
  end.

Definition is_anomaly (notes_joined : pystr) : bool :=
  contains (lit "parse error") notes_joined
  || contains (lit "missing") notes_joined
  || contains (lit "End time shifted +12h") notes_joined
  || contains (lit "Duration still negative") notes_joined.

(** The loop body for a record whose fields were extracted. *)
Definition classify (f : gmap (list N) (option (list N))) (al : bool)
    (year : Z) : outcome :=
  let start_raw := f_get f K_DEBUT in
  let end_raw := f_get f K_FIN in
  let created_raw := f_get f K_CREE_LE in
  let agents_equipes := f_get f K_AGENTS in
  let '(start_dt, start_notes) := parse_planning NOTE_START_ERR start_raw in
  let '(end_dt, end_notes) := parse_planning NOTE_END_ERR end_raw in
  let created_date := parse_created created_raw in
  let notes :=
    notes_before_filter start_notes end_notes start_dt end_dt agents_equipes in
  if negb (keep_record start_dt end_dt created_date year)
  then SkippedOtherYear al
  else
    match correct_end start_dt end_dt with
    | Raise e => Crashed e
    | Ok (end_dt_corrected, shift_notes) =>
      let '(duration_td, duration_notes) :=
        duration_of start_dt end_dt_corrected in
      let notes := notes ++ shift_notes ++ duration_notes in
      let notes_joined := join NOTE_SEP notes in
      let anomaly :=
        if is_anomaly notes_joined then
          Some {| a_ID := f_get f K_ID;
                  a_Debut_raw := start_raw;
                  a_Fin_raw := end_raw;
                  a_Fin_corrigee := end_dt_corrected;
                  a_Duree_corrigee := duration_td;
                  a_Notes := notes_joined |}
        else None in
      Kept al
        {| r_ID := f_get f K_ID;
           r_Description := f_get f K_DESCRIPTION;
           r_Categorie := f_get f K_CATEGORIE;
           r_Batiment_Equipement := f_get f K_BATIMENT;
           r_Adresse := f_get f K_ADRESSE;
           r_Date_Debut := dt_date <$> start_dt;
           r_Heure_Debut := dt_time <$> start_dt;
           r_Date_Fin := dt_date <$> end_dt_corrected;
           r_Heure_Fin := dt_time <$> end_dt_corrected;
           r_Consigne := f_get f K_CONSIGNE;
           r_Agents_Equipes := agents_equipes;
           r_Duree := duration_td |}
        anomaly
    end.

Definition process_record (record_line : pystr) (header_cols : list pystr)
    (year : Z) : outcome :=
  match extract_fields record_line header_cols SEMI with
  | None => Dropped
  | Some ex => classify (fields ex) (aligned ex) year
  end.

Definition count_aligned (al : bool) (run : Run) : Run :=
  {| records := records run; anomalies := anomalies run;
     kept := kept run; skipped_other_year := skipped_other_year run;
     aligned_count := (if al then aligned_count run + 1
                       else aligned_count run)%Z;
     broken_count := (if al then broken_count run
                      else broken_count run + 1)%Z |}.

(** The state after one iteration. *)
Definition record_outcome (o : outcome) (run : Run) : result Run :=
  match o with
  | Dropped => Ok run
  | SkippedOtherYear al =>
    let run := count_aligned al run in
    Ok {| records := records run; anomalies := anomalies run;
          kept := kept run;
          skipped_other_year := (skipped_other_year run + 1)%Z;
          aligned_count := aligned_count run;
          broken_count := broken_count run |}
  | Kept al r a =>
    let run := count_aligned al run in
    Ok {| records := records run ++ [r];
          anomalies := anomalies run ++ option_list a;
          kept := (kept run + 1)%Z;
          skipped_other_year := skipped_other_year run;
          aligned_count := aligned_count run;
          broken_count := broken_count run |}
  | Crashed e => Raise e
  end.

(** [for record_line in rebuilt_lines[1:]] *)
Fixpoint main_loop (header_cols : list pystr) (year : Z)
    (lines : list pystr) (run : Run) : result Run :=
  match lines with
  | [] => Ok run
  | record_line :: rest =>
    match record_outcome (process_record record_line header_cols year) run with
    | Ok run' => main_loop header_cols year rest run'
    | Raise e => Raise e
    end
  end.

Definition empty_run : Run :=
  {| records := []; anomalies := []; kept := 0; skipped_other_year := 0;
     aligned_count := 0; broken_count := 0 |}.

Definition EMPTY_INPUT : exn :=
  ValueError (lit "Aucune ligne reconstruite (CSV vide ?).").

Definition main (raw_lines : list pystr) (year : Z) : result Run :=
  let rebuilt_lines := rebuild_records_by_id raw_lines SEMI in
  match rebuilt_lines with
  | [] => Raise EMPTY_INPUT
  | header :: rest =>
    let header_cols := map strip (split SEMI header) in
    main_loop header_cols year rest empty_run
  end.

(** The record and the anomaly a line contributes to the run, if any. *)
Definition kept_record (header_cols : list pystr) (year : Z) (line : pystr)
    : option OutRecord :=
  match process_record line header_cols year with
  | Kept _ r _ => Some r
  | _ => None
  end.

Definition kept_anomaly (header_cols : list pystr) (year : Z) (line : pystr)
    : option Anomaly :=
  match process_record line header_cols year with
  | Kept _ _ a => a
  | _ => None
  end.

End Classifier.

(** ** Sample inputs

    The inputs on which the properties below are instantiated. *)
Module Samples.

Definition header9 : pystr :=
  lit "ID;Description;Catégorie;Créé le;Échéance;Début planification;Fin planification;Agents/Équipes;Consigne".

(** The aligned record of the specification's example. *)
Definition rec_aligned : pystr :=
  lit "BE-1001-;Fuite toiture;Voirie;15-03-25;20-03-25;15-03-25 07:30;15-03-25 19:45;Equipe A;Vérifier vanne".

(** A record broken by a delimiter in its description, whose end time
    precedes its start time. *)
Definition rec_shift : pystr :=
  lit "BE-1002-;Fuite; toiture;Voirie;15-03-25;20-03-25;15-03-25 17:30;15-03-25 09:45;Equipe A;Vérifier vanne".

(** An aligned record whose id is quoted. *)
Definition header_created : pystr := lit "ID;Créé le".
Definition rec_quoted : pystr :=
  [DQUOTE] ++ lit "BE-1001-" ++ [DQUOTE] ++ lit ";15-03-25".

(** A record planned on the last day of 2024 with an end before its
    start. *)
Definition header_planning : pystr :=
  lit "ID;Début planification;Fin planification;Agents/Équipes".
Definition rec_new_year : pystr :=
  lit "BE-1003-;31-12-24 23:00;31-12-24 13:00;Equipe A".

(** A broken record with a due date and neither agents nor address. *)
Definition header3 : list pystr := [lit "ID"; lit "A"; lit "B"].
Definition rec_no_anchor : pystr := lit "BE-1-;Garage;foo;01-01-25;02-01-25".

(** First tokens that the prefix test and the id pattern judge
    differently. *)
Definition line_lower : pystr := lit "be-123-;x".
Definition line_no_digits : pystr := lit "BE-abc;x".

(** A field map whose start of planning is not a date. *)
Definition fields_bad_start : gmap (list N) (option (list N)) :=
  <[K_DEBUT := Some (lit "demain matin")]>
    (<[K_ID := Some (lit "BE-1004-")]> ∅).

(** A record whose end, at the very end of the supported calendar,
    precedes its start. *)
Definition rec_overflow : pystr :=
  lit "BE-1005-;31-12-9999 14:00;31-12-9999 13:00;Equipe A".

(** A preamble line, a record and the two lines its description
    overflows onto. *)
Definition line_preamble : pystr := lit "Export du 15 mars".
Definition line_record : pystr := lit "BE-1;Fuite".
Definition line_more : pystr := lit "au premier".
Definition line_last : pystr := lit "et au second;Voirie".

(** A short record with no date at all. *)
Definition rec_no_dates : pystr := lit "BE-7-;Banc cassé".

(** The planning fields of a record whose end follows its start. *)
Definition fields_in_order : gmap (list N) (option (list N)) :=
  <[K_DEBUT := Some (lit "15-03-25 07:30")]>
    (<[K_FIN := Some (lit "15-03-25 19:45")]>
       (<[K_AGENTS := Some (lit "Equipe A")]>
          (<[K_ID := Some (lit "BE-1006-")]> ∅))).

End Samples.
Export Samples.

(** * Properties *)

(** ** Strings *)
Section StringFacts.

Lemma forallb_lstrip_by (q p : N → bool) (s : pystr) :
  (∀ c, q c = true → p c = true) →
  forallb p (lstrip_by q s) = forallb p s.
Proof.
  intros Hqp. induction s as [|c r IH]; simpl; [done|].
  destruct (q c) eqn:Hq; [|done].
  rewrite IH. by rewrite (Hqp c Hq).
Qed.

Lemma forallb_rev (p : N → bool) (s : pystr) :
  forallb p (rev s) = forallb p s.
Proof.
  induction s as [|c r IH]; simpl; [done|].
  rewrite forallb_app, IH. simpl. rewrite andb_true_r. apply andb_comm.
Qed.

Lemma forallb_rstrip_by (q p : N → bool) (s : pystr) :
  (∀ c, q c = true → p c = true) →
  forallb p (rstrip_by q s) = forallb p s.
Proof.
  intros Hqp. unfold rstrip_by.
  by rewrite forallb_rev, forallb_lstrip_by, forallb_rev.
Qed.

Lemma lstrip_by_nil (p : N → bool) (s : pystr) :
  nonempty (lstrip_by p s) = negb (forallb p s).
Proof.
  induction s as [|c r IH]; simpl; [done|].
  destruct (p c); simpl; [apply IH | done].
Qed.

Lemma nonempty_rev (s : pystr) : nonempty (rev s) = nonempty s.
Proof.
  destruct s as [|c r]; [done|]. simpl.
  by destruct (rev r).
Qed.

Lemma rstrip_by_nil (p : N → bool) (s : pystr) :
  nonempty (rstrip_by p s) = negb (forallb p s).
Proof.
  unfold rstrip_by. by rewrite nonempty_rev, lstrip_by_nil, forallb_rev.
Qed.

(** A line is blank exactly when all its characters are white space. *)
Lemma is_blank_forallb (s : pystr) : is_blank s = forallb isspace s.
Proof.
  unfold is_blank, strip, strip_by.
  rewrite rstrip_by_nil, negb_involutive.
  by apply forallb_lstrip_by.
Qed.

Lemma is_blank_rstrip_nl (s : pystr) :
  is_blank (rstrip_char NL s) = is_blank s.
Proof.
  rewrite !is_blank_forallb. apply forallb_rstrip_by.
  intros c Hc. apply N.eqb_eq in Hc. by subst c.
Qed.

Lemma rstrip_by_idem (p : N → bool) (s : pystr) :
  rstrip_by p (rstrip_by p s) = rstrip_by p s.
Proof.
  unfold rstrip_by. rewrite rev_involutive. f_equal.
  generalize (rev s). intros l.
  induction l as [|c r IH]; simpl; [done|].
  destruct (p c) eqn:Hp; [done|]. simpl. by rewrite Hp.
Qed.

Lemma split_nonempty (d : N) (s : pystr) : split d s ≠ [].
Proof.
  destruct s as [|c r]; simpl; [done|].
  destruct (c =? d)%N; [done|]. by destruct (split d r).
Qed.

Lemma startswith_app (p s : pystr) : startswith p (p ++ s) = true.
Proof.
  induction p as [|a p IH]; simpl; [done|]. by rewrite N.eqb_refl.
Qed.

Lemma startswith_prefix (p s : pystr) :
  startswith p s = true ↔ ∃ tail, s = p ++ tail.
Proof.
  split.
  - revert s. induction p as [|a p IH]; intros s Hs; simpl in *.
    + by exists s.
    + destruct s as [|b s]; [done|].
      apply andb_true_iff in Hs as [Hab Hs]. apply N.eqb_eq in Hab.
      destruct (IH _ Hs) as [tail ->]. exists tail. by subst.
  - intros [tail ->]. apply startswith_app.
Qed.

Lemma contains_app_r (needle a b : pystr) :
  contains needle b = true → contains needle (a ++ b) = true.
Proof.
  intros Hb. induction a as [|c a IH]; simpl; [done|].
  rewrite IH. apply orb_true_r.
Qed.

Lemma startswith_app_l (needle a b : pystr) :
  startswith needle a = true → startswith needle (a ++ b) = true.
Proof.
  intros [t ->]%startswith_prefix. rewrite <- app_assoc.
  apply startswith_app.
Qed.

Lemma contains_app_l (needle a b : pystr) :
  contains needle a = true → contains needle (a ++ b) = true.
Proof.
  induction a as [|c a IH]; simpl.
  - destruct needle; [|done]. intros _. by destruct b.
  - intros [Hs|Hc]%orb_true_iff.
    + change (c :: a ++ b) with ((c :: a) ++ b).
      by rewrite startswith_app_l.
    + rewrite (IH Hc). apply orb_true_r.
Qed.

Lemma contains_refl (x : pystr) : contains x x = true.
Proof.
  assert (startswith x x = true) as Hs.
  { rewrite <- (app_nil_r x) at 2. apply startswith_app. }
  destruct x; simpl in *; [done|]. by rewrite Hs.
Qed.

(** A substring of one of the joined parts is a substring of the join. *)
Lemma contains_join (needle sep : pystr) (parts : list pystr) (x : pystr) :
  x ∈ parts → contains needle x = true →
  contains needle (join sep parts) = true.
Proof.
  intros Hin Hx. induction parts as [|p rest IH]; [by inversion Hin|].
  apply elem_of_cons in Hin as [->|Hin].
  - destruct rest; simpl; [done|]. by apply contains_app_l.
  - specialize (IH Hin). destruct rest as [|q rest]; [by inversion Hin|].
    change (join sep (p :: q :: rest))
      with (p ++ sep ++ join sep (q :: rest)).
    by do 2 apply contains_app_r.
Qed.

End StringFacts.

(** ** Record reassembler *)
Section ReassemblerFacts.

Lemma skip_blank_app (blanks lines : list pystr) :
  Forall (λ l, is_blank l = true) blanks →
  skip_blank (blanks ++ lines) = skip_blank lines.
Proof.
  induction 1 as [|b bs Hb _ IH]; simpl; [done|]. by rewrite Hb.
Qed.

Lemma skip_blank_nil (lines : list pystr) :
  skip_blank lines = [] ↔ Forall (λ l, is_blank l = true) lines.
Proof.
  induction lines as [|l r IH]; simpl.
  - split; [constructor | done].
  - destruct (is_blank l) eqn:Hl.
    + rewrite IH. split; [by constructor | by inversion 1].
    + split; [done|]. inversion 1; congruence.
Qed.

Lemma flush_nonempty (st : list pystr * option pystr) :
  st.1 ≠ [] → flush st ≠ [].
Proof.
  destruct st as [rebuilt [c|]]; unfold flush; simpl; [|done].
  intros _. by destruct rebuilt.
Qed.

Lemma rebuild_step_keeps_header (d : N) (st : list pystr * option pystr)
    (raw : pystr) :
  st.1 ≠ [] → (rebuild_step d st raw).1 ≠ [].
Proof.
  destruct st as [rebuilt cur]. unfold rebuild_step. simpl. intros Hne.
  destruct (is_blank _); [done|].
  destruct (starts_record _ _), cur; simpl; try done.
  by destruct rebuilt.
Qed.

Lemma foldl_rebuild_keeps_header (d : N) (lines : list pystr)
    (st : list pystr * option pystr) :
  st.1 ≠ [] → (foldl (rebuild_step d) st lines).1 ≠ [].
Proof.
  revert st. induction lines as [|l r IH]; intros st Hst; simpl; [done|].
  apply IH. by apply rebuild_step_keeps_header.
Qed.

(** The reassembler returns the empty list exactly on input without any
    non-blank line. *)
Lemma rebuild_nil_iff (lines : list pystr) (d : N) :
  rebuild_records_by_id lines d = []
  ↔ Forall (λ l, is_blank l = true) lines.
Proof.
  unfold rebuild_records_by_id. rewrite <- skip_blank_nil.
  destruct (skip_blank lines) as [|h rest]; [done|].
  split; [|done]. intros Hf. exfalso.
  eapply flush_nonempty; [|exact Hf].
  by apply foldl_rebuild_keeps_header.
Qed.

(** On a record-start line the step closes the open record and opens a
    new one. *)
Lemma rebuild_step_start (d : N) (st : list pystr * option pystr)
    (raw : pystr) :
  is_blank raw = false →
  starts_record d (rstrip_char NL raw) = true →
  rebuild_step d st raw = (flush st, Some (rstrip_char NL raw)).
Proof.
  intros Hb Hs. destruct st as [rebuilt cur]. unfold rebuild_step.
  rewrite is_blank_rstrip_nl, Hb, Hs. by destruct cur.
Qed.

Lemma foldl_rebuild_well_formed (d : N) (rest : list pystr)
    (st : list pystr * option pystr) :
  Forall (λ l, is_blank l = false
               ∧ starts_record d (rstrip_char NL l) = true) rest →
  flush (foldl (rebuild_step d) st rest)
  = flush st ++ map (rstrip_char NL) rest.
Proof.
  intros Hall. revert st.
  induction Hall as [|l r [Hb Hs] _ IH]; intros st; simpl.
  - by rewrite app_nil_r.
  - rewrite IH, rebuild_step_start by done.
    unfold flush at 1. simpl. by rewrite <- app_assoc.
Qed.

End ReassemblerFacts.

Section ReassemblerClaims.

(** Each non-blank line either opens a record or leaves their number
    unchanged: the output holds the header and one record per line that
    starts a record. *)
Lemma foldl_rebuild_length (d : N) (rest : list pystr)
    (st : list pystr * option pystr) :
  length (flush (foldl (rebuild_step d) st rest))
  = (length (flush st)
     + length (filter (λ raw, is_blank (rstrip_char NL raw) = false
                              ∧ starts_record d (rstrip_char NL raw) = true)
                      rest))%nat.
Proof.
  revert st. induction rest as [|raw rest IH]; intros st; simpl; [lia|].
  rewrite IH. rewrite filter_cons.
  destruct st as [rebuilt cur]. unfold rebuild_step.
  destruct (is_blank (rstrip_char NL raw)) eqn:Hb.
  { rewrite decide_False by (intros [? _]; congruence). lia. }
  destruct (starts_record d (rstrip_char NL raw)) eqn:Hs.
  - rewrite decide_True by done.
    destruct cur; unfold flush; simpl; rewrite ?length_app; simpl; lia.
  - rewrite decide_False by (intros [_ ?]; congruence).
    destruct cur; unfold flush; simpl; rewrite ?length_app; simpl; lia.
Qed.

(** C5 (as amended): for a non-blank line after the header, the
    reassembler takes the text before the first delimiter, removes
    byte-order marks, surrounding white space and surrounding quotes, and
    tests whether the result starts with the literal prefix BE-; the test
    is a case-sensitive prefix test with no condition on what follows.
    A line that passes closes the open record and opens a new one with the
    line as its content; a line that fails is appended to the open record
    after one space, or discarded when no record is open. *)
Theorem record_start_is_literal_prefix (d : N)
    (rebuilt : list pystr) (current : option pystr) (raw : pystr) :
  is_blank (rstrip_char NL raw) = false →
  let line := rstrip_char NL raw in
  (starts_record d line = true
   ↔ ∃ tail, clean_id (hd [] (split_max d line 1)) = lit "BE-" ++ tail)
  ∧ (starts_record d line = true →
     rebuild_step d (rebuilt, current) raw
     = (rebuilt ++ option_list current, Some line))
  ∧ (starts_record d line = false →
     rebuild_step d (rebuilt, current) raw
     = (rebuilt, (λ c, c ++ lit " " ++ line) <$> current)).
Proof.
  intros Hb. cbv zeta. split; [|split].
  - unfold starts_record, first_token. apply startswith_prefix.
  - intros Hs. unfold rebuild_step. rewrite Hb, Hs.
    destruct current; simpl; [done|]. by rewrite app_nil_r.
  - intros Hs. unfold rebuild_step. rewrite Hb, Hs.
    by destruct current.
Qed.

(** C6 (as amended): on input whose lines after the header are all
    non-blank and all pass the reassembler's test for a record start (the
    cleaned first token starts with the literal, case-sensitive prefix
    BE-), reassembly returns the header followed by one record per line,
    each being that line without its trailing line feeds; when the lines
    carry no trailing line feed the output is the input, and reassembling
    the output returns it unchanged. *)
Theorem reassembly_idempotent_on_well_formed (d : N)
    (blanks : list pystr) (header : pystr) (rest : list pystr) :
  Forall (λ l, is_blank l = true) blanks →
  is_blank header = false →
  Forall (λ l, is_blank l = false
               ∧ starts_record d (rstrip_char NL l) = true) rest →
  rebuild_records_by_id (blanks ++ header :: rest) d
  = rstrip_char NL header :: map (rstrip_char NL) rest
  ∧ length (rebuild_records_by_id (blanks ++ header :: rest) d)
    = S (length rest)
  ∧ (Forall (λ l, rstrip_char NL l = l) (header :: rest) →
     rebuild_records_by_id (blanks ++ header :: rest) d = header :: rest)
  ∧ rebuild_records_by_id
      (rebuild_records_by_id (blanks ++ header :: rest) d) d
    = rebuild_records_by_id (blanks ++ header :: rest) d.
Proof.
  intros Hblanks Hheader Hrest.
  assert (Hmain : ∀ h r,
    is_blank h = false →
    Forall (λ l, is_blank l = false
                 ∧ starts_record d (rstrip_char NL l) = true) r →
    rebuild_records_by_id (h :: r) d
    = rstrip_char NL h :: map (rstrip_char NL) r).
  { intros h r Hh Hr. unfold rebuild_records_by_id. simpl. rewrite Hh.
    by rewrite foldl_rebuild_well_formed. }
  assert (Heq : rebuild_records_by_id (blanks ++ header :: rest) d
                = rstrip_char NL header :: map (rstrip_char NL) rest).
  { unfold rebuild_records_by_id. rewrite skip_blank_app by done.
    apply (Hmain header rest Hheader Hrest). }
  split; [exact Heq|]. split; [|split].
  - rewrite Heq. simpl. by rewrite length_map.
  - intros Hnl. rewrite Heq. inversion Hnl as [|? ? Hh Hr]; subst.
    rewrite Hh. f_equal. clear -Hr.
    induction Hr as [|l r Hl _ IH]; simpl; [done|]. by rewrite Hl, IH.
  - rewrite Heq. rewrite Hmain.
    + unfold rstrip_char. rewrite rstrip_by_idem. f_equal.
      rewrite map_map. apply map_ext. intros l. apply rstrip_by_idem.
    + by rewrite is_blank_rstrip_nl.
    + clear -Hrest. induction Hrest as [|l r [Hb Hs] _ IH]; simpl;
        constructor; [|done].
      split; [by rewrite is_blank_rstrip_nl|].
      unfold rstrip_char in *. by rewrite rstrip_by_idem.
Qed.

End ReassemblerClaims.

(** ** Dictionaries *)
Section DictFacts.
Context {V : Type}.

Lemma py_dict_snoc (pairs : list (list N * V)) (k : pystr) (v : V) :
  py_dict (pairs ++ [(k, v)]) = <[k := v]> (py_dict pairs).
Proof. unfold py_dict. by rewrite foldl_app. Qed.

(** A key maps to the value of its last pair. *)
Lemma py_dict_lookup_Some (pairs : list (list N * V)) (k : pystr) (v : V) :
  py_dict pairs !! k = Some v
  ↔ ∃ i, pairs !! i = Some (k, v)
         ∧ ∀ j v', (i < j)%nat → pairs !! j ≠ Some (k, v').
Proof.
  induction pairs as [|[k0 v0] l IH] using rev_ind.
  - unfold py_dict. simpl. rewrite lookup_empty. split; [done|].
    by intros (i & Hi & _).
  - rewrite py_dict_snoc. destruct (decide (k0 = k)) as [->|Hne].
    + rewrite lookup_insert_eq. split.
      * intros [= ->]. exists (length l). split.
        -- by rewrite lookup_app_r, Nat.sub_diag by lia.
        -- intros j v' Hj. rewrite lookup_ge_None_2; [done|].
           rewrite length_app. simpl. lia.
      * intros (i & Hi & Hlast).
        destruct (decide (i < length l)%nat) as [Hlt|Hge].
        -- exfalso. apply (Hlast (length l) v0 Hlt).
           by rewrite lookup_app_r, Nat.sub_diag by lia.
        -- assert (i = length l) as ->.
           { apply lookup_lt_Some in Hi. rewrite length_app in Hi.
             simpl in Hi. lia. }
           rewrite lookup_app_r, Nat.sub_diag in Hi by lia.
           simpl in Hi. congruence.
    + rewrite lookup_insert_ne by done. rewrite IH. split.
      * intros (i & Hi & Hlast). exists i. split.
        -- by rewrite lookup_app_l by (by eapply lookup_lt_Some).
        -- intros j v' Hj Hjl.
           destruct (decide (j < length l)%nat) as [Hlt|Hge].
           ++ rewrite lookup_app_l in Hjl by done. by eapply Hlast.
           ++ rewrite lookup_app_r in Hjl by lia.
              destruct (j - length l)%nat; simpl in Hjl; [congruence|done].
      * intros (i & Hi & Hlast).
        assert (i < length l)%nat as Hlt.
        { destruct (decide (i < length l)%nat) as [|Hge]; [done|].
          rewrite lookup_app_r in Hi by lia.
          destruct (i - length l)%nat; simpl in Hi; [congruence|done]. }
        rewrite lookup_app_l in Hi by done.
        exists i. split; [done|]. intros j v' Hj Hjl.
        apply (Hlast j v' Hj).
        by rewrite lookup_app_l by (by eapply lookup_lt_Some).
Qed.

Lemma py_dict_lookup_None (pairs : list (list N * V)) (k : pystr) :
  py_dict pairs !! k = None ↔ k ∉ pairs.*1.
Proof.
  induction pairs as [|[k0 v0] l IH] using rev_ind.
  - unfold py_dict. simpl. rewrite lookup_empty. split; [|done].
    intros _ Hin. by inversion Hin.
  - rewrite py_dict_snoc, fmap_app. simpl.
    rewrite lookup_insert_None, IH, elem_of_app, list_elem_of_singleton.
    split.
    + intros [Hnin Hne] [Hin|Heq]; [done | by subst].
    + intros Hn. split; [intros Hin; apply Hn; by left|].
      intros ->. apply Hn. by right.
Qed.

End DictFacts.

(** ** The aligned fast path *)
Section AlignedClaims.
Context `{UnicodeData}.

Lemma zip_lookup_Some (header_cols toks : list pystr) (i : nat)
    (k t : pystr) :
  zip header_cols toks !! i = Some (k, t)
  ↔ header_cols !! i = Some k ∧ toks !! i = Some t.
Proof.
  rewrite lookup_zip_with_Some. split.
  - by intros (x & y & [= -> ->] & Hx & Hy).
  - intros [Hx Hy]. by exists k, t.
Qed.

Lemma toks_nonempty (d : N) (record_line : pystr) :
  map strip (split d record_line) ≠ [].
Proof.
  pose proof (split_nonempty d record_line) as Hne.
  by destruct (split d record_line).
Qed.

(** The extractor on an aligned record. *)
Lemma extract_fields_aligned (d : N) (record_line : pystr)
    (header_cols : list pystr) :
  let toks := map strip (split d record_line) in
  startswith ID_PREFIX (clean_id (tok toks 0)) = true →
  length toks = length header_cols →
  extract_fields record_line header_cols d
  = Some {| fields := or_none <$> py_dict (zip header_cols toks);
            aligned := true |}.
Proof.
  intros toks Hid Hlen. unfold extract_fields. fold toks.
  destruct toks as [|t0 ts] eqn:Htoks; [by destruct (toks_nonempty d record_line)|].
  rewrite Hid. simpl negb. cbv iota.
  unfold len. rewrite Hlen, Z.eqb_refl. done.
Qed.

(** C1: when the cleaned first token starts with the record-id prefix
    and the record has as many tokens as the header has columns, the
    extractor returns, tagged aligned, the positional zip of header names
    and tokens: every column name maps to the token at its position (an
    empty token becoming the absent value), nothing else is in the map,
    and every value of the map is the token at the position of its
    column.  Should a name occur twice in the header, it maps to the token
    of its last occurrence, as in the dictionary built from the zip. *)
Theorem aligned_extraction_is_positional_zip (d : N) (record_line : pystr)
    (header_cols : list pystr) :
  let toks := map strip (split d record_line) in
  startswith ID_PREFIX (clean_id (tok toks 0)) = true →
  length toks = length header_cols →
  ∃ fm,
    extract_fields record_line header_cols d
    = Some {| fields := fm; aligned := true |}
    ∧ (∀ (i : nat) k t,
         header_cols !! i = Some k → toks !! i = Some t →
         (∀ j, (i < j)%nat → header_cols !! j ≠ Some k) →
         fm !! k = Some (if nonempty t then Some t else None))
    ∧ (NoDup header_cols →
       ∀ (i : nat) k t,
         header_cols !! i = Some k → toks !! i = Some t →
         fm !! k = Some (if nonempty t then Some t else None))
    ∧ (∀ k, k ∉ header_cols → fm !! k = None)
    ∧ (∀ k v, fm !! k = Some v →
         ∃ (i : nat) t, header_cols !! i = Some k ∧ toks !! i = Some t
                        ∧ v = if nonempty t then Some t else None).
Proof.
  intros toks Hid Hlen.
  exists (or_none <$> py_dict (zip header_cols toks)).
  split; [by apply extract_fields_aligned|].
  assert (Hpos : ∀ (i : nat) k t,
    header_cols !! i = Some k → toks !! i = Some t →
    (∀ j, (i < j)%nat → header_cols !! j ≠ Some k) →
    (or_none <$> py_dict (zip header_cols toks)) !! k
    = Some (if nonempty t then Some t else None)).
  { intros i k t Hk Ht Hlast. rewrite lookup_fmap.
    assert (py_dict (zip header_cols toks) !! k = Some t) as ->; [|done].
    apply py_dict_lookup_Some. exists i. split.
    - by apply zip_lookup_Some.
    - intros j v' Hj [Hjk _]%zip_lookup_Some. by apply (Hlast j). }
  split; [exact Hpos|]. split; [|split].
  - intros Hnd i k t Hk Ht. apply (Hpos i k t Hk Ht).
    intros j Hj Hjk. pose proof (NoDup_lookup _ _ _ _ Hnd Hk Hjk). lia.
  - intros k Hk. rewrite lookup_fmap.
    assert (py_dict (zip header_cols toks) !! k = None) as ->; [|done].
    apply py_dict_lookup_None. intros Hin. apply Hk.
    apply list_elem_of_fmap in Hin as ([k' t'] & -> & Hin).
    apply list_elem_of_lookup in Hin as [i Hi].
    apply zip_lookup_Some in Hi as [Hi _]. simpl.
    apply list_elem_of_lookup. by exists i.
  - intros k v. rewrite lookup_fmap.
    destruct (py_dict (zip header_cols toks) !! k) as [t|] eqn:Hd; [|done].
    simpl. intros [= <-].
    apply py_dict_lookup_Some in Hd as (i & Hi & _).
    apply zip_lookup_Some in Hi as [Hk Ht]. by exists i, t.
Qed.

End AlignedClaims.

(** ** Temporal normaliser *)
Section TemporalFacts.
Context `{Strptime}.

Lemma try_formats_None (s : pystr) (fmts : list pystr) :
  try_formats s fmts = None ↔ ∀ fmt, fmt ∈ fmts → strptime s fmt = None.
Proof.
  induction fmts as [|fmt rest IH]; simpl.
  - split; [|done]. intros _ fmt Hin. by inversion Hin.
  - destruct (strptime s fmt) as [d|] eqn:Hd.
    + split; [done|]. intros Hall.
      specialize (Hall fmt (list_elem_of_here _ _)). congruence.
    + rewrite IH. split.
      * intros Hall g [->|Hin]%elem_of_cons; [done|]. by apply Hall.
      * intros Hall g Hin. apply Hall. by right.
Qed.

(** The formats are tried in order and the first success wins. *)
Lemma try_formats_first (s : pystr) (pre post : list pystr) (fmt : pystr)
    (d : datetime) :
  (∀ g, g ∈ pre → strptime s g = None) →
  strptime s fmt = Some d →
  try_formats s (pre ++ fmt :: post) = Some d.
Proof.
  intros Hpre Hd. induction pre as [|g pre IH]; simpl.
  - by rewrite Hd.
  - rewrite (Hpre g) by left. apply IH. intros g' Hin. apply Hpre. by right.
Qed.

Lemma parse_dt_Raise (val : pystr) (e : exn) :
  parse_dt val = Raise e →
  e = ValueError (lit "Date/heure non reconnue: " ++ strip val).
Proof.
  unfold parse_dt. destruct (try_formats _ _); [done|]. by intros [= <-].
Qed.

End TemporalFacts.

(** ** Classifier *)
Section ClassifierFacts.
Context `{UnicodeData} `{Strptime}.

(** The loop body on a kept record, spelled out. *)
Lemma classify_Kept_inv (f : gmap (list N) (option (list N))) (al : bool)
    (year : Z) (al' : bool) (r : OutRecord) (a : option Anomaly) :
  classify f al year = Kept al' r a →
  ∃ end_dt_corrected shift_notes,
    let sp := parse_planning NOTE_START_ERR (f_get f K_DEBUT) in
    let ep := parse_planning NOTE_END_ERR (f_get f K_FIN) in
    let dp := duration_of sp.1 end_dt_corrected in
    let notes :=
      notes_before_filter sp.2 ep.2 sp.1 ep.1 (f_get f K_AGENTS)
      ++ shift_notes ++ dp.2 in
    al' = al
    ∧ keep_record sp.1 ep.1 (parse_created (f_get f K_CREE_LE)) year = true
    ∧ correct_end sp.1 ep.1 = Ok (end_dt_corrected, shift_notes)
    ∧ r = {| r_ID := f_get f K_ID;
             r_Description := f_get f K_DESCRIPTION;
             r_Categorie := f_get f K_CATEGORIE;
             r_Batiment_Equipement := f_get f K_BATIMENT;
             r_Adresse := f_get f K_ADRESSE;
             r_Date_Debut := dt_date <$> sp.1;
             r_Heure_Debut := dt_time <$> sp.1;
             r_Date_Fin := dt_date <$> end_dt_corrected;
             r_Heure_Fin := dt_time <$> end_dt_corrected;
             r_Consigne := f_get f K_CONSIGNE;
             r_Agents_Equipes := f_get f K_AGENTS;
             r_Duree := dp.1 |}
    ∧ a = if is_anomaly (join NOTE_SEP notes) then
            Some {| a_ID := f_get f K_ID;
                    a_Debut_raw := f_get f K_DEBUT;
                    a_Fin_raw := f_get f K_FIN;
                    a_Fin_corrigee := end_dt_corrected;
                    a_Duree_corrigee := dp.1;
                    a_Notes := join NOTE_SEP notes |}
          else None.
Proof.
  unfold classify.
  destruct (parse_planning NOTE_START_ERR _) as [start_dt start_notes].
  destruct (parse_planning NOTE_END_ERR _) as [end_dt end_notes].
  destruct (keep_record _ _ _ _) eqn:Hkeep; simpl negb; cbv iota; [|done].
  destruct (correct_end start_dt end_dt) as [[e' sh]|e] eqn:Hc; [|done].
  destruct (duration_of start_dt e') as [dur dnotes] eqn:Hd.
  intros [= <- <- <-]. exists e', sh. simpl. rewrite Hd. simpl.
  by repeat split.
Qed.

Lemma classify_Skipped_iff (f : gmap (list N) (option (list N))) (al : bool)
    (year : Z) :
  classify f al year = SkippedOtherYear al
  ↔ keep_record (parse_planning NOTE_START_ERR (f_get f K_DEBUT)).1
                (parse_planning NOTE_END_ERR (f_get f K_FIN)).1
                (parse_created (f_get f K_CREE_LE)) year = false.
Proof.
  unfold classify.
  destruct (parse_planning NOTE_START_ERR _) as [start_dt start_notes].
  destruct (parse_planning NOTE_END_ERR _) as [end_dt end_notes]. simpl.
  destruct (keep_record _ _ _ _); simpl; [|done].
  split; [|done].
  destruct (correct_end start_dt end_dt) as [[e' sh]|e]; [|done].
  by destruct (duration_of start_dt e').
Qed.

(** The only exception that leaves the loop body is the overflow of the
    12-hour correction. *)
Lemma classify_Crashed (f : gmap (list N) (option (list N))) (al : bool)
    (year : Z) (e : exn) :
  classify f al year = Crashed e → e = OverflowError.
Proof.
  unfold classify.
  destruct (parse_planning NOTE_START_ERR _) as [start_dt start_notes].
  destruct (parse_planning NOTE_END_ERR _) as [end_dt end_notes].
  destruct (keep_record _ _ _ _); simpl; [|done].
  destruct (correct_end start_dt end_dt) as [[e' sh]|e0] eqn:Hc.
  - by destruct (duration_of start_dt e').
  - intros [= <-]. unfold correct_end in Hc.
    destruct start_dt as [s|], end_dt as [e1|]; try done.
    destruct (dt_lt e1 s); [|done].
    destruct (dt_add e1 (hours 12)); [done|]. by injection Hc as <-.
Qed.

Lemma parse_planning_cases (label : pystr) (raw : option pystr) :
  (∃ d, parse_planning label raw = (Some d, []))
  ∨ parse_planning label raw = (None, [])
  ∨ (∃ s, raw = Some s ∧ is_empty raw = false
          ∧ parse_dt s
            = Raise (ValueError (lit "Date/heure non reconnue: " ++ strip s))
          ∧ parse_planning label raw
            = (None, [label ++ lit "Date/heure non reconnue: " ++ strip s])).
Proof.
  unfold parse_planning. destruct raw as [s|]; [|by right; left].
  destruct (is_empty (Some s)) eqn:He; [by right; left|].
  destruct (parse_dt s) as [d|e] eqn:Hp; [left; by exists d|].
  right; right. exists s. apply parse_dt_Raise in Hp as Hp'. subst e.
  by rewrite Hp.
Qed.

(** The records and anomalies of a run are those of the kept lines, in
    order. *)
Lemma main_loop_Ok (header_cols : list pystr) (year : Z)
    (lines : list pystr) (run0 run : Run) :
  main_loop header_cols year lines run0 = Ok run →
  records run = records run0 ++ omap (kept_record header_cols year) lines
  ∧ anomalies run
    = anomalies run0 ++ omap (kept_anomaly header_cols year) lines.
Proof.
  revert run0. induction lines as [|line rest IH]; intros run0; simpl.
  - intros [= <-]. by rewrite !app_nil_r.
  - unfold kept_record at 1, kept_anomaly at 1.
    destruct (process_record line header_cols year) as [|al|al r a|e];
      simpl; try done.
    + apply IH.
    + intros Hm. apply IH in Hm as [-> ->]. by destruct al.
    + intros Hm. apply IH in Hm as [-> ->]. simpl.
      destruct al; simpl; rewrite <- !app_assoc; by destruct a.
Qed.

Lemma main_loop_Raise (header_cols : list pystr) (year : Z)
    (lines : list pystr) (run0 : Run) (e : exn) :
  main_loop header_cols year lines run0 = Raise e → e = OverflowError.
Proof.
  revert run0. induction lines as [|line rest IH]; intros run0; simpl;
    [done|].
  destruct (process_record line header_cols year) as [|al|al r a|e0] eqn:Hp;
    simpl; try apply IH.
  intros [= <-]. unfold process_record in Hp.
  destruct (extract_fields _ _ _); [|done]. by eapply classify_Crashed.
Qed.

End ClassifierFacts.

(** ** Calendar arithmetic *)
Section CalendarFacts.
Local Open Scope Z_scope.

Lemma month_of_day_ok_all (leap : bool) :
  forallb (λ k, month_of_day_ok leap (Z.of_nat k)) (seq 0 366) = true.
Proof. destruct leap; vm_compute; reflexivity. Qed.

Lemma month_of_day_spec (leap : bool) (n : Z) :
  0 <= n < 366 →
  let '(m, p) := month_of_day leap n in
  1 <= m <= 12
  ∧ nth (Z.to_nat m) DAYS_BEFORE_MONTH 0
    + (if (2 <? m) && leap then 1 else 0) = p.
Proof.
  intros Hn. pose proof (month_of_day_ok_all leap) as Hall.
  rewrite forallb_forall in Hall.
  specialize (Hall (Z.to_nat n)).
  rewrite Z2Nat.id in Hall by lia.
  assert (Hin : In (Z.to_nat n) (seq 0 366)) by (apply in_seq; lia).
  specialize (Hall Hin). unfold month_of_day_ok in Hall.
  destruct (month_of_day leap n) as [m p].
  apply andb_true_iff in Hall as [Hall Hp].
  apply andb_true_iff in Hall as [H1 H2].
  lia.
Qed.

Lemma is_leap_true (y : Z) :
  is_leap y = true ↔ y mod 4 = 0 ∧ (y mod 100 ≠ 0 ∨ y mod 400 = 0).
Proof.
  unfold is_leap.
  rewrite andb_true_iff, orb_true_iff, negb_true_iff, !Z.eqb_eq, Z.eqb_neq.
  done.
Qed.

Lemma days_before_year_decompose (a b c d : Z) :
  0 <= b <= 3 → 0 <= c <= 24 → 0 <= d <= 3 →
  days_before_year (400 * a + 100 * b + 4 * c + d + 1)
  = 146097 * a + 36524 * b + 1461 * c + 365 * d.
Proof.
  intros Hb Hc Hd. unfold days_before_year.
  replace (400 * a + 100 * b + 4 * c + d + 1 - 1)
    with (400 * a + 100 * b + 4 * c + d) by lia.
  set (y := 400 * a + 100 * b + 4 * c + d).
  assert (y / 4 = 100 * a + 25 * b + c) as ->.
  { symmetry. apply (Z.div_unique _ _ _ d); unfold y; lia. }
  assert (y / 100 = 4 * a + b) as ->.
  { symmetry. apply (Z.div_unique _ _ _ (4 * c + d)); unfold y; lia. }
  assert (y / 400 = a) as ->.
  { symmetry. apply (Z.div_unique _ _ _ (100 * b + 4 * c + d)); unfold y; lia. }
  unfold y. lia.
Qed.

Lemma is_leap_decompose (a b c d : Z) :
  0 <= b <= 3 → 0 <= c <= 24 → 0 <= d <= 3 →
  is_leap (400 * a + 100 * b + 4 * c + d + 1)
  = (d =? 3) && (negb (c =? 24) || (b =? 3)).
Proof.
  intros Hb Hc Hd. unfold is_leap.
  set (y := 400 * a + 100 * b + 4 * c + d + 1).
  assert (H4 : y mod 4 = (d + 1) mod 4).
  { unfold y. replace (400 * a + 100 * b + 4 * c + d + 1)
      with ((d + 1) + (100 * a + 25 * b + c) * 4) by lia.
    apply Z_mod_plus_full. }
  assert (H100 : y mod 100 = (4 * c + d + 1) mod 100).
  { unfold y. replace (400 * a + 100 * b + 4 * c + d + 1)
      with ((4 * c + d + 1) + (4 * a + b) * 100) by lia.
    apply Z_mod_plus_full. }
  assert (H400 : y mod 400 = (100 * b + 4 * c + d + 1) mod 400).
  { unfold y. replace (400 * a + 100 * b + 4 * c + d + 1)
      with ((100 * b + 4 * c + d + 1) + a * 400) by lia.
    apply Z_mod_plus_full. }
  rewrite H4, H100, H400. clear H4 H100 H400 y.
  assert (d = 0 ∨ d = 1 ∨ d = 2 ∨ d = 3) as Hd' by lia.
  destruct Hd' as [-> | [-> | [-> | ->]]]; try reflexivity.
  change ((3 + 1) mod 4 =? 0) with true. simpl andb.
  destruct (c =? 24) eqn:Ec.
  - apply Z.eqb_eq in Ec as ->. change ((4 * 24 + 3 + 1) mod 100 =? 0) with true.
    simpl.
    assert (b = 0 ∨ b = 1 ∨ b = 2 ∨ b = 3) as Hb' by lia.
    by destruct Hb' as [-> | [-> | [-> | ->]]].
  - apply Z.eqb_neq in Ec. simpl.
    rewrite Z.mod_small by lia.
    assert ((4 * c + 3 + 1 =? 0) = false) as -> by lia. done.
Qed.

Lemma toordinal_ord2ymd (n : Z) : 1 <= n → toordinal (ord2ymd n) = n.
Proof.
  intros Hn. unfold ord2ymd, toordinal.
  set (n0 := n - 1).
  set (n400 := n0 / DI400Y). set (r400 := n0 mod DI400Y).
  set (n100 := r400 / DI100Y). set (r100 := r400 mod DI100Y).
  set (n4 := r100 / DI4Y). set (r4 := r100 mod DI4Y).
  set (n1 := r4 / 365). set (r1 := r4 mod 365).
  assert (H400 : n0 = DI400Y * n400 + r400 ∧ 0 <= r400 < DI400Y).
  { unfold n400, r400, DI400Y. split; [apply Z.div_mod; lia | apply Z.mod_pos_bound; lia]. }
  assert (H100 : r400 = DI100Y * n100 + r100 ∧ 0 <= r100 < DI100Y).
  { unfold n100, r100, DI100Y. split; [apply Z.div_mod; lia | apply Z.mod_pos_bound; lia]. }
  assert (H4 : r100 = DI4Y * n4 + r4 ∧ 0 <= r4 < DI4Y).
  { unfold n4, r4, DI4Y. split; [apply Z.div_mod; lia | apply Z.mod_pos_bound; lia]. }
  assert (H1 : r4 = 365 * n1 + r1 ∧ 0 <= r1 < 365).
  { unfold n1, r1. split; [apply Z.div_mod; lia | apply Z.mod_pos_bound; lia]. }
  assert (Hn0 : n = n0 + 1) by (unfold n0; lia).
  clearbody n0 n400 r400 n100 r100 n4 r4 n1 r1.
  unfold DI400Y, DI100Y, DI4Y in *.
  assert (Hb100 : 0 <= n100 <= 4) by lia.
  assert (Hb4 : 0 <= n4 <= 24) by lia.
  assert (Hb1 : 0 <= n1 <= 4) by lia.
  destruct ((n1 =? 4) || (n100 =? 4)) eqn:Hsp.
  - simpl d_year. simpl d_month. simpl d_day.
    assert (∃ b c, 0 <= b <= 3 ∧ 0 <= c <= 24
              ∧ n400 * 400 + 1 + n100 * 100 + n4 * 4 + n1 - 1
                = 400 * n400 + 100 * b + 4 * c + 3 + 1
              ∧ n = 146097 * n400 + 36524 * b + 1461 * c + 365 * 3 + 366)
      as (b & c & Hb & Hc & -> & ->).
    { apply orb_true_iff in Hsp as [Hsp|Hsp]; apply Z.eqb_eq in Hsp.
      - exists n100, n4. lia.
      - exists 3, 24. lia. }
    unfold ymd2ord, days_before_month.
    rewrite days_before_year_decompose, is_leap_decompose by lia.
    rewrite Z.eqb_refl. simpl andb.
    change (nth (Z.to_nat 12) DAYS_BEFORE_MONTH 0) with 334.
    change (2 <? 12) with true. simpl andb.
    destruct (negb (c =? 24) || (b =? 3)) eqn:Hl; [lia|].
    exfalso. apply orb_false_iff in Hl as [Hl1 Hl2].
    apply negb_false_iff, Z.eqb_eq in Hl1. apply Z.eqb_neq in Hl2.
    apply orb_true_iff in Hsp as [Hsp|Hsp]; apply Z.eqb_eq in Hsp; lia.
  - apply orb_false_iff in Hsp as [Hs1 Hs100].
    apply Z.eqb_neq in Hs1, Hs100.
    set (leapyear := (n1 =? 3) && (negb (n4 =? 24) || (n100 =? 3))).
    replace (n400 * 400 + 1 + n100 * 100 + n4 * 4 + n1)
      with (400 * n400 + 100 * n100 + 4 * n4 + n1 + 1) by lia.
    pose proof (is_leap_decompose n400 n100 n4 n1
                  ltac:(lia) ltac:(lia) ltac:(lia)) as Hleap.
    fold leapyear in Hleap.
    pose proof (month_of_day_spec leapyear r1 ltac:(lia)) as Hmd.
    destruct (month_of_day leapyear r1) as [m p]. destruct Hmd as [Hm Hp].
    simpl d_year. simpl d_month. simpl d_day.
    unfold ymd2ord, days_before_month.
    rewrite days_before_year_decompose, Hleap, Hp by lia.
    lia.
Qed.

Lemma time_of_seconds (secs : Z) :
  0 <= secs < 86400 →
  time_seconds {| t_hour := secs / 3600;
                  t_minute := (secs mod 3600) / 60;
                  t_second := secs mod 60 |} = secs.
Proof.
  intros Hs. unfold time_seconds. simpl.
  Z.div_mod_to_equations. lia.
Qed.

(** Adding a [timedelta] moves a [datetime] by exactly that many seconds. *)
Lemma dt_add_seconds (d d' : datetime) (td : timedelta) :
  dt_add d td = Some d' → dt_seconds d' = dt_seconds d + td.
Proof.
  unfold dt_add.
  destruct ((0 <? _) && _) eqn:Hr; [|done].
  intros [= <-]. apply andb_true_iff in Hr as [Hlo Hhi].
  apply Z.ltb_lt in Hlo.
  unfold dt_seconds at 1. simpl dt_date. simpl dt_time.
  rewrite toordinal_ord2ymd by lia.
  rewrite time_of_seconds by (apply Z.mod_pos_bound; lia).
  pose proof (Z.div_mod (dt_seconds d + td) 86400 ltac:(lia)). lia.
Qed.

End CalendarFacts.

(** ** Notes and the anomaly test *)
Section NoteFacts.
Context `{UnicodeData} `{Strptime}.

Lemma is_anomaly_join (notes : list pystr) (n : pystr) :
  n ∈ notes → is_anomaly n = true → is_anomaly (join NOTE_SEP notes) = true.
Proof.
  intros Hin. unfold is_anomaly. rewrite !orb_true_iff.
  intros [[[Hc|Hc]|Hc]|Hc];
    [left; left; left | left; left; right | left; right | right];
    by eapply contains_join.
Qed.

Lemma is_anomaly_start_err (x : pystr) :
  is_anomaly (NOTE_START_ERR ++ x) = true.
Proof.
  unfold is_anomaly. rewrite (contains_app_l _ NOTE_START_ERR x); [done|].
  by vm_compute.
Qed.

Lemma is_anomaly_end_err (x : pystr) :
  is_anomaly (NOTE_END_ERR ++ x) = true.
Proof.
  unfold is_anomaly. rewrite (contains_app_l _ NOTE_END_ERR x); [done|].
  by vm_compute.
Qed.

Lemma parse_planning_Some (label : pystr) (raw : option pystr)
    (d : datetime) :
  (parse_planning label raw).1 = Some d →
  parse_planning label raw = (Some d, []).
Proof.
  destruct (parse_planning_cases label raw)
    as [[d' ->]|[->|(s & _ & _ & _ & ->)]]; simpl; [|done..].
  by intros [= ->].
Qed.

(** A note of the parse stage is a parse-error note, and comes with an
    absent value. *)
Lemma parse_planning_notes (label : pystr) (raw : option pystr) :
  (parse_planning label raw).2 = []
  ∨ (parse_planning label raw).1 = None
    ∧ ∃ s, raw = Some s ∧ is_empty raw = false
           ∧ (∃ e, parse_dt s = Raise e)
           ∧ (parse_planning label raw).2
             = [label ++ lit "Date/heure non reconnue: " ++ strip s].
Proof.
  destruct (parse_planning_cases label raw)
    as [[d' ->]|[->|(s & Hr & He & Hp & ->)]]; simpl; [by left..|].
  right. split; [done|]. exists s. repeat split; try done. by eexists.
Qed.

Lemma correct_end_Ok (start_dt end_dt end_dt_corrected : option datetime)
    (shift_notes : list pystr) :
  correct_end start_dt end_dt = Ok (end_dt_corrected, shift_notes) →
  (∃ s e e', start_dt = Some s ∧ end_dt = Some e ∧ dt_lt e s = true
             ∧ dt_add e (hours 12) = Some e'
             ∧ end_dt_corrected = Some e' ∧ shift_notes = [NOTE_SHIFTED])
  ∨ (end_dt_corrected = end_dt ∧ shift_notes = []
     ∧ ∀ s e, start_dt = Some s → end_dt = Some e → dt_lt e s = false).
Proof.
  unfold correct_end. destruct start_dt as [s|], end_dt as [e|];
    try (intros [= <- <-]; right; by repeat split).
  destruct (dt_lt e s) eqn:Hlt.
  - destruct (dt_add e (hours 12)) as [e'|] eqn:Ha; [|done].
    intros [= <- <-]. left. by exists s, e, e'.
  - intros [= <- <-]. right. repeat split; try done.
    by intros ? ? [= <-] [= <-].
Qed.

Lemma duration_of_notes (start_dt end_dt_corrected : option datetime) :
  (duration_of start_dt end_dt_corrected).2 ≠ []
  ↔ ∃ d, (duration_of start_dt end_dt_corrected).1 = Some d ∧ (d < 0)%Z.
Proof.
  unfold duration_of, total_seconds.
  destruct start_dt as [s|], end_dt_corrected as [e|]; simpl;
    try (split; [done | by intros (d & ? & _)]).
  destruct (Z.ltb_spec (dt_sub e s) 0); split; try done.
  - intros _. by eexists.
  - intros (d & [= <-] & Hd). lia.
Qed.

End NoteFacts.

(** ** The year filter, the correction and the parse errors *)
Section TemporalClaims.
Context `{UnicodeData} `{Strptime}.

(** C3 (as amended): a record passes the year filter if and only if, when
    the start or the end parsed, the target year is the year of the
    parsed start or of the parsed end as read (before the 12-hour
    correction, which is applied to kept records only) and, when neither
    parsed, the created date parsed and the target year is its year. *)
Theorem year_filter_uses_parsed_start_or_end
    (f : gmap (list N) (option (list N))) (al : bool) (year : Z) :
  let start_dt := (parse_planning NOTE_START_ERR (f_get f K_DEBUT)).1 in
  let end_dt := (parse_planning NOTE_END_ERR (f_get f K_FIN)).1 in
  let created_date := parse_created (f_get f K_CREE_LE) in
  classify f al year ≠ SkippedOtherYear al
  ↔ ((start_dt ≠ None ∨ end_dt ≠ None)
     ∧ ((∃ s, start_dt = Some s ∧ dt_year s = year)
        ∨ (∃ e, end_dt = Some e ∧ dt_year e = year)))
    ∨ (start_dt = None ∧ end_dt = None
       ∧ ∃ c, created_date = Some c ∧ d_year c = year).
Proof.
  intros start_dt end_dt created_date.
  rewrite classify_Skipped_iff. fold start_dt end_dt created_date.
  rewrite not_false_iff_true. unfold keep_record, in_year.
  destruct start_dt as [s|], end_dt as [e|]; simpl.
  - rewrite orb_true_iff, !Z.eqb_eq. split.
    + intros [Hy|Hy]; left; (split; [by left|]); [left|right]; by eexists.
    + intros [[_ [(s' & [= <-] & Hy)|(e' & [= <-] & Hy)]]|(? & _)];
        [by left | by right | done].
  - rewrite orb_false_r, Z.eqb_eq. split.
    + intros Hy. left. split; [by left|]. left. by eexists.
    + intros [[_ [(s' & [= <-] & Hy)|(e' & ? & _)]]|(? & _)]; done.
  - rewrite Z.eqb_eq. split.
    + intros Hy. left. split; [by right|]. right. by eexists.
    + intros [[_ [(s' & ? & _)|(e' & [= <-] & Hy)]]|(_ & ? & _)]; done.
  - destruct created_date as [c|]; split.
    + intros Hy%Z.eqb_eq. right. repeat split; try done. by eexists.
    + intros [[[?|?] _]|(_ & _ & c' & [= <-] & Hy)]; try done.
      by apply Z.eqb_eq.
    + done.
    + intros [[[?|?] _]|(_ & _ & c' & ? & _)]; done.
Qed.


(** C7: a start or end string that is not empty and that every accepted
    date-time format rejects makes [parse_dt] raise the error carrying
    the (stripped) offending string; the loop body catches it and appends
    the parse-error note, so that no such error leaves the loop body and a
    kept record is reported as an anomaly whose notes hold it; the
    date-only parser returns the absent value when every date format
    rejects its input. *)
Theorem unparseable_planning_is_noted
    (f : gmap (list N) (option (list N))) (al : bool) (year : Z)
    (label key s created : pystr) :
  (label = NOTE_START_ERR ∧ key = K_DEBUT
   ∨ label = NOTE_END_ERR ∧ key = K_FIN) →
  f_get f key = Some s →
  is_empty (Some s) = false →
  (∀ fmt, fmt ∈ DT_FORMATS → strptime (strip s) fmt = None) →
  (∀ fmt, fmt ∈ DATE_ONLY_FORMATS → strptime (strip created) fmt = None) →
  let msg := lit "Date/heure non reconnue: " ++ strip s in
  parse_dt s = Raise (ValueError msg)
  ∧ parse_planning label (f_get f key) = (None, [label ++ msg])
  ∧ (∀ m, classify f al year ≠ Crashed (ValueError m))
  ∧ (∀ r a, classify f al year = Kept al r a →
       ∃ an, a = Some an ∧ contains (label ++ msg) (a_Notes an) = true)
  ∧ parse_date_only created = None.
Proof.
  intros Hkey Hraw Hne Hfmts Hdates msg.
  assert (Hp : parse_dt s = Raise (ValueError msg)).
  { unfold parse_dt. by rewrite (proj2 (try_formats_None _ _) Hfmts). }
  assert (Hpp : parse_planning label (f_get f key) = (None, [label ++ msg])).
  { rewrite Hraw. unfold parse_planning. by rewrite Hne, Hp. }
  split; [done|]. split; [done|]. split; [|split].
  - intros m Hc. by apply classify_Crashed in Hc.
  - intros r a Hk.
    apply classify_Kept_inv in Hk as (ec & sh & Hk). cbv zeta in Hk.
    destruct Hk as (_ & _ & _ & _ & ->).
    set (notes := _ ++ sh ++ _).
    assert (Hin : label ++ msg ∈ notes).
    { unfold notes, notes_before_filter.
      destruct Hkey as [[-> ->]|[-> ->]]; rewrite Hpp; simpl.
      - by left.
      - apply elem_of_app. left. apply elem_of_app. right. by left. }
    assert (Han : is_anomaly (join NOTE_SEP notes) = true).
    { apply (is_anomaly_join notes _ Hin).
      destruct Hkey as [[-> _]|[-> _]];
        [apply is_anomaly_start_err | apply is_anomaly_end_err]. }
    rewrite Han. eexists. split; [done|]. simpl.
    apply (contains_join _ _ notes _ Hin).
    apply contains_refl.
  - unfold parse_date_only.
    by rewrite (proj2 (try_formats_None _ _) Hdates).
Qed.

End TemporalClaims.

(** ** Anomaly classification *)
Section AnomalyClaims.
Context `{UnicodeData} `{Strptime}.

Lemma is_anomaly_join_iff (notes : list pystr) :
  Forall (λ n, is_anomaly n = true) notes →
  is_anomaly (join NOTE_SEP notes) = true ↔ notes ≠ [].
Proof.
  intros Hall. split.
  - intros Ha ->. by vm_compute in Ha.
  - destruct notes as [|n rest]; [done|]. intros _.
    apply (is_anomaly_join _ n); [by left|]. by inversion Hall.
Qed.

Lemma parse_planning_notes_anomaly (label : pystr) (raw : option pystr) :
  label = NOTE_START_ERR ∨ label = NOTE_END_ERR →
  Forall (λ n, is_anomaly n = true) (parse_planning label raw).2.
Proof.
  intros Hl.
  destruct (parse_planning_notes label raw) as [->|(_ & s & _ & _ & _ & ->)];
    [constructor|].
  constructor; [|constructor].
  destruct Hl as [-> | ->];
    [apply is_anomaly_start_err | apply is_anomaly_end_err].
Qed.

(** A raised parse error leaves the parsed value absent. *)
Lemma parse_planning_failed (label : pystr) (raw : option pystr)
    (s : pystr) (e : exn) :
  raw = Some s → is_empty (Some s) = false → parse_dt s = Raise e →
  (parse_planning label raw).1 = None
  ∧ ∃ n, n ∈ (parse_planning label raw).2 ∧ startswith label n = true.
Proof.
  intros -> He Hp. unfold parse_planning. rewrite He, Hp. simpl.
  split; [done|]. eexists. split; [by left|]. apply startswith_app.
Qed.

(** The notes of a kept record and what each of them records. *)
Lemma classify_notes (f : gmap (list N) (option (list N))) (al : bool)
    (year : Z) (r : OutRecord) (a : option Anomaly) :
  classify f al year = Kept al r a →
  let sp := parse_planning NOTE_START_ERR (f_get f K_DEBUT) in
  let ep := parse_planning NOTE_END_ERR (f_get f K_FIN) in
  ∃ shift_notes duration_notes,
    let notes :=
      (sp.2 ++ ep.2
       ++ (if sp.1 is None then [NOTE_START_MISSING] else [])
       ++ (if ep.1 is None then [NOTE_END_MISSING] else [])
       ++ (if is_empty (f_get f K_AGENTS) then [NOTE_AGENTS_MISSING] else []))
      ++ shift_notes ++ duration_notes in
    Forall (λ n, is_anomaly n = true) notes
    ∧ (shift_notes = [] ∨ shift_notes = [NOTE_SHIFTED])
    ∧ (shift_notes ≠ []
       ↔ ∃ s e, sp.1 = Some s ∧ ep.1 = Some e ∧ dt_lt e s = true)
    ∧ (duration_notes = [] ∨ duration_notes = [NOTE_NEGATIVE])
    ∧ (duration_notes ≠ [] ↔ ∃ d, r_Duree r = Some d ∧ (d < 0)%Z)
    ∧ r_ID r = f_get f K_ID
    ∧ a = if is_anomaly (join NOTE_SEP notes) then
            Some {| a_ID := f_get f K_ID;
                    a_Debut_raw := f_get f K_DEBUT;
                    a_Fin_raw := f_get f K_FIN;
                    a_Fin_corrigee :=
                      match shift_notes, ep.1 with
                      | [], e => e
                      | _ :: _, Some e => dt_add e (hours 12)
                      | _ :: _, None => None
                      end;
                    a_Duree_corrigee := r_Duree r;
                    a_Notes := join NOTE_SEP notes |}
          else None.
Proof.
  intros Hk sp ep.
  apply classify_Kept_inv in Hk as (ec & sh & Hk). cbv zeta in Hk.
  fold sp ep in Hk. destruct Hk as (_ & _ & Hc & -> & ->).
  exists sh, (duration_of sp.1 ec).2. cbv zeta. cbn [r_Duree r_ID].
  assert (Hdn : (duration_of sp.1 ec).2 = []
                ∨ (duration_of sp.1 ec).2 = [NOTE_NEGATIVE]).
  { unfold duration_of. destruct sp.1, ec; simpl; try by left.
    destruct (_ <? _)%Z; [by right | by left]. }
  apply correct_end_Ok in Hc as Hc'.
  assert (Hsh : sh = [] ∨ sh = [NOTE_SHIFTED]).
  { destruct Hc' as [(? & ? & ? & _ & _ & _ & _ & _ & ->)|(_ & -> & _)];
      [by right | by left]. }
  split; [|split; [exact Hsh|split; [|split; [exact Hdn|split;
    [|split; [reflexivity|]]]]]].
  - repeat apply Forall_app_2.
    + by apply parse_planning_notes_anomaly; left.
    + by apply parse_planning_notes_anomaly; right.
    + destruct sp.1; constructor; [by vm_compute | constructor].
    + destruct ep.1; constructor; [by vm_compute | constructor].
    + destruct (is_empty _); constructor; [by vm_compute | constructor].
    + destruct Hsh as [-> | ->]; constructor; [by vm_compute | constructor].
    + destruct Hdn as [-> | ->]; constructor; [by vm_compute | constructor].
  - destruct Hc' as [(s & e & e' & Hs & He & Hlt & _ & _ & ->)
                    |(_ & -> & Hno)].
    + split; [|done]. intros _. by exists s, e.
    + split; [done|]. intros (s & e & Hs & He & Hlt).
      by rewrite (Hno s e Hs He) in Hlt.
  - apply duration_of_notes.
  - unfold notes_before_filter.
    destruct (is_anomaly _); [|done]. do 2 f_equal.
    destruct Hc' as [(s & e & e' & _ & -> & _ & -> & -> & ->)|(-> & -> & _)];
      done.
Qed.

(** C8: a kept record is put in the anomaly set if and only if its start
    or its end failed to parse, its start or its end is absent, its
    agents/teams field is absent, the 12-hour correction was applied, or
    its corrected duration is negative; the record then gets one entry,
    whose notes are the notes of all its triggers joined by the
    separator, and whose ID is the ID of the record.  In a run, every
    anomaly carries the ID of an emitted record, and there are no more
    anomalies than records. *)
Theorem anomaly_iff_trigger_one_entry :
  (∀ (f : gmap (list N) (option (list N))) (al : bool) (year : Z)
     (r : OutRecord) (a : option Anomaly),
     classify f al year = Kept al r a →
     let sp := parse_planning NOTE_START_ERR (f_get f K_DEBUT) in
     let ep := parse_planning NOTE_END_ERR (f_get f K_FIN) in
     let failed key :=
       ∃ s e, f_get f key = Some s ∧ is_empty (Some s) = false
              ∧ parse_dt s = Raise e in
     let agents_absent := is_empty (f_get f K_AGENTS) = true in
     let shifted :=
       ∃ s e, sp.1 = Some s ∧ ep.1 = Some e ∧ dt_lt e s = true in
     let negative := ∃ d, r_Duree r = Some d ∧ (d < 0)%Z in
     (is_Some a
      ↔ failed K_DEBUT ∨ failed K_FIN ∨ sp.1 = None ∨ ep.1 = None
        ∨ agents_absent ∨ shifted ∨ negative)
     ∧ ∃ notes,
         (∀ an, a = Some an →
            a_Notes an = join NOTE_SEP notes ∧ a_ID an = r_ID r)
         ∧ (failed K_DEBUT →
            ∃ n, n ∈ notes ∧ startswith NOTE_START_ERR n = true)
         ∧ (failed K_FIN →
            ∃ n, n ∈ notes ∧ startswith NOTE_END_ERR n = true)
         ∧ (sp.1 = None → NOTE_START_MISSING ∈ notes)
         ∧ (ep.1 = None → NOTE_END_MISSING ∈ notes)
         ∧ (agents_absent → NOTE_AGENTS_MISSING ∈ notes)
         ∧ (shifted → NOTE_SHIFTED ∈ notes)
         ∧ (negative → NOTE_NEGATIVE ∈ notes))
  ∧ (∀ (lines : list pystr) (year : Z) (run : Run),
       main lines year = Ok run →
       (∀ an, an ∈ anomalies run →
          ∃ r, r ∈ records run ∧ a_ID an = r_ID r)
       ∧ (length (anomalies run) ≤ length (records run))%nat).
Proof.
  split.
  - intros f al year r a Hk sp ep failed agents_absent shifted negative.
    destruct (classify_notes f al year r a Hk)
      as (sh & dn & Hall & Hsh & Hshifted & Hdn & Hneg & Hid & Ha).
    fold sp ep in Hall, Hshifted, Ha. cbv zeta in Hall, Ha.
    set (notes := (sp.2 ++ ep.2 ++ _ ++ _ ++ _) ++ sh ++ dn) in *.
    assert (Hfs : failed K_DEBUT →
      sp.1 = None ∧ ∃ n, n ∈ sp.2 ∧ startswith NOTE_START_ERR n = true).
    { intros (s & e & Hr & He & Hp). by eapply parse_planning_failed. }
    assert (Hfe : failed K_FIN →
      ep.1 = None ∧ ∃ n, n ∈ ep.2 ∧ startswith NOTE_END_ERR n = true).
    { intros (s & e & Hr & He & Hp). by eapply parse_planning_failed. }
    assert (Hsm : sp.1 = None → NOTE_START_MISSING ∈ notes).
    { intros Hn. unfold notes. rewrite Hn.
      apply elem_of_app; left. do 2 (apply elem_of_app; right).
      apply elem_of_app; left. by left. }
    assert (Hem : ep.1 = None → NOTE_END_MISSING ∈ notes).
    { intros Hn. unfold notes. rewrite Hn.
      apply elem_of_app; left. do 3 (apply elem_of_app; right).
      apply elem_of_app; left. by left. }
    assert (Ham : agents_absent → NOTE_AGENTS_MISSING ∈ notes).
    { intros Hn. unfold notes. unfold agents_absent in Hn. rewrite Hn.
      apply elem_of_app; left. do 4 (apply elem_of_app; right). by left. }
    assert (Hshm : shifted → NOTE_SHIFTED ∈ notes).
    { intros Hn. apply Hshifted in Hn. unfold notes.
      destruct Hsh as [-> | ->]; [done|].
      apply elem_of_app; right. apply elem_of_app; left. by left. }
    assert (Hnm : negative → NOTE_NEGATIVE ∈ notes).
    { intros Hn. apply Hneg in Hn. unfold notes.
      destruct Hdn as [-> | ->]; [done|].
      do 2 (apply elem_of_app; right). by left. }
    split.
    + assert (is_Some a ↔ notes ≠ []) as ->.
      { rewrite <- (is_anomaly_join_iff notes Hall). rewrite Ha.
        destruct (is_anomaly _); split; try done. }
      split.
      * intros Hne.
        destruct sp.1 eqn:Hs1; [|by right; right; left].
        destruct ep.1 eqn:He1; [|by right; right; right; left].
        destruct (is_empty (f_get f K_AGENTS)) eqn:Hag;
          [by do 4 right; left|].
        destruct (parse_planning_notes NOTE_START_ERR (f_get f K_DEBUT))
          as [Hs2|[Hs2 _]]; [|fold sp in Hs2; congruence].
        destruct (parse_planning_notes NOTE_END_ERR (f_get f K_FIN))
          as [He2|[He2 _]]; [|fold ep in He2; congruence].
        fold sp in Hs2. fold ep in He2.
        do 5 right.
        destruct (decide (sh = [])) as [->|Hsh'];
          [|left; by apply Hshifted].
        right. apply Hneg. intros ->. apply Hne.
        unfold notes. by rewrite Hs2, He2.
      * intros [Hf|[Hf|[Hf|[Hf|[Hf|[Hf|Hf]]]]]] Hnil.
        -- apply Hfs in Hf as [Hf _]. apply Hsm in Hf.
           rewrite Hnil in Hf. by inversion Hf.
        -- apply Hfe in Hf as [Hf _]. apply Hem in Hf.
           rewrite Hnil in Hf. by inversion Hf.
        -- apply Hsm in Hf. rewrite Hnil in Hf. by inversion Hf.
        -- apply Hem in Hf. rewrite Hnil in Hf. by inversion Hf.
        -- apply Ham in Hf. rewrite Hnil in Hf. by inversion Hf.
        -- apply Hshm in Hf. rewrite Hnil in Hf. by inversion Hf.
        -- apply Hnm in Hf. rewrite Hnil in Hf. by inversion Hf.
    + exists notes. split; [|repeat split; try done].
      * intros an Han. rewrite Ha in Han. destruct (is_anomaly _); [|done].
        injection Han as <-. simpl. by rewrite Hid.
      * intros Hf. apply Hfs in Hf as (_ & n & Hn & Hp). exists n.
        split; [|done]. unfold notes.
        apply elem_of_app; left. by apply elem_of_app; left.
      * intros Hf. apply Hfe in Hf as (_ & n & Hn & Hp). exists n.
        split; [|done]. unfold notes.
        apply elem_of_app; left. apply elem_of_app; right.
        by apply elem_of_app; left.
  - intros lines year run. unfold main.
    destruct (rebuild_records_by_id lines SEMI) as [|header rest]; [done|].
    set (hc := map strip (split SEMI header)).
    intros [Hr Ha]%main_loop_Ok. simpl in Hr, Ha. rewrite Hr, Ha. split.
    + intros an (line & Hline & Hka)%list_elem_of_omap.
      unfold kept_anomaly in Hka.
      destruct (process_record line hc year) as [| |al r a|] eqn:Hp;
        try done. subst a.
      exists r. split.
      * apply list_elem_of_omap. exists line. split; [done|].
        unfold kept_record. by rewrite Hp.
      * unfold process_record in Hp.
        destruct (extract_fields line hc SEMI) as [ex|]; [|done].
        assert (al = aligned ex) as ->.
        { by apply classify_Kept_inv in Hp as (? & ? & <- & _). }
        destruct (classify_notes _ _ _ _ _ Hp)
          as (sh & dn & _ & _ & _ & _ & _ & Hid & Han).
        cbv zeta in Han. destruct (is_anomaly _); [|done].
        injection Han as ->. by rewrite Hid.
    + clear. induction rest as [|line rest IH]; simpl; [done|].
      unfold kept_anomaly at 1, kept_record at 1.
      destruct (process_record line hc year) as [| |al r [a|]|]; simpl;
        [exact IH | exact IH | apply le_n_S, IH | apply le_S, IH | exact IH].
Qed.

End AnomalyClaims.

(** ** More on [strip] *)
Section StripFacts.

Lemma lstrip_by_head (p : N → bool) (s : pystr) :
  match lstrip_by p s with [] => True | c :: _ => p c = false end.
Proof.
  induction s as [|c r IH]; simpl; [done|].
  destruct (p c) eqn:Hp; [done|]. by rewrite Hp.
Qed.

Lemma lstrip_by_suffix (p : N → bool) (s : pystr) :
  ∃ w, s = w ++ lstrip_by p s.
Proof.
  induction s as [|c r [w IH]]; simpl; [by exists []|].
  destruct (p c); [|by exists []]. exists (c :: w). simpl. by f_equal.
Qed.

Lemma rstrip_by_prefix (p : N → bool) (s : pystr) :
  ∃ w, s = rstrip_by p s ++ w.
Proof.
  unfold rstrip_by. destruct (lstrip_by_suffix p (rev s)) as [w Hw].
  exists (rev w). rewrite <- rev_app_distr, <- Hw. by rewrite rev_involutive.
Qed.

Lemma strip_by_idem (p : N → bool) (s : pystr) :
  strip_by p (strip_by p s) = strip_by p s.
Proof.
  unfold strip_by.
  assert (lstrip_by p (rstrip_by p (lstrip_by p s))
          = rstrip_by p (lstrip_by p s)) as ->; [|apply rstrip_by_idem].
  pose proof (lstrip_by_head p s) as Hh.
  destruct (rstrip_by_prefix p (lstrip_by p s)) as [w Hw].
  destruct (rstrip_by p (lstrip_by p s)) as [|c u]; [done|].
  rewrite Hw in Hh. simpl in Hh. simpl. by rewrite Hh.
Qed.

Lemma strip_idem (s : pystr) : strip (strip s) = strip s.
Proof. apply strip_by_idem. Qed.

End StripFacts.

(** ** The pipeline: empty input and emitted ids *)
Section PipelineClaims.
Context `{UnicodeData} `{Strptime}.

(** C9: the reassembler returns the empty list exactly when the input has
    no non-blank line (in particular on the empty input), and the
    pipeline fails with its fatal error exactly when the reassembler
    returns the empty list. *)
Theorem empty_reassembly_is_fatal (lines : list pystr) (d : N) (year : Z) :
  (rebuild_records_by_id lines d = []
   ↔ Forall (λ l, is_blank l = true) lines)
  ∧ rebuild_records_by_id [] d = []
  ∧ (main lines year = Raise EMPTY_INPUT
     ↔ rebuild_records_by_id lines SEMI = []).
Proof.
  split; [apply rebuild_nil_iff|]. split; [done|].
  unfold main. destruct (rebuild_records_by_id lines SEMI) as [|h rest].
  - done.
  - split; [|done]. intros He. by apply main_loop_Raise in He.
Qed.

(** The extractor returns a result only for a record whose cleaned first
    token starts with the prefix, from one of its two paths. *)
Lemma extract_fields_Some (record_line : pystr) (header_cols : list pystr)
    (d : N) (ex : ExtractResult) :
  extract_fields record_line header_cols d = Some ex →
  let toks := map strip (split d record_line) in
  startswith ID_PREFIX (clean_id (tok toks 0)) = true
  ∧ (aligned ex = true ∧ length toks = length header_cols
     ∧ fields ex = or_none <$> py_dict (zip header_cols toks)
     ∨ aligned ex = false ∧ length toks ≠ length header_cols
       ∧ fields ex = heuristic_fields toks (clean_id (tok toks 0))
                       header_cols).
Proof.
  intros He toks. unfold extract_fields in He. fold toks in He.
  destruct toks as [|t0 ts] eqn:Htoks; [done|].
  destruct (startswith ID_PREFIX (clean_id (tok (t0 :: ts) 0))) eqn:Hid;
    [|done].
  split; [done|]. cbn [negb] in He.
  destruct (Z.eqb_spec (len (t0 :: ts)) (len header_cols)) as [Hl|Hl];
    injection He as <-; [left|right]; cbn [aligned fields]; unfold len in Hl;
    (split; [reflexivity|]); (split; [lia | reflexivity]).
Qed.

End PipelineClaims.

(** ** The fallback path: which keys each step writes *)
Section HeuristicFacts.
Context `{UnicodeData}.

Local Ltac key_ne :=
  let E := fresh "E" in intros E; vm_compute in E; discriminate E.

Local Ltac frame :=
  repeat case_match; rewrite ?lookup_insert_ne by done; done.

Lemma set_created_lookup (toks : list pystr) (ci : option Z)
    (f : gmap (list N) (option (list N))) (k : pystr) :
  K_CREE_LE ≠ k → K_CATEGORIE ≠ k → K_DESCRIPTION ≠ k →
  set_created toks ci f !! k = f !! k.
Proof. intros. unfold set_created, set_description_1. frame. Qed.

Lemma set_opt_lookup (key : pystr) (toks : list pystr) (idx : option Z)
    (f : gmap (list N) (option (list N))) (k : pystr) :
  key ≠ k → set_opt key toks idx f !! k = f !! k.
Proof. intros. unfold set_opt. frame. Qed.

Lemma set_around_echeance_lookup (toks : list pystr) (ei : option Z)
    (f : gmap (list N) (option (list N))) (k : pystr) :
  K_ADRESSE ≠ k → K_BATIMENT ≠ k →
  set_around_echeance toks ei f !! k = f !! k.
Proof. intros. unfold set_around_echeance. frame. Qed.

Lemma set_address_scan_lookup (toks : list pystr)
    (f : gmap (list N) (option (list N))) (k : pystr) :
  K_ADRESSE ≠ k → set_address_scan toks f !! k = f !! k.
Proof. intros. unfold set_address_scan. frame. Qed.

Lemma set_batiment_scan_lookup (toks : list pystr)
    (f : gmap (list N) (option (list N))) (k : pystr) :
  K_BATIMENT ≠ k → set_batiment_scan toks f !! k = f !! k.
Proof. intros. unfold set_batiment_scan. frame. Qed.

Lemma set_consigne_lookup (toks : list pystr) (ai : option Z)
    (f : gmap (list N) (option (list N))) (k : pystr) :
  K_CONSIGNE ≠ k → set_consigne toks ai f !! k = f !! k.
Proof. intros. unfold set_consigne. frame. Qed.

(** The dictionary of absent values the fallback path starts from. *)
Lemma init_fields_get (header_cols : list pystr) (k : pystr) :
  f_get (py_dict (map (λ k, (k, None)) header_cols)) k = None.
Proof.
  unfold f_get.
  destruct (py_dict _ !! k) as [v|] eqn:Hd; [|done].
  apply py_dict_lookup_Some in Hd as (i & Hi & _).
  rewrite list_lookup_fmap in Hi.
  destruct (header_cols !! i); simpl in Hi; [|done]. by injection Hi as _ <-.
Qed.

(** On the fallback path the ID is the cleaned first token. *)
Lemma heuristic_fields_ID (toks : list pystr) (rid : pystr)
    (header_cols : list pystr) :
  f_get (heuristic_fields toks rid header_cols) K_ID = Some rid.
Proof.
  unfold heuristic_fields.
  destruct (start_end_idx _) as [start_idx end_idx].
  destruct (created_echeance_idx _ _) as [created_idx echeance_idx].
  unfold f_get.
  rewrite set_consigne_lookup, set_batiment_scan_lookup,
    set_address_scan_lookup, set_around_echeance_lookup,
    !set_opt_lookup, set_created_lookup by key_ne.
  by rewrite lookup_insert_eq.
Qed.

(** The fields that only the anchored steps write are absent before
    them. *)
Lemma before_anchors_absent (toks : list pystr) (rid : pystr)
    (header_cols : list pystr) (ci ei si fi ai : option Z) (k : pystr) :
  k = K_ADRESSE ∨ k = K_BATIMENT ∨ k = K_CONSIGNE →
  f_get (set_opt K_AGENTS toks ai
           (set_opt K_FIN toks fi
              (set_opt K_DEBUT toks si
                 (set_opt K_ECHEANCE toks ei
                    (set_created toks ci
                       (<[K_ID := Some rid]>
                          (py_dict (map (λ k, (k, None)) header_cols))))))))
        k = None.
Proof.
  intros Hk.
  etransitivity; [|apply (init_fields_get header_cols k)].
  unfold f_get. f_equal.
  destruct Hk as [-> | [-> | ->]];
    rewrite !set_opt_lookup, set_created_lookup, lookup_insert_ne by key_ne;
    reflexivity.
Qed.

Lemma looks_like_address_strip (v : pystr) :
  looks_like_address (strip v) = looks_like_address v.
Proof. unfold looks_like_address. by rewrite strip_idem. Qed.

Lemma tok_elem (toks : list pystr) (i : Z) :
  tok toks i = [] ∨ tok toks i ∈ toks.
Proof.
  unfold tok, py_get.
  destruct (i <? 0)%Z.
  - destruct (_ <? 0)%Z; [by left|].
    destruct (toks !! _) eqn:Hl; [|by left]. right.
    by eapply list_elem_of_lookup_2.
  - destruct (toks !! _) eqn:Hl; [|by left]. right.
    by eapply list_elem_of_lookup_2.
Qed.

Lemma find_none (p : pystr → bool) (l : list pystr) :
  (∀ t, t ∈ l → p t = false) → List.find p l = None.
Proof.
  induction l as [|t l IH]; intros Hall; simpl; [done|].
  rewrite (Hall t) by left. apply IH. intros t' Hin. apply Hall. by right.
Qed.

End HeuristicFacts.

(** ** Emitted ids, and the fallback path without anchors *)
Section ExtractorClaims.
Context `{UnicodeData} `{Strptime}.

(** C2 (as amended): every record the pipeline emits comes from a logical
    record whose first token, once cleaned, starts with the prefix BE-
    (so no record whose cleaned first token lacks it is emitted), and its
    ID is what the field map holds under ID.  On the fallback path that
    is the cleaned first token, which is non-empty and starts with BE-.
    On the aligned path the map is not overwritten: when ID is the first
    and only header column of that name, the ID is the first token as
    read (only stripped of white space), whose cleaned form starts with
    BE-. *)
Theorem emitted_id_is_first_token (lines : list pystr) (year : Z)
    (run : Run) (r : OutRecord) :
  main lines year = Ok run →
  r ∈ records run →
  ∃ header rest line ex,
    let header_cols := map strip (split SEMI header) in
    let toks := map strip (split SEMI line) in
    rebuild_records_by_id lines SEMI = header :: rest
    ∧ line ∈ rest
    ∧ extract_fields line header_cols SEMI = Some ex
    ∧ startswith ID_PREFIX (clean_id (tok toks 0)) = true
    ∧ r_ID r = f_get (fields ex) K_ID
    ∧ (aligned ex = false →
       r_ID r = Some (clean_id (tok toks 0))
       ∧ ∃ tail, r_ID r = Some (lit "BE-" ++ tail))
    ∧ (aligned ex = true →
       head header_cols = Some K_ID → K_ID ∉ tail header_cols →
       r_ID r = Some (tok toks 0) ∧ nonempty (tok toks 0) = true).
Proof.
  unfold main.
  destruct (rebuild_records_by_id lines SEMI) as [|header rest]; [done|].
  intros [Hr _]%main_loop_Ok. simpl in Hr. rewrite Hr.
  intros (line & Hline & Hk)%list_elem_of_omap.
  unfold kept_record in Hk.
  destruct (process_record line _ year) as [| |al r' a|] eqn:Hp; try done.
  injection Hk as ->. unfold process_record in Hp.
  destruct (extract_fields line _ SEMI) as [ex|] eqn:Hex; [|done].
  exists header, rest, line, ex. cbv zeta.
  apply extract_fields_Some in Hex as Hex'. cbv zeta in Hex'.
  destruct Hex' as [Hid Hpath].
  assert (HrID : r_ID r = f_get (fields ex) K_ID).
  { by apply classify_Kept_inv in Hp as (? & ? & _ & _ & _ & -> & _). }
  do 5 (split; [done|]). split.
  - intros Hal.
    destruct Hpath as [(Hal' & _)|(_ & _ & Hf)]; [congruence|].
    rewrite HrID, Hf, heuristic_fields_ID. split; [done|].
    apply startswith_prefix in Hid as [tail ->]. by exists tail.
  - intros Hal Hhead Htail.
    destruct Hpath as [(_ & Hlen & Hf)|(Hal' & _)]; [|congruence].
    rewrite HrID, Hf. unfold f_get. rewrite lookup_fmap.
    set (hc := map strip (split SEMI header)) in *.
    set (toks := map strip (split SEMI line)) in *.
    destruct hc as [|k0 hc']; [done|]. simpl in Hhead, Htail.
    injection Hhead as ->.
    destruct toks as [|t0 ts]; [done|].
    assert (py_dict (zip (K_ID :: hc') (t0 :: ts)) !! K_ID = Some t0) as ->.
    { apply py_dict_lookup_Some. exists 0%nat. split; [done|].
      intros [|j] v' Hj; [lia|]. simpl.
      intros [Hk _]%zip_lookup_Some. apply Htail.
      by eapply list_elem_of_lookup_2. }
    change (tok (t0 :: ts) 0) with t0 in *. simpl. unfold or_none.
    destruct t0; [by vm_compute in Hid | done].
Qed.

(** C10 (as amended): on the fallback path, when no agents anchor exists
    (no token follows the end of planning, and no token stands three
    positions after the due date) and no token is address-like, the
    extractor returns a map whose Consigne and Adresse are absent; its
    Bâtiment/Équipement is absent too unless a due date was found and the
    token two positions before it is non-empty and is neither an id, nor
    address-like, nor a date or date-time, in which case it is that
    token. *)
Theorem no_anchor_leaves_consigne_absent (d : N) (record_line : pystr)
    (header_cols : list pystr) :
  let toks := map strip (split d record_line) in
  let se := start_end_idx (indices is_dt toks) in
  let ce := created_echeance_idx (indices is_date toks) se.1 in
  startswith ID_PREFIX (clean_id (tok toks 0)) = true →
  length toks ≠ length header_cols →
  (∀ e, se.2 = Some e → (len toks <= e + 1)%Z) →
  (∀ e, ce.2 = Some e → (len toks <= e + 3)%Z) →
  (∀ t, t ∈ toks → looks_like_address t = false) →
  ∃ fm,
    extract_fields record_line header_cols d
    = Some {| fields := fm; aligned := false |}
    ∧ f_get fm K_CONSIGNE = None
    ∧ f_get fm K_ADRESSE = None
    ∧ f_get fm K_BATIMENT
      = match ce.2 with
        | Some ei =>
          if (0 <=? ei - 2)%Z && (ei - 2 <? len toks)%Z then
            let cand := strip (tok toks (ei - 2)) in
            if nonempty cand && negb (looks_like_betterstreet_id cand)
               && negb (looks_like_address cand)
               && negb (re_match RE_DATE cand) && negb (re_match RE_DT cand)
            then Some cand else None
          else None
        | None => None
        end.
Proof.
  intros toks se ce Hid Hlen Hag1 Hag2 Haddr.
  exists (heuristic_fields toks (clean_id (tok toks 0)) header_cols).
  split.
  { unfold extract_fields. fold toks.
    destruct toks as [|t0 ts] eqn:Htoks;
      [by destruct (toks_nonempty d record_line)|].
    rewrite Hid. simpl negb. cbv iota.
    destruct (Z.eqb_spec (len (t0 :: ts)) (len header_cols)) as [Hl|Hl];
      [|done].
    unfold len in Hl. lia. }
  unfold heuristic_fields. subst ce se.
  destruct (start_end_idx (indices is_dt toks)) as [si fi].
  cbn [fst snd] in *.
  destruct (created_echeance_idx (indices is_date toks) si) as [ci ei].
  cbn [fst snd] in *.
  assert (Hai : agents_index toks fi ei = None).
  { unfold agents_index, index_after.
    destruct fi as [e|].
    - specialize (Hag1 e eq_refl).
      destruct (Z.ltb_spec (e + 1) (len toks)); [lia|].
      destruct ei as [e2|]; [|done]. specialize (Hag2 e2 eq_refl).
      destruct (Z.ltb_spec (e2 + 3) (len toks)); [lia | done].
    - destruct ei as [e2|]; [|done]. specialize (Hag2 e2 eq_refl).
      destruct (Z.ltb_spec (e2 + 3) (len toks)); [lia | done]. }
  rewrite Hai.
  set (f6 := set_opt K_AGENTS toks None _).
  assert (Hf6 : ∀ k, k = K_ADRESSE ∨ k = K_BATIMENT ∨ k = K_CONSIGNE →
                     f_get f6 k = None).
  { intros k Hk. by apply before_anchors_absent. }
  clearbody f6.
  assert (Hno : ∀ i, nonempty (strip (tok toks i))
                     && looks_like_address (strip (tok toks i)) = false).
  { intros i. rewrite looks_like_address_strip.
    destruct (tok_elem toks i) as [-> | Hin]; [done|].
    rewrite (Haddr _ Hin). apply andb_false_r. }
  set (f7 := set_around_echeance toks ei f6).
  assert (Hf7a : f_get f7 K_ADRESSE = None).
  { unfold f7, set_around_echeance. destruct ei as [e|]; [|by apply Hf6; left].
    rewrite Hno. rewrite !Tauto.if_same.
    repeat case_match; unfold f_get;
      rewrite ?lookup_insert_ne by (intros E; vm_compute in E; discriminate E);
      by apply Hf6; left. }
  assert (Hf7 : set_consigne toks None
                  (set_batiment_scan toks (set_address_scan toks f7)) = f7).
  { unfold set_consigne.
    assert (set_address_scan toks f7 = f7) as ->.
    { unfold set_address_scan. rewrite Hf7a. simpl.
      by rewrite (find_none _ _ Haddr). }
    unfold set_batiment_scan. rewrite Hf7a. simpl.
    by rewrite andb_false_r. }
  rewrite Hf7. split; [|split; [done|]].
  - unfold f7, f_get. rewrite set_around_echeance_lookup
      by (intros E; vm_compute in E; discriminate E).
    by apply Hf6; right; right.
  - unfold f7, set_around_echeance. destruct ei as [e|];
      [|by apply Hf6; right; left].
    rewrite Hno. rewrite !Tauto.if_same.
    destruct ((0 <=? e - 2)%Z && (e - 2 <? len toks)%Z);
      [|by apply Hf6; right; left].
    cbv zeta.
    destruct (nonempty (strip (tok toks (e - 2))) && _ && _ && _ && _).
    + unfold f_get. by rewrite lookup_insert_eq.
    + by apply Hf6; right; left.
Qed.

End ExtractorClaims.

(** ** Instances on the sample inputs *)
Section Instances.

Lemma aligned_extraction_witness :
  ∃ fm,
    @extract_fields latin1 rec_aligned (map strip (split SEMI header9)) SEMI
    = Some {| fields := fm; aligned := true |}
    ∧ fm !! K_DEBUT = Some (Some (lit "15-03-25 07:30")).
Proof.
  destruct (@aligned_extraction_is_positional_zip latin1 SEMI rec_aligned
              (map strip (split SEMI header9)))
    as (fm & He & Hpos & _); [by vm_compute | by vm_compute |].
  exists fm. split; [exact He|].
  apply (Hpos 5%nat K_DEBUT (lit "15-03-25 07:30")); [by vm_compute..|].
  intros j Hj Hk. vm_compute in Hk.
  do 9 (destruct j as [|j]; [first [lia | discriminate Hk]|]).
  discriminate Hk.
Defined.

Lemma emitted_id_witness :
  ∃ line ex,
    @extract_fields latin1 line (map strip (split SEMI header9)) SEMI
    = Some ex
    ∧ f_get (fields ex) K_ID = Some (lit "BE-1002-").
Proof.
  assert (∃ run r, @main latin1 cpython [header9; rec_shift] 2025 = Ok run
                   ∧ r ∈ records run ∧ r_ID r = Some (lit "BE-1002-"))
    as (run & r & Hmain & Hin & Hid).
  { eexists _, _. split; [by vm_compute|]. split; [by left | by vm_compute]. }
  destruct (@emitted_id_is_first_token latin1 cpython
              [header9; rec_shift] 2025 run r Hmain Hin)
    as (header & rest & line & ex & Hreb & _ & Hex & _ & HrID & _).
  vm_compute in Hreb. injection Hreb as <- _.
  exists line, ex. split; [exact Hex|]. by rewrite <- HrID.
Defined.


Lemma record_start_witness :
  rebuild_step SEMI ([lit "ID;Desc"], Some (lit "BE-1;a"))
    (lit "BE-2;b" ++ [NL])
  = ([lit "ID;Desc"; lit "BE-1;a"], Some (lit "BE-2;b")).
Proof.
  apply (proj1 (proj2 (record_start_is_literal_prefix SEMI
                         [lit "ID;Desc"] (Some (lit "BE-1;a"))
                         (lit "BE-2;b" ++ [NL]) eq_refl))).
  by vm_compute.
Defined.

Lemma reassembly_idempotent_witness :
  rebuild_records_by_id
    [lit ""; lit "ID;Desc" ++ [NL]; lit "BE-1;a" ++ [NL]; lit "BE-2;b"] SEMI
  = [lit "ID;Desc"; lit "BE-1;a"; lit "BE-2;b"].
Proof.
  apply (proj1 (reassembly_idempotent_on_well_formed SEMI
                  [lit ""] (lit "ID;Desc" ++ [NL])
                  [lit "BE-1;a" ++ [NL]; lit "BE-2;b"]
                  ltac:(by repeat constructor)
                  eq_refl
                  ltac:(by repeat constructor))).
Defined.

Lemma unparseable_planning_witness :
  @parse_dt cpython (lit "demain matin")
  = Raise (ValueError (lit "Date/heure non reconnue: demain matin"))
  ∧ @parse_planning cpython NOTE_START_ERR (f_get fields_bad_start K_DEBUT)
    = (None, [lit "Start parse error: Date/heure non reconnue: demain matin"]).
Proof.
  destruct (@unparseable_planning_is_noted cpython fields_bad_start
              false 2025 NOTE_START_ERR K_DEBUT (lit "demain matin")
              (lit "hier"))
    as (Hp & Hpp & _).
  - by left.
  - by vm_compute.
  - by vm_compute.
  - intros fmt Hin.
    repeat (apply elem_of_cons in Hin as [-> | Hin]; [by vm_compute|]).
    by inversion Hin.
  - intros fmt Hin.
    repeat (apply elem_of_cons in Hin as [-> | Hin]; [by vm_compute|]).
    by inversion Hin.
  - split; [exact Hp | exact Hpp].
Defined.

Lemma anomaly_one_entry_witness :
  ∃ run,
    @main latin1 cpython [header9; rec_aligned; rec_shift] 2025 = Ok run
    ∧ (length (anomalies run) ≤ length (records run))%nat
    ∧ length (anomalies run) = 1%nat.
Proof.
  eexists. split; [by vm_compute|]. split; [|by vm_compute].
  apply (proj2 (@anomaly_iff_trigger_one_entry latin1 cpython)
           [header9; rec_aligned; rec_shift] 2025%Z).
  by vm_compute.
Defined.

Lemma no_anchor_witness :
  ∃ fm,
    @extract_fields latin1 rec_no_anchor header3 SEMI
    = Some {| fields := fm; aligned := false |}
    ∧ f_get fm K_CONSIGNE = None
    ∧ f_get fm K_ADRESSE = None.
Proof.
  destruct (@no_anchor_leaves_consigne_absent latin1 SEMI rec_no_anchor
              header3)
    as (fm & He & Hc & Ha & _).
  - by vm_compute.
  - by vm_compute.
  - intros e He. vm_compute in He. discriminate He.
  - intros e He. vm_compute in He. injection He as <-. by vm_compute.
  - intros t Hin. vm_compute in Hin.
    repeat (apply elem_of_cons in Hin as [-> | Hin]; [by vm_compute|]).
    by inversion Hin.
  - by exists fm.
Defined.

(** C2, counterexample: an aligned record with a quoted id is emitted
    with the quotes in its ID, which therefore does not start with the
    prefix. *)
Lemma emitted_id_prefix_counterexample :
  ∃ run r id,
    @main latin1 cpython [header_created; rec_quoted] 2025 = Ok run
    ∧ r ∈ records run
    ∧ r_ID r = Some id
    ∧ id = [DQUOTE] ++ lit "BE-1001-" ++ [DQUOTE]
    ∧ startswith ID_PREFIX id = false.
Proof.
  eexists _, _, _. split; [by vm_compute|].
  split; [by left|]. by vm_compute.
Qed.

(** C3, counterexample: start and end on the last day of 2024, end
    before start; the corrected end falls in 2025, yet the record is not
    kept for 2025. *)
Lemma year_filter_corrected_end_counterexample :
  ∃ s e e',
    @parse_dt cpython (lit "31-12-24 23:00") = Ok s
    ∧ @parse_dt cpython (lit "31-12-24 13:00") = Ok e
    ∧ @correct_end (Some s) (Some e) = Ok (Some e', [NOTE_SHIFTED])
    ∧ dt_year e' = 2025%Z
    ∧ @main latin1 cpython [header_planning; rec_new_year] 2025
      = Ok {| records := []; anomalies := []; kept := 0;
              skipped_other_year := 1; aligned_count := 1;
              broken_count := 0 |}.
Proof.
  eexists _, _, _.
  split; [vm_compute; reflexivity|].
  split; [vm_compute; reflexivity|].
  split; [vm_compute; reflexivity|].
  split; vm_compute; reflexivity.
Qed.

(** C5, counterexample: a lower-case id matches the pattern but opens no
    record, and a prefix without digits opens a record though the
    pattern rejects it. *)
Lemma record_start_pattern_counterexample :
  re_match (@RE_BS_ID latin1) (first_token SEMI line_lower) = true
  ∧ rebuild_records_by_id [lit "ID;Desc"; line_lower] SEMI = [lit "ID;Desc"]
  ∧ re_match (@RE_BS_ID latin1) (first_token SEMI line_no_digits) = false
  ∧ rebuild_records_by_id [lit "ID;Desc"; line_no_digits] SEMI
    = [lit "ID;Desc"; line_no_digits].
Proof. by vm_compute. Qed.

(** C6, counterexample: a line whose first token is a record id in
    lower case is not blank, matches the id pattern and is an id for
    [looks_like_betterstreet_id], yet it gives no record of its own:
    after the header it is discarded, and after a record it is appended
    to that record. *)
Lemma reassembly_lowercase_id_counterexample :
  is_blank line_lower = false
  ∧ re_match (@RE_BS_ID latin1) (first_token SEMI line_lower) = true
  ∧ @looks_like_betterstreet_id latin1 (first_token SEMI line_lower) = true
  ∧ rebuild_records_by_id [lit "ID;Desc"; line_lower] SEMI = [lit "ID;Desc"]
  ∧ rebuild_records_by_id [lit "ID;Desc"; lit "BE-1;a"; line_lower] SEMI
    = [lit "ID;Desc"; lit "BE-1;a be-123-;x"]
  ∧ length (rebuild_records_by_id
              [lit "ID;Desc"; lit "BE-1;a"; line_lower] SEMI)
    ≠ length [lit "ID;Desc"; lit "BE-1;a"; line_lower].
Proof.
  split; [vm_compute; reflexivity|].
  split; [vm_compute; reflexivity|].
  split; [vm_compute; reflexivity|].
  split; [vm_compute; reflexivity|].
  split; [vm_compute; reflexivity|].
  vm_compute. intros E. discriminate E.
Qed.

(** C10, counterexample: no agents anchor and no address-like token, yet
    the building field is set, from the token two positions before the
    due date. *)
Lemma no_anchor_batiment_counterexample :
  let toks := map strip (split SEMI rec_no_anchor) in
  let se := start_end_idx (indices (@is_dt latin1) toks) in
  let ce := created_echeance_idx (indices (@is_date latin1) toks) se.1 in
  agents_index toks se.2 ce.2 = None
  ∧ forallb (λ t, negb (@looks_like_address latin1 t)) toks = true
  ∧ ∃ fm,
      @extract_fields latin1 rec_no_anchor header3 SEMI
      = Some {| fields := fm; aligned := false |}
      ∧ f_get fm K_BATIMENT = Some (lit "foo").
Proof.
  cbv zeta. split; [by vm_compute|]. split; [by vm_compute|].
  eexists. split; [by vm_compute | by vm_compute].
Qed.

End Instances.

(** * Further properties of the code *)

(** ** How [strip] treats what surrounds a string *)
Section StripAppFacts.

Lemma lstrip_by_decomp (p : N → bool) (s : pystr) :
  ∃ w, s = w ++ lstrip_by p s ∧ forallb p w = true.
Proof.
  induction s as [|c r (w & IH & Hw)]; simpl; [by exists []|].
  destruct (p c) eqn:Hp; [|by exists []].
  exists (c :: w). simpl. rewrite Hp, Hw. split; [by f_equal | done].
Qed.

Lemma rstrip_by_decomp (p : N → bool) (s : pystr) :
  ∃ w, s = rstrip_by p s ++ w ∧ forallb p w = true.
Proof.
  unfold rstrip_by. destruct (lstrip_by_decomp p (rev s)) as (w & Hw & Hp).
  exists (rev w). rewrite forallb_rev. split; [|done].
  rewrite <- rev_app_distr, <- Hw. by rewrite rev_involutive.
Qed.

Lemma lstrip_by_all (p : N → bool) (w s : pystr) :
  forallb p w = true → lstrip_by p (w ++ s) = lstrip_by p s.
Proof.
  induction w as [|c w IH]; simpl; [done|].
  intros [Hc Hw]%andb_true_iff. rewrite Hc. by apply IH.
Qed.

Lemma lstrip_by_app (p : N → bool) (u v : pystr) :
  forallb p u = false → lstrip_by p (u ++ v) = lstrip_by p u ++ v.
Proof.
  induction u as [|c u IH]; simpl; [done|].
  destruct (p c); simpl; [apply IH | done].
Qed.

Lemma rstrip_by_all (p : N → bool) (s w : pystr) :
  forallb p w = true → rstrip_by p (s ++ w) = rstrip_by p s.
Proof.
  intros Hw. unfold rstrip_by. rewrite rev_app_distr.
  by rewrite lstrip_by_all by (by rewrite forallb_rev).
Qed.

Lemma rstrip_by_app (p : N → bool) (u v : pystr) :
  forallb p v = false → rstrip_by p (u ++ v) = u ++ rstrip_by p v.
Proof.
  intros Hv. unfold rstrip_by. rewrite rev_app_distr.
  rewrite lstrip_by_app by (by rewrite forallb_rev).
  by rewrite rev_app_distr, rev_involutive.
Qed.

Lemma strip_by_nonempty (p : N → bool) (s : pystr) :
  nonempty (strip_by p s) = negb (forallb p s).
Proof.
  unfold strip_by. rewrite rstrip_by_nil. f_equal.
  by apply forallb_lstrip_by.
Qed.

(** Appending text to a string that does not strip to nothing only
    extends what it strips to. *)
Lemma strip_by_app_prefix (p : N → bool) (a b : pystr) :
  nonempty (strip_by p a) = true →
  ∃ c, strip_by p (a ++ b) = strip_by p a ++ c.
Proof.
  rewrite strip_by_nonempty. intros Ha%negb_true_iff.
  unfold strip_by. rewrite lstrip_by_app by done.
  destruct (forallb p b) eqn:Hb.
  - exists []. by rewrite rstrip_by_all, app_nil_r.
  - rewrite rstrip_by_app by done.
    destruct (rstrip_by_decomp p (lstrip_by p a)) as (w & Hw & _).
    exists (w ++ rstrip_by p b). rewrite app_assoc. by rewrite <- Hw.
Qed.

(** White space around a string does not change what it strips to. *)
Lemma strip_by_pad (p : N → bool) (w1 s w2 : pystr) :
  forallb p w1 = true → forallb p w2 = true →
  strip_by p (w1 ++ s ++ w2) = strip_by p s.
Proof.
  intros H1 H2. unfold strip_by. rewrite lstrip_by_all by done.
  destruct (forallb p s) eqn:Hs.
  - assert (lstrip_by p (s ++ w2) = []) as ->.
    { pose proof (lstrip_by_nil p (s ++ w2)) as Hn.
      rewrite forallb_app, Hs, H2 in Hn. by destruct (lstrip_by p (s ++ w2)). }
    assert (lstrip_by p s = []) as ->; [|done].
    pose proof (lstrip_by_nil p s) as Hn. rewrite Hs in Hn.
    by destruct (lstrip_by p s).
  - rewrite lstrip_by_app by done. by apply rstrip_by_all.
Qed.

Lemma forallb_remove_char (p : N → bool) (c : N) (s : pystr) :
  forallb p s = true → forallb p (remove_char c s) = true.
Proof.
  unfold remove_char. induction s as [|x s IH]; simpl; [done|].
  intros [Hx Hs]%andb_true_iff. rewrite filter_cons.
  destruct (decide (x ≠ c)); simpl; [rewrite Hx|]; by apply IH.
Qed.

Lemma remove_char_app (c : N) (a b : pystr) :
  remove_char c (a ++ b) = remove_char c a ++ remove_char c b.
Proof. unfold remove_char. apply filter_app. Qed.

(** Cleaning a first token gives the same result whether or not the
    token was stripped of white space first. *)
Lemma clean_id_strip (x : pystr) : clean_id (strip x) = clean_id x.
Proof.
  unfold clean_id. do 2 f_equal.
  destruct (lstrip_by_decomp isspace x) as (w1 & H1 & Hw1).
  destruct (rstrip_by_decomp isspace (lstrip_by isspace x))
    as (w2 & H2 & Hw2).
  assert (Hx : x = w1 ++ strip x ++ w2).
  { unfold strip, strip_by. by rewrite <- H2. }
  rewrite Hx at 2. rewrite !remove_char_app.
  unfold strip at 3. rewrite strip_by_pad; [done|..];
    by apply forallb_remove_char.
Qed.

(** Appending text to a first token whose cleaned form starts with the
    prefix keeps it so. *)
Lemma clean_id_app_prefix (a b : pystr) :
  startswith ID_PREFIX (clean_id a) = true →
  startswith ID_PREFIX (clean_id (a ++ b)) = true.
Proof.
  unfold clean_id, strip, strip_char. rewrite remove_char_app.
  set (ra := remove_char BOM a). set (rb := remove_char BOM b).
  intros Hid.
  assert (H3 : nonempty (strip_by (N.eqb SQUOTE)
                 (strip_by (N.eqb DQUOTE) (strip_by isspace ra))) = true).
  { by destruct (strip_by (N.eqb SQUOTE) _). }
  assert (H2 : nonempty (strip_by (N.eqb DQUOTE) (strip_by isspace ra))
               = true).
  { by destruct (strip_by (N.eqb DQUOTE) _). }
  assert (H1 : nonempty (strip_by isspace ra) = true).
  { by destruct (strip_by isspace ra). }
  destruct (strip_by_app_prefix isspace ra rb H1) as [c1 ->].
  destruct (strip_by_app_prefix (N.eqb DQUOTE) _ c1 H2) as [c2 ->].
  destruct (strip_by_app_prefix (N.eqb SQUOTE) _ c2 H3) as [c3 ->].
  by apply startswith_app_l.
Qed.

End StripAppFacts.

(** ** More on the record reassembler *)
Section ReassemblerMore.

Lemma first_piece_cons (d x : N) (s : pystr) :
  hd [] (split_max d (x :: s) 1)
  = if (x =? d)%N then [] else x :: hd [] (split_max d s 1).
Proof.
  change (split_max d (x :: s) 1)
    with (if (x =? d)%N then [] :: split_max d s 0
          else match split_max d s 1 with
               | t :: ts => (x :: t) :: ts
               | [] => [[x]]
               end).
  destruct (x =? d)%N; [done|]. by destruct (split_max d s 1).
Qed.

Lemma first_piece_app (d : N) (a b : pystr) :
  ∃ c, hd [] (split_max d (a ++ b) 1) = hd [] (split_max d a 1) ++ c.
Proof.
  induction a as [|x a [c IH]].
  - by eexists.
  - change ((x :: a) ++ b) with (x :: (a ++ b)).
    rewrite !first_piece_cons. destruct (x =? d)%N; [by exists []|].
    exists c. by rewrite IH.
Qed.

(** A line that starts a record still does after text is appended to
    it. *)
Lemma starts_record_app (d : N) (line more : pystr) :
  starts_record d line = true → starts_record d (line ++ more) = true.
Proof.
  unfold starts_record, first_token.
  destruct (first_piece_app d line more) as [c ->].
  apply clean_id_app_prefix.
Qed.

Lemma rebuild_step_blank (d : N) (st : list pystr * option pystr)
    (raw : pystr) :
  is_blank raw = true → rebuild_step d st raw = st.
Proof.
  intros Hb. destruct st as [rebuilt cur]. unfold rebuild_step.
  by rewrite is_blank_rstrip_nl, Hb.
Qed.

Lemma foldl_rebuild_filter (d : N) (lines : list pystr)
    (st : list pystr * option pystr) :
  foldl (rebuild_step d) st (filter (λ l, is_blank l = false) lines)
  = foldl (rebuild_step d) st lines.
Proof.
  revert st. induction lines as [|l r IH]; intros st; [done|].
  rewrite filter_cons. destruct (is_blank l) eqn:Hb.
  - rewrite decide_False by done. simpl.
    by rewrite rebuild_step_blank.
  - rewrite decide_True by done. simpl. apply IH.
Qed.

(** X1: blank lines play no role: reassembling the input without its
    blank lines gives the same records. *)
Theorem rebuild_ignores_blank_lines (lines : list pystr) (d : N) :
  rebuild_records_by_id (filter (λ l, is_blank l = false) lines) d
  = rebuild_records_by_id lines d.
Proof.
  unfold rebuild_records_by_id.
  induction lines as [|l r IH]; [done|].
  rewrite filter_cons. simpl. destruct (is_blank l) eqn:Hb.
  - by rewrite decide_False by done.
  - rewrite decide_True by done. simpl. rewrite Hb.
    by rewrite foldl_rebuild_filter.
Qed.

(** The state of the loop holds records that start with an id only. *)
Lemma rebuild_step_invariant (d : N) (st : list pystr * option pystr)
    (raw : pystr) :
  Forall (λ r, starts_record d r = true) (tail (flush st)) →
  st.1 ≠ [] →
  Forall (λ r, starts_record d r = true)
    (tail (flush (rebuild_step d st raw))).
Proof.
  destruct st as [rebuilt cur]. unfold rebuild_step, flush. simpl.
  intros Hinv Hne. destruct rebuilt as [|h rb]; [done|]. simpl in *.
  destruct (is_blank _); [by destruct cur|].
  destruct (starts_record d (rstrip_char NL raw)) eqn:Hs.
  - destruct cur as [c|]; simpl.
    + rewrite <- app_assoc. simpl. apply Forall_app in Hinv as [Hrb Hc].
      apply Forall_app. split; [done|].
      constructor; [by inversion Hc|]. by repeat constructor.
    + apply Forall_app. split; [done|]. by repeat constructor.
  - destruct cur as [c|]; simpl; [|done].
    apply Forall_app in Hinv as [Hrb Hc]. apply Forall_app. split; [done|].
    constructor; [|constructor]. apply starts_record_app.
    by inversion Hc.
Qed.

Lemma foldl_rebuild_invariant (d : N) (rest : list pystr)
    (st : list pystr * option pystr) :
  Forall (λ r, starts_record d r = true) (tail (flush st)) →
  st.1 ≠ [] →
  Forall (λ r, starts_record d r = true)
    (tail (flush (foldl (rebuild_step d) st rest))).
Proof.
  revert st. induction rest as [|raw rest IH]; intros st Hinv Hne; [done|].
  simpl. apply IH.
  - by apply rebuild_step_invariant.
  - by apply rebuild_step_keeps_header.
Qed.

(** X2: every logical record the reassembler returns after the header
    starts with a record id: its first token, once cleaned, starts with
    the prefix, however many continuation lines were appended to it. *)
Theorem rebuilt_records_start_with_id (lines : list pystr) (d : N) :
  Forall (λ r, starts_record d r = true)
    (tail (rebuild_records_by_id lines d)).
Proof.
  unfold rebuild_records_by_id.
  destruct (skip_blank lines) as [|h rest]; [constructor|].
  apply foldl_rebuild_invariant; [constructor | done].
Qed.

Lemma join_cons (sep x : pystr) (l : list pystr) :
  join sep (x :: l) = x ++ concat (map (λ y, sep ++ y) l).
Proof.
  revert x. induction l as [|y l IH]; intros x.
  - simpl. by rewrite app_nil_r.
  - change (join sep (x :: y :: l)) with (x ++ sep ++ join sep (y :: l)).
    rewrite IH. simpl. by rewrite <- app_assoc.
Qed.

Lemma foldl_rebuild_garbage (d : N) (garbage rebuilt : list pystr) :
  Forall (λ l, starts_record d (rstrip_char NL l) = false) garbage →
  foldl (rebuild_step d) (rebuilt, None) garbage = (rebuilt, None).
Proof.
  induction 1 as [|l r Hl _ IH]; [done|]. cbn [foldl].
  assert (rebuild_step d (rebuilt, None) l = (rebuilt, None)) as ->; [|done].
  unfold rebuild_step. rewrite Hl. by destruct (is_blank _).
Qed.

Lemma foldl_rebuild_continuation (d : N) (cs rebuilt : list pystr)
    (c : pystr) :
  Forall (λ l, is_blank l = false
               ∧ starts_record d (rstrip_char NL l) = false) cs →
  foldl (rebuild_step d) (rebuilt, Some c) cs
  = (rebuilt,
     Some (c ++ concat (map (λ y, lit " " ++ y) (map (rstrip_char NL) cs)))).
Proof.
  intros Hcs. revert c.
  induction Hcs as [|l r [Hb Hs] _ IH]; intros c; cbn [foldl map concat].
  - by rewrite app_nil_r.
  - assert (rebuild_step d (rebuilt, Some c) l
            = (rebuilt, Some (c ++ lit " " ++ rstrip_char NL l))) as ->.
    { unfold rebuild_step. by rewrite is_blank_rstrip_nl, Hb, Hs. }
    rewrite IH. by rewrite <- !app_assoc.
Qed.

(** X3: lines before the first record are discarded, and the lines that
    follow a record without starting one are appended to it, each after
    a single space, in order. *)
Theorem continuation_lines_are_appended (d : N) (header record : pystr)
    (garbage continuation : list pystr) :
  is_blank header = false →
  Forall (λ l, starts_record d (rstrip_char NL l) = false) garbage →
  is_blank record = false →
  starts_record d (rstrip_char NL record) = true →
  Forall (λ l, is_blank l = false
               ∧ starts_record d (rstrip_char NL l) = false) continuation →
  rebuild_records_by_id (header :: garbage ++ record :: continuation) d
  = [rstrip_char NL header;
     join (lit " ") (map (rstrip_char NL) (record :: continuation))].
Proof.
  intros Hh Hg Hb Hs Hc. unfold rebuild_records_by_id.
  cbn [skip_blank]. rewrite Hh.
  rewrite foldl_app, foldl_rebuild_garbage by done. cbn [foldl].
  rewrite rebuild_step_start by done. unfold flush at 2. cbn [fst snd].
  rewrite foldl_rebuild_continuation by done.
  unfold flush. cbn [fst snd map app]. by rewrite join_cons.
Qed.

End ReassemblerMore.

(** ** The extractor on reassembled records, and the counters of [main] *)
Section PipelineMore.
Context `{UnicodeData} `{Strptime}.

Lemma split_cons (d x : N) (s : pystr) :
  hd [] (split d (x :: s))
  = if (x =? d)%N then [] else x :: hd [] (split d s).
Proof.
  simpl. destruct (x =? d)%N; [done|]. by destruct (split d s).
Qed.

(** The first token of [split] is the first token of [split(d, 1)]. *)
Lemma hd_split_max (d : N) (s : pystr) :
  hd [] (split d s) = hd [] (split_max d s 1).
Proof.
  induction s as [|x s IH]; [done|].
  rewrite split_cons, first_piece_cons. by rewrite IH.
Qed.

Lemma tok_0 (d : N) (record_line : pystr) :
  tok (map strip (split d record_line)) 0
  = strip (hd [] (split d record_line)).
Proof.
  pose proof (split_nonempty d record_line) as Hne.
  by destruct (split d record_line).
Qed.

(** The extractor and the reassembler apply the same test. *)
Lemma extractor_test_is_starts_record (d : N) (record_line : pystr) :
  startswith ID_PREFIX (clean_id (tok (map strip (split d record_line)) 0))
  = starts_record d record_line.
Proof.
  rewrite tok_0, clean_id_strip, hd_split_max. done.
Qed.

(** X4: the extractor returns nothing exactly for a record whose cleaned
    first token does not start with the prefix (the reassembler's test
    for a record start); a result is tagged aligned exactly when the
    record has as many tokens as the header has columns. *)
Theorem extract_fields_none_iff_no_id (d : N) (record_line : pystr)
    (header_cols : list pystr) :
  (extract_fields record_line header_cols d = None
   ↔ starts_record d record_line = false)
  ∧ (∀ ex, extract_fields record_line header_cols d = Some ex →
       (aligned ex = true
        ↔ length (split d record_line) = length header_cols)).
Proof.
  split.
  - rewrite <- extractor_test_is_starts_record.
    unfold extract_fields.
    destruct (map strip (split d record_line)) as [|t0 ts] eqn:Ht;
      [by destruct (toks_nonempty d record_line)|].
    destruct (startswith ID_PREFIX (clean_id (tok (t0 :: ts) 0)));
      cbn [negb]; [|done].
    by destruct (len (t0 :: ts) =? len header_cols)%Z.
  - intros ex Hex. apply extract_fields_Some in Hex as [_ Hpath].
    cbv zeta in Hpath. rewrite length_map in Hpath.
    destruct Hpath as [(-> & Hl & _)|(-> & Hl & _)]; split; done.
Qed.

Lemma starts_record_extracted (d : N) (r : pystr)
    (header_cols : list pystr) :
  starts_record d r = true → is_Some (extract_fields r header_cols d).
Proof.
  intros Hr.
  destruct (extract_fields r header_cols d) as [ex|] eqn:Hex; [done|].
  rewrite <- extractor_test_is_starts_record in Hr.
  unfold extract_fields in Hex.
  destruct (map strip (split d r)) as [|t0 ts] eqn:Ht;
    [by destruct (toks_nonempty d r)|].
  rewrite Hr in Hex. cbn [negb] in Hex.
  by destruct (len (t0 :: ts) =? len header_cols)%Z.
Qed.

(** X5: the extractor drops no record of the reassembler: on every
    logical record of the reassembler's output it returns a field map,
    whatever the header. *)
Theorem reassembled_records_are_extracted (lines : list pystr) (d : N)
    (header_cols : list pystr) :
  Forall (λ r, is_Some (extract_fields r header_cols d))
    (tail (rebuild_records_by_id lines d)).
Proof.
  unfold rebuild_records_by_id.
  destruct (skip_blank lines) as [|h rest]; [constructor|].
  eapply Forall_impl;
    [apply foldl_rebuild_invariant; [constructor | done]|].
  intros r Hr. cbv beta in Hr |- *. by apply starts_record_extracted.
Qed.

Lemma classify_not_Dropped (f : gmap (list N) (option (list N)))
    (al : bool) (year : Z) :
  classify f al year ≠ Dropped.
Proof.
  unfold classify.
  destruct (parse_planning NOTE_START_ERR _) as [start_dt start_notes].
  destruct (parse_planning NOTE_END_ERR _) as [end_dt end_notes].
  destruct (keep_record _ _ _ _); cbn [negb]; [|done].
  destruct (correct_end start_dt end_dt) as [[e' sh]|e]; [|done].
  by destruct (duration_of start_dt e').
Qed.

Lemma main_loop_counters (header_cols : list pystr) (year : Z)
    (lines : list pystr) (run0 run : Run) :
  Forall (λ r, is_Some (extract_fields r header_cols SEMI)) lines →
  main_loop header_cols year lines run0 = Ok run →
  (kept run - kept run0
   = Z.of_nat (length (records run)) - Z.of_nat (length (records run0)))%Z
  ∧ (aligned_count run + broken_count run
     = aligned_count run0 + broken_count run0 + Z.of_nat (length lines))%Z
  ∧ (kept run + skipped_other_year run
     = kept run0 + skipped_other_year run0 + Z.of_nat (length lines))%Z.
Proof.
  intros Hall. revert run0.
  induction Hall as [|line rest [ex Hex] _ IH]; intros run0.
  - intros [= <-]. simpl. lia.
  - cbn [main_loop]. unfold process_record. rewrite Hex.
    pose proof (classify_not_Dropped (fields ex) (aligned ex) year) as Hnd.
    destruct (classify (fields ex) (aligned ex) year) as [|al|al r a|e];
      cbn [record_outcome]; [done| | |done].
    + intros Hm. apply IH in Hm. cbn in Hm. simpl length.
      destruct al; lia.
    + intros Hm. apply IH in Hm. cbn in Hm. rewrite length_app in Hm.
      simpl length in *. destruct al; lia.
Qed.

(** X6: in a run that completes, the number of kept records is the
    number of emitted records, and every reassembled record is counted
    once as aligned or broken and once as kept or skipped for its year. *)
Theorem main_counters_are_consistent (lines : list pystr) (year : Z)
    (run : Run) :
  main lines year = Ok run →
  let n := Z.of_nat (length (tail (rebuild_records_by_id lines SEMI))) in
  kept run = Z.of_nat (length (records run))
  ∧ (aligned_count run + broken_count run = n)%Z
  ∧ (kept run + skipped_other_year run = n)%Z.
Proof.
  unfold main. intros Hm. cbv zeta.
  assert (Hex : ∀ header_cols,
    Forall (λ r, is_Some (extract_fields r header_cols SEMI))
      (tail (rebuild_records_by_id lines SEMI))).
  { intros header_cols. unfold rebuild_records_by_id.
    destruct (skip_blank lines) as [|h rest]; [constructor|].
    eapply Forall_impl;
      [apply foldl_rebuild_invariant; [constructor | done]|].
    intros r Hr. cbv beta in Hr |- *. by apply starts_record_extracted. }
  destruct (rebuild_records_by_id lines SEMI) as [|header rest]; [done|].
  cbn [tail] in *.
  pose proof (main_loop_counters _ _ _ _ _ (Hex _) Hm) as (Hk & Ha & Hs).
  cbn in Hk, Ha, Hs. repeat split; lia.
Qed.

End PipelineMore.

(** ** Indices of matching tokens *)
Section IndexFacts.
Context {A : Type}.

Lemma indices_from_elem (p : A → bool) (i0 : Z) (l : list A) (k : Z) :
  k ∈ indices_from p i0 l
  ↔ ∃ (n : nat) t, k = (i0 + Z.of_nat n)%Z ∧ l !! n = Some t ∧ p t = true.
Proof.
  revert i0. induction l as [|x l IH]; intros i0; simpl.
  - split; [by intros Hin; inversion Hin | by intros (n & t & _ & ? & _)].
  - assert (Hrest : k ∈ indices_from p (i0 + 1) l
                    ↔ ∃ (n : nat) t, k = (i0 + Z.of_nat (S n))%Z
                                     ∧ l !! n = Some t ∧ p t = true).
    { rewrite IH. split; intros (n & t & -> & Hl & Hp); exists n, t;
        (split; [lia | done]). }
    destruct (p x) eqn:Hx.
    + rewrite elem_of_cons, Hrest. split.
      * intros [-> | (n & t & -> & Hl & Hp)].
        -- exists 0%nat, x. split; [lia | done].
        -- by exists (S n), t.
      * intros ([|n] & t & -> & Hl & Hp).
        -- left. lia.
        -- right. by exists n, t.
    + rewrite Hrest. split.
      * intros (n & t & -> & Hl & Hp). by exists (S n), t.
      * intros ([|n] & t & -> & Hl & Hp).
        -- simpl in Hl. congruence.
        -- by exists n, t.
Qed.

Lemma indices_from_sorted (p : A → bool) (i0 : Z) (l : list A) :
  StronglySorted Z.lt (indices_from p i0 l).
Proof.
  revert i0. induction l as [|x l IH]; intros i0; simpl; [constructor|].
  destruct (p x); [|apply IH]. constructor; [apply IH|].
  apply Forall_forall. intros k (n & t & -> & _)%indices_from_elem. lia.
Qed.

(** The last two elements of a sorted list are its two largest. *)
Lemma sorted_last_two (pre : list Z) (i j k : Z) :
  StronglySorted Z.lt (pre ++ [i; j]) →
  k ∈ pre ++ [i; j] →
  (i < j ∧ k ≤ j ∧ (i < k → k = j))%Z.
Proof.
  revert k. induction pre as [|x pre IH]; simpl; intros k Hs Hk.
  - inversion Hs as [|? ? _ Hall]; subst.
    apply Forall_cons in Hall as [Hij _].
    apply elem_of_cons in Hk as [-> | Hk]; [lia|].
    apply list_elem_of_singleton in Hk as ->. lia.
  - inversion Hs as [|? ? Hs' Hall]; subst.
    apply elem_of_cons in Hk as [-> | Hk]; [|by apply IH].
    apply Forall_app in Hall as [_ Hall].
    apply Forall_cons in Hall as [Hi Hall].
    apply Forall_cons in Hall as [Hj _].
    assert (Hin : j ∈ pre ++ [i; j]).
    { apply elem_of_app. right. apply elem_of_cons. right.
      apply list_elem_of_here. }
    destruct (IH j Hs' Hin) as (Hij & _). lia.
Qed.

Lemma py_get_last_two (pre : list Z) (i j : Z) :
  py_get (pre ++ [i; j]) (-2) = Some i
  ∧ py_get (pre ++ [i; j]) (-1) = Some j.
Proof.
  unfold py_get. rewrite length_app. simpl length.
  split.
  - change (-2 <? 0)%Z with true. cbv iota.
    destruct (Z.ltb_spec (-2 + Z.of_nat (length pre + 2)) 0); [lia|].
    replace (Z.to_nat (-2 + Z.of_nat (length pre + 2))) with (length pre)
      by lia.
    by rewrite lookup_app_r, Nat.sub_diag by lia.
  - change (-1 <? 0)%Z with true. cbv iota.
    destruct (Z.ltb_spec (-1 + Z.of_nat (length pre + 2)) 0); [lia|].
    replace (Z.to_nat (-1 + Z.of_nat (length pre + 2)))
      with (length pre + 1)%nat by lia.
    rewrite lookup_app_r by lia.
    by replace (length pre + 1 - length pre)%nat with 1%nat by lia.
Qed.

End IndexFacts.

(** ** The fallback path: anchors *)
Section AnchorFacts.
Context `{UnicodeData}.

Local Ltac key_ne :=
  let E := fresh "E" in intros E; vm_compute in E; discriminate E.

Lemma extract_fields_heuristic (d : N) (record_line : pystr)
    (header_cols : list pystr) :
  let toks := map strip (split d record_line) in
  starts_record d record_line = true →
  length toks ≠ length header_cols →
  extract_fields record_line header_cols d
  = Some {| fields := heuristic_fields toks (clean_id (tok toks 0))
                        header_cols;
            aligned := false |}.
Proof.
  intros toks Hs Hlen. rewrite <- extractor_test_is_starts_record in Hs.
  fold toks in Hs. unfold extract_fields. fold toks.
  destruct toks as [|t0 ts] eqn:Htoks;
    [by destruct (toks_nonempty d record_line)|].
  rewrite Hs. cbn [negb].
  destruct (Z.eqb_spec (len (t0 :: ts)) (len header_cols)) as [Hl|Hl];
    [|done].
  unfold len in Hl. lia.
Qed.

Lemma tok_of_nat (toks : list pystr) (n : nat) (t : pystr) :
  toks !! n = Some t → tok toks (Z.of_nat n) = t.
Proof.
  intros Hn. unfold tok, py_get.
  destruct (Z.ltb_spec (Z.of_nat n) 0); [lia|].
  by rewrite Nat2Z.id, Hn.
Qed.

(** An index of the list of matching tokens points at a matching
    token. *)
Lemma indices_tok (p : pystr → bool) (toks : list pystr) (i : Z) :
  i ∈ indices p toks →
  p (tok toks i) = true ∧ (0 <= i < len toks)%Z
  ∧ toks !! Z.to_nat i = Some (tok toks i).
Proof.
  intros (n & t & -> & Hn & Hp)%indices_from_elem.
  rewrite Z.add_0_l, (tok_of_nat _ _ _ Hn). split; [done|].
  apply lookup_lt_Some in Hn as Hlt. unfold len.
  split; [lia|]. by rewrite Nat2Z.id.
Qed.

Lemma is_dt_or_none (t : pystr) : is_dt t = true → or_none t = Some t.
Proof.
  unfold is_dt, or_none. by intros [-> _]%andb_true_iff.
Qed.

Lemma is_date_or_none (t : pystr) : is_date t = true → or_none t = Some t.
Proof.
  unfold is_date, or_none. by intros [-> _]%andb_true_iff.
Qed.

Lemma start_end_idx_short (dt_idxs : list Z) :
  (len dt_idxs < 2)%Z → start_end_idx dt_idxs = (None, None).
Proof.
  intros Hl. unfold start_end_idx.
  by destruct (Z.leb_spec 2 (len dt_idxs)); [lia|].
Qed.

Lemma start_end_idx_last_two (pre : list Z) (i j : Z) :
  start_end_idx (pre ++ [i; j]) = (Some i, Some j).
Proof.
  unfold start_end_idx, len. rewrite length_app. simpl length.
  destruct (Z.leb_spec 2 (Z.of_nat (length pre + 2))); [|lia].
  by destruct (py_get_last_two pre i j) as [-> ->].
Qed.

End AnchorFacts.

Section AnchorClaims.
Context `{UnicodeData}.

Local Ltac key_ne :=
  let E := fresh "E" in intros E; vm_compute in E; discriminate E.

(** X7: on the fallback path, when the record has at least two date-time
    tokens, the start and the end of planning are the last two of them,
    in order, and the agents/teams field is the token that follows the
    end, if there is one. *)
Theorem planning_anchors_are_last_two_datetimes (d : N)
    (record_line : pystr) (header_cols : list pystr) (pre : list Z)
    (i j : Z) :
  let toks := map strip (split d record_line) in
  starts_record d record_line = true →
  length toks ≠ length header_cols →
  indices is_dt toks = pre ++ [i; j] →
  ∃ fm,
    extract_fields record_line header_cols d
    = Some {| fields := fm; aligned := false |}
    ∧ f_get fm K_DEBUT = Some (tok toks i)
    ∧ f_get fm K_FIN = Some (tok toks j)
    ∧ is_dt (tok toks i) = true ∧ is_dt (tok toks j) = true
    ∧ (i < j)%Z
    ∧ (∀ (k : nat) t, toks !! k = Some t → is_dt t = true →
         (Z.of_nat k <= j)%Z ∧ ((i < Z.of_nat k)%Z → Z.of_nat k = j))
    ∧ ((j + 1 < len toks)%Z →
       f_get fm K_AGENTS = or_none (tok toks (j + 1))).
Proof.
  intros toks Hs Hlen Hidx.
  eexists. split; [by apply extract_fields_heuristic|].
  assert (Hi : i ∈ indices is_dt toks).
  { rewrite Hidx. apply elem_of_app. right. by left. }
  assert (Hj : j ∈ indices is_dt toks).
  { rewrite Hidx. apply elem_of_app. right. right. by left. }
  apply indices_tok in Hi as (Hi & _ & _).
  apply indices_tok in Hj as (Hj & _ & _).
  pose proof (indices_from_sorted is_dt 0 toks) as Hsorted.
  fold (indices is_dt toks) in Hsorted. rewrite Hidx in Hsorted.
  unfold heuristic_fields. fold toks. rewrite Hidx, start_end_idx_last_two.
  destruct (created_echeance_idx _ _) as [ci ei].
  split; [|split; [|split; [done|split; [done|split; [|split]]]]].
  - unfold f_get.
    rewrite set_consigne_lookup, set_batiment_scan_lookup,
      set_address_scan_lookup, set_around_echeance_lookup by key_ne.
    do 2 rewrite set_opt_lookup by key_ne.
    unfold set_opt at 1. rewrite lookup_insert_eq. simpl.
    by apply is_dt_or_none.
  - unfold f_get.
    rewrite set_consigne_lookup, set_batiment_scan_lookup,
      set_address_scan_lookup, set_around_echeance_lookup by key_ne.
    rewrite set_opt_lookup by key_ne.
    unfold set_opt at 1. rewrite lookup_insert_eq. simpl.
    by apply is_dt_or_none.
  - assert (Hin : j ∈ pre ++ [i; j]).
    { apply elem_of_app. right. right. by left. }
    by destruct (sorted_last_two pre i j j Hsorted Hin).
  - intros k t Hk Ht.
    assert (Hin : Z.of_nat k ∈ pre ++ [i; j]).
    { rewrite <- Hidx. apply indices_from_elem. exists k, t.
      split; [lia | done]. }
    by destruct (sorted_last_two pre i j _ Hsorted Hin) as (_ & ? & ?).
  - intros Hnext. unfold f_get.
    rewrite set_consigne_lookup, set_batiment_scan_lookup,
      set_address_scan_lookup, set_around_echeance_lookup by key_ne.
    unfold agents_index, index_after.
    destruct (Z.ltb_spec (j + 1) (len toks)); [|lia].
    unfold set_opt at 1. by rewrite lookup_insert_eq.
Qed.

(** X8: on the fallback path, a record with fewer than two date-time
    tokens and fewer than two date tokens keeps its cleaned ID and takes
    its second token as description; its created date, due date,
    category, start, end, agents/teams and instruction are absent. *)
Theorem no_date_anchor_leaves_dates_absent (d : N) (record_line : pystr)
    (header_cols : list pystr) (k : pystr) :
  let toks := map strip (split d record_line) in
  starts_record d record_line = true →
  length toks ≠ length header_cols →
  (len (indices is_dt toks) < 2)%Z →
  (len (indices is_date toks) < 2)%Z →
  k ∈ [K_CREE_LE; K_ECHEANCE; K_CATEGORIE; K_DEBUT; K_FIN; K_AGENTS;
       K_CONSIGNE] →
  ∃ fm,
    extract_fields record_line header_cols d
    = Some {| fields := fm; aligned := false |}
    ∧ f_get fm K_ID = Some (clean_id (tok toks 0))
    ∧ f_get fm K_DESCRIPTION
      = (if (1 <? len toks)%Z then or_none (strip (tok toks 1)) else None)
    ∧ f_get fm k = None.
Proof.
  intros toks Hs Hlen Hdt Hdate Hk.
  eexists. split; [by apply extract_fields_heuristic|].
  split; [apply heuristic_fields_ID|].
  unfold heuristic_fields. fold toks.
  rewrite (start_end_idx_short _ Hdt).
  assert (created_echeance_idx (indices is_date toks) None = (None, None))
    as ->.
  { unfold created_echeance_idx.
    by destruct (Z.leb_spec 2 (len (indices is_date toks))); [lia|]. }
  change (agents_index toks None None) with (@None Z).
  cbn [set_opt set_created set_around_echeance set_consigne].
  split.
  - unfold f_get.
    rewrite set_batiment_scan_lookup, set_address_scan_lookup by key_ne.
    unfold set_description_1. destruct (1 <? len toks)%Z.
    + by rewrite lookup_insert_eq.
    + rewrite lookup_insert_ne by key_ne.
      apply (init_fields_get header_cols K_DESCRIPTION).
  - etransitivity; [|apply (init_fields_get header_cols k)].
    unfold f_get. f_equal.
    repeat (apply elem_of_cons in Hk as [-> | Hk];
      [rewrite set_batiment_scan_lookup, set_address_scan_lookup by key_ne;
       unfold set_description_1; destruct (1 <? len toks)%Z;
       rewrite ?lookup_insert_ne by key_ne; reflexivity|]).
    by inversion Hk.
Qed.

(** X9: on the fallback path, when the record has fewer than two
    date-time tokens and at least two date tokens, the created and due
    dates are the first two date tokens, the start and end of planning
    are absent, and the agents/teams field is the token three positions
    after the due date, if there is one and absent otherwise. *)
Theorem date_anchors_are_first_two_dates (d : N) (record_line : pystr)
    (header_cols : list pystr) (i j : Z) (rest : list Z) :
  let toks := map strip (split d record_line) in
  starts_record d record_line = true →
  length toks ≠ length header_cols →
  (len (indices is_dt toks) < 2)%Z →
  indices is_date toks = i :: j :: rest →
  ∃ fm,
    extract_fields record_line header_cols d
    = Some {| fields := fm; aligned := false |}
    ∧ f_get fm K_CREE_LE = Some (tok toks i)
    ∧ f_get fm K_ECHEANCE = Some (tok toks j)
    ∧ is_date (tok toks i) = true ∧ is_date (tok toks j) = true
    ∧ (i < j)%Z
    ∧ f_get fm K_DEBUT = None ∧ f_get fm K_FIN = None
    ∧ f_get fm K_AGENTS
      = (if (j + 3 <? len toks)%Z then or_none (tok toks (j + 3)) else None).
Proof.
  intros toks Hs Hlen Hdt Hidx.
  eexists. split; [by apply extract_fields_heuristic|].
  assert (Hi : i ∈ indices is_date toks) by (rewrite Hidx; by left).
  assert (Hj : j ∈ indices is_date toks) by (rewrite Hidx; right; by left).
  apply indices_tok in Hi as (Hi & _ & _).
  apply indices_tok in Hj as (Hj & _ & _).
  pose proof (indices_from_sorted is_date 0 toks) as Hsorted.
  fold (indices is_date toks) in Hsorted. rewrite Hidx in Hsorted.
  unfold heuristic_fields. fold toks.
  rewrite (start_end_idx_short _ Hdt), Hidx.
  assert (created_echeance_idx (i :: j :: rest) None = (Some i, Some j))
    as ->.
  { unfold created_echeance_idx, len. simpl length.
    by destruct (Z.leb_spec 2 (Z.of_nat (S (S (length rest))))); [|lia]. }
  cbn [set_opt].
  assert (Hinit : ∀ k, k = K_DEBUT ∨ k = K_FIN ∨ k = K_AGENTS →
    set_created toks (Some i)
      (<[K_ID := Some (clean_id (tok toks 0))]>
         (py_dict (map (λ k, (k, None)) header_cols))) !! k
    = py_dict (map (λ k, (k, None)) header_cols) !! k).
  { intros k [-> | [-> | ->]];
      by rewrite set_created_lookup, lookup_insert_ne by key_ne. }
  split; [|split; [|split; [done|split; [done|split;
    [|split; [|split]]]]]].
  - unfold f_get.
    rewrite set_consigne_lookup, set_batiment_scan_lookup,
      set_address_scan_lookup, set_around_echeance_lookup,
      set_opt_lookup by key_ne.
    rewrite lookup_insert_ne by key_ne.
    unfold set_created.
    repeat case_match; unfold set_description_1; repeat case_match;
      rewrite ?(lookup_insert_ne _ K_DESCRIPTION) by key_ne;
      rewrite ?(lookup_insert_ne _ K_CATEGORIE) by key_ne;
      rewrite lookup_insert_eq; simpl; by rewrite is_date_or_none.
  - unfold f_get.
    rewrite set_consigne_lookup, set_batiment_scan_lookup,
      set_address_scan_lookup, set_around_echeance_lookup,
      set_opt_lookup by key_ne.
    rewrite lookup_insert_eq. simpl. by apply is_date_or_none.
  - inversion Hsorted as [|? ? _ Hall]; subst.
    by apply Forall_cons in Hall as [? _].
  - etransitivity; [|apply (init_fields_get header_cols K_DEBUT)].
    unfold f_get. f_equal.
    rewrite set_consigne_lookup, set_batiment_scan_lookup,
      set_address_scan_lookup, set_around_echeance_lookup,
      set_opt_lookup by key_ne.
    rewrite lookup_insert_ne by key_ne. apply Hinit. by left.
  - etransitivity; [|apply (init_fields_get header_cols K_FIN)].
    unfold f_get. f_equal.
    rewrite set_consigne_lookup, set_batiment_scan_lookup,
      set_address_scan_lookup, set_around_echeance_lookup,
      set_opt_lookup by key_ne.
    rewrite lookup_insert_ne by key_ne. apply Hinit. right. by left.
  - unfold f_get.
    rewrite set_consigne_lookup, set_batiment_scan_lookup,
      set_address_scan_lookup, set_around_echeance_lookup by key_ne.
    unfold agents_index, index_after.
    destruct (j + 3 <? len toks)%Z.
    + unfold set_opt. by rewrite lookup_insert_eq.
    + unfold set_opt. rewrite lookup_insert_ne by key_ne.
      rewrite Hinit by (right; by right).
      apply (init_fields_get header_cols K_AGENTS).
Qed.

End AnchorClaims.

(** ** The fallback path: keys of the field map *)
Section KeyClaims.
Context `{UnicodeData}.

Local Ltac grow :=
  intros; repeat case_match; rewrite ?lookup_insert_is_Some'; auto.

Lemma set_created_is_Some (toks : list pystr) (ci : option Z)
    (f : gmap (list N) (option (list N))) (k : pystr) :
  is_Some (f !! k) → is_Some (set_created toks ci f !! k).
Proof. unfold set_created, set_description_1. grow. Qed.

Lemma set_opt_is_Some (key : pystr) (toks : list pystr) (idx : option Z)
    (f : gmap (list N) (option (list N))) (k : pystr) :
  is_Some (f !! k) → is_Some (set_opt key toks idx f !! k).
Proof. unfold set_opt. grow. Qed.

Lemma set_around_echeance_is_Some (toks : list pystr) (ei : option Z)
    (f : gmap (list N) (option (list N))) (k : pystr) :
  is_Some (f !! k) → is_Some (set_around_echeance toks ei f !! k).
Proof. unfold set_around_echeance. grow. Qed.

Lemma set_address_scan_is_Some (toks : list pystr)
    (f : gmap (list N) (option (list N))) (k : pystr) :
  is_Some (f !! k) → is_Some (set_address_scan toks f !! k).
Proof. unfold set_address_scan. grow. Qed.

Lemma set_batiment_scan_is_Some (toks : list pystr)
    (f : gmap (list N) (option (list N))) (k : pystr) :
  is_Some (f !! k) → is_Some (set_batiment_scan toks f !! k).
Proof. unfold set_batiment_scan. grow. Qed.

Lemma set_consigne_is_Some (toks : list pystr) (ai : option Z)
    (f : gmap (list N) (option (list N))) (k : pystr) :
  is_Some (f !! k) → is_Some (set_consigne toks ai f !! k).
Proof. unfold set_consigne. grow. Qed.

(** A key outside the inferred fields is left as the initial dictionary
    has it. *)
Lemma heuristic_fields_other (toks : list pystr) (rid : pystr)
    (header_cols : list pystr) (k : pystr) :
  k ∉ INFERRED_FIELDS →
  heuristic_fields toks rid header_cols !! k
  = py_dict (map (λ k, (k, None)) header_cols) !! k.
Proof.
  unfold INFERRED_FIELDS. rewrite !not_elem_of_cons.
  intros (? & ? & ? & ? & ? & ? & ? & ? & ? & ? & ? & _).
  unfold heuristic_fields.
  destruct (start_end_idx _) as [start_idx end_idx].
  destruct (created_echeance_idx _ _) as [created_idx echeance_idx].
  rewrite set_consigne_lookup, set_batiment_scan_lookup,
    set_address_scan_lookup, set_around_echeance_lookup,
    !set_opt_lookup, set_created_lookup, lookup_insert_ne
    by (apply not_eq_sym; assumption).
  reflexivity.
Qed.

Lemma init_keys (header_cols : list pystr) :
  (map (λ k, (k, @None (list N))) header_cols).*1 = header_cols.
Proof.
  induction header_cols as [|k l IH]; [done|]. simpl. by f_equal.
Qed.

(** X10: the field map of the fallback path has every header column as a
    key, has no key besides the header columns and the eleven inferred
    fields, and holds an absent value under every key that is not an
    inferred field. *)
Theorem fallback_map_keys (d : N) (record_line : pystr)
    (header_cols : list pystr) :
  starts_record d record_line = true →
  length (map strip (split d record_line)) ≠ length header_cols →
  ∃ fm,
    extract_fields record_line header_cols d
    = Some {| fields := fm; aligned := false |}
    ∧ (∀ k, k ∈ header_cols → is_Some (fm !! k))
    ∧ (∀ k, is_Some (fm !! k) → k ∈ header_cols ∨ k ∈ INFERRED_FIELDS)
    ∧ (∀ k, k ∉ INFERRED_FIELDS → f_get fm k = None).
Proof.
  intros Hs Hlen.
  eexists. split; [by apply extract_fields_heuristic|].
  split; [|split].
  - intros k Hk. unfold heuristic_fields.
    destruct (start_end_idx _) as [start_idx end_idx].
    destruct (created_echeance_idx _ _) as [created_idx echeance_idx].
    apply set_consigne_is_Some, set_batiment_scan_is_Some,
      set_address_scan_is_Some, set_around_echeance_is_Some.
    do 4 apply set_opt_is_Some. apply set_created_is_Some.
    rewrite lookup_insert_is_Some'. right.
    destruct (py_dict _ !! k) eqn:Hd; [done|].
    apply py_dict_lookup_None in Hd. exfalso. apply Hd.
    by rewrite init_keys.
  - intros k Hk.
    destruct (decide (k ∈ INFERRED_FIELDS)) as [|Hno]; [by right|]. left.
    rewrite (heuristic_fields_other _ _ _ _ Hno) in Hk.
    destruct (decide (k ∈ header_cols)) as [|Hnh]; [done|]. exfalso.
    assert (py_dict (map (λ k, (k, @None (list N))) header_cols) !! k
            = None) as Hd.
    { apply py_dict_lookup_None. by rewrite init_keys. }
    rewrite Hd in Hk. by destruct Hk.
  - intros k Hno. unfold f_get.
    rewrite (heuristic_fields_other _ _ _ _ Hno).
    apply (init_fields_get header_cols k).
Qed.

End KeyClaims.

(** ** How [main] can fail, and white space around dates *)
Section FailureClaims.
Context `{UnicodeData} `{Strptime}.

Lemma classify_Crashed_inv (f : gmap (list N) (option (list N)))
    (al : bool) (year : Z) (e : exn) :
  classify f al year = Crashed e →
  e = OverflowError
  ∧ ∃ s en,
      (parse_planning NOTE_START_ERR (f_get f K_DEBUT)).1 = Some s
      ∧ (parse_planning NOTE_END_ERR (f_get f K_FIN)).1 = Some en
      ∧ dt_lt en s = true
      ∧ dt_add en (hours 12) = None.
Proof.
  unfold classify.
  destruct (parse_planning NOTE_START_ERR _) as [start_dt start_notes].
  destruct (parse_planning NOTE_END_ERR _) as [end_dt end_notes].
  destruct (keep_record _ _ _ _); cbn [negb]; [|done].
  destruct (correct_end start_dt end_dt) as [[e' sh]|e0] eqn:Hc.
  - by destruct (duration_of start_dt e').
  - intros [= <-]. unfold correct_end in Hc.
    destruct start_dt as [s|], end_dt as [en|]; try done.
    destruct (dt_lt en s) eqn:Hlt; [|done].
    destruct (dt_add en (hours 12)) eqn:Ha; [done|].
    injection Hc as <-. split; [done|]. by exists s, en.
Qed.

Lemma main_loop_Raise_inv (header_cols : list pystr) (year : Z)
    (lines : list pystr) (run0 : Run) (e : exn) :
  main_loop header_cols year lines run0 = Raise e →
  ∃ line, line ∈ lines ∧ process_record line header_cols year = Crashed e.
Proof.
  revert run0. induction lines as [|line rest IH]; intros run0;
    cbn [main_loop]; [done|].
  destruct (process_record line header_cols year) as [|al|al r a|e0] eqn:Hp;
    cbn [record_outcome].
  - intros (l & Hl & Hc)%IH. exists l. split; [by right | done].
  - intros (l & Hl & Hc)%IH. exists l. split; [by right | done].
  - intros (l & Hl & Hc)%IH. exists l. split; [by right | done].
  - intros [= <-]. exists line. split; [by left | done].
Qed.

(** X12: [main] fails in two ways only: with its fatal error when the
    input has no non-blank line, and with the overflow of the forced
    correction when a record that passes the year filter has an end
    before its start that cannot be moved 12 hours later.  No parse
    error and no malformed record makes it fail. *)
Theorem main_failure_modes (lines : list pystr) (year : Z) (e : exn) :
  main lines year = Raise e →
  (e = EMPTY_INPUT ∧ Forall (λ l, is_blank l = true) lines)
  ∨ (e = OverflowError
     ∧ ∃ header rest line ex s en,
         rebuild_records_by_id lines SEMI = header :: rest
         ∧ line ∈ rest
         ∧ extract_fields line (map strip (split SEMI header)) SEMI
           = Some ex
         ∧ (parse_planning NOTE_START_ERR (f_get (fields ex) K_DEBUT)).1
           = Some s
         ∧ (parse_planning NOTE_END_ERR (f_get (fields ex) K_FIN)).1
           = Some en
         ∧ dt_lt en s = true
         ∧ dt_add en (hours 12) = None).
Proof.
  unfold main.
  destruct (rebuild_records_by_id lines SEMI) as [|header rest] eqn:Hr.
  - intros [= <-]. left. split; [done|]. by apply rebuild_nil_iff in Hr.
  - intros (line & Hline & Hp)%main_loop_Raise_inv. right.
    unfold process_record in Hp.
    destruct (extract_fields line _ SEMI) as [ex|] eqn:Hex; [|done].
    apply classify_Crashed_inv in Hp as (-> & s & en & Hs & He & Hlt & Ha).
    split; [done|]. by exists header, rest, line, ex, s, en.
Qed.

(** X13: white space around a date string plays no role: both parsers
    return for the padded string what they return for the string. *)
Theorem parsers_ignore_surrounding_space (w1 s w2 : pystr) :
  forallb isspace w1 = true → forallb isspace w2 = true →
  parse_dt (w1 ++ s ++ w2) = parse_dt s
  ∧ parse_date_only (w1 ++ s ++ w2) = parse_date_only s.
Proof.
  intros H1 H2. unfold parse_dt, parse_date_only, strip.
  by rewrite strip_by_pad.
Qed.

End FailureClaims.

(** ** Order of dates and times *)
Section CalendarOrder.
Local Open Scope Z_scope.

Local Ltac to_nat_consts :=
  repeat match goal with
  | |- context [Z.to_nat (Zpos ?k)] =>
    let n := eval vm_compute in (Z.to_nat (Zpos k)) in
    change (Z.to_nat (Zpos k)) with n
  end.

Lemma days_before_year_succ (y : Z) :
  days_before_year (y + 1)
  = days_before_year y + (if is_leap y then 366 else 365).
Proof.
  unfold days_before_year, is_leap.
  replace (y + 1 - 1) with y by lia.
  destruct (Z.eqb_spec (y mod 4) 0) as [H4|H4];
    destruct (Z.eqb_spec (y mod 100) 0) as [H100|H100];
    destruct (Z.eqb_spec (y mod 400) 0) as [H400|H400]; cbn [negb andb orb];
    Z.div_mod_to_equations; lia.
Qed.

Lemma days_before_year_mono (y1 y2 : Z) :
  y1 <= y2 → days_before_year y1 <= days_before_year y2.
Proof.
  intros Hle. replace y2 with (y1 + Z.of_nat (Z.to_nat (y2 - y1))) by lia.
  generalize (Z.to_nat (y2 - y1)). intros n. induction n as [|n IH].
  { rewrite Z.add_0_r. lia. }
  replace (y1 + Z.of_nat (S n)) with (y1 + Z.of_nat n + 1) by lia.
  rewrite days_before_year_succ. destruct (is_leap _); lia.
Qed.

Lemma month_cases (m : Z) :
  1 <= m <= 12 →
  m = 1 ∨ m = 2 ∨ m = 3 ∨ m = 4 ∨ m = 5 ∨ m = 6 ∨ m = 7 ∨ m = 8 ∨ m = 9
  ∨ m = 10 ∨ m = 11 ∨ m = 12.
Proof. lia. Qed.

Lemma valid_date_bounds (a : date) :
  valid_date a = true →
  1 <= d_year a <= 9999 ∧ 1 <= d_month a <= 12
  ∧ 1 <= d_day a <= days_in_month (d_year a) (d_month a).
Proof.
  unfold valid_date. rewrite !andb_true_iff, !Z.leb_le. lia.
Qed.

(** The day of the year of a valid date. *)
Lemma day_of_year_bounds (y m d : Z) :
  1 <= m <= 12 → 1 <= d <= days_in_month y m →
  1 <= days_before_month y m + d <= (if is_leap y then 366 else 365).
Proof.
  intros Hm%month_cases. unfold days_before_month, days_in_month.
  intros Hd.
  repeat (destruct Hm as [-> | Hm]); try subst m;
    to_nat_consts; cbn in *; destruct (is_leap y); cbn in *; lia.
Qed.

Lemma day_of_year_lt (y m1 d1 m2 d2 : Z) :
  1 <= m1 <= 12 → 1 <= m2 <= 12 →
  1 <= d1 <= days_in_month y m1 → 1 <= d2 <= days_in_month y m2 →
  m1 < m2 →
  days_before_month y m1 + d1 < days_before_month y m2 + d2.
Proof.
  intros Hm1%month_cases Hm2%month_cases.
  unfold days_before_month, days_in_month.
  intros Hd1 Hd2 Hlt.
  repeat (destruct Hm1 as [-> | Hm1]); try subst m1;
    repeat (destruct Hm2 as [-> | Hm2]); try subst m2;
    try lia; to_nat_consts; cbn in *; destruct (is_leap y); cbn in *; lia.
Qed.

Lemma toordinal_lt_year (a b : date) :
  valid_date a = true → valid_date b = true →
  d_year a < d_year b → toordinal a < toordinal b.
Proof.
  intros [Hya [Hma Hda]]%valid_date_bounds [Hyb [Hmb Hdb]]%valid_date_bounds
    Hlt.
  unfold toordinal, ymd2ord.
  pose proof (day_of_year_bounds _ _ _ Hma Hda) as Ha.
  pose proof (day_of_year_bounds _ _ _ Hmb Hdb) as Hb.
  pose proof (days_before_year_mono (d_year a + 1) (d_year b) ltac:(lia))
    as Hm.
  rewrite days_before_year_succ in Hm.
  destruct (is_leap (d_year a)); lia.
Qed.

Lemma toordinal_lt_month (a b : date) :
  valid_date a = true → valid_date b = true →
  d_year a = d_year b → d_month a < d_month b → toordinal a < toordinal b.
Proof.
  intros [Hya [Hma Hda]]%valid_date_bounds [Hyb [Hmb Hdb]]%valid_date_bounds
    Hy Hlt.
  unfold toordinal, ymd2ord. rewrite Hy in *.
  pose proof (day_of_year_lt _ _ _ _ _ Hma Hmb Hda Hdb Hlt). lia.
Qed.

Lemma time_seconds_bounds (t : time) :
  valid_time t = true → 0 <= time_seconds t < 86400.
Proof.
  unfold valid_time, time_seconds. rewrite !andb_true_iff, !Z.leb_le. lia.
Qed.

Lemma valid_time_bounds (t : time) :
  valid_time t = true →
  0 <= t_hour t <= 23 ∧ 0 <= t_minute t <= 59 ∧ 0 <= t_second t <= 59.
Proof.
  unfold valid_time. rewrite !andb_true_iff, !Z.leb_le. lia.
Qed.

(** On valid values the comparison of the fields is the comparison of
    the instants. *)
Lemma dt_lt_seconds (a b : datetime) :
  valid_datetime a = true → valid_datetime b = true →
  dt_lt a b = (dt_seconds a <? dt_seconds b).
Proof.
  unfold valid_datetime. rewrite !andb_true_iff.
  intros [Hda Hta] [Hdb Htb].
  pose proof (time_seconds_bounds _ Hta) as Hsa.
  pose proof (time_seconds_bounds _ Htb) as Hsb.
  pose proof (valid_time_bounds _ Hta) as Hba.
  pose proof (valid_time_bounds _ Htb) as Hbb.
  unfold dt_lt, dt_fields, dt_seconds. cbn [lex_lt].
  destruct (Z.ltb_spec (d_year (dt_date a)) (d_year (dt_date b))) as [Hy|Hy].
  { pose proof (toordinal_lt_year _ _ Hda Hdb Hy). cbn [orb].
    symmetry. apply Z.ltb_lt. lia. }
  destruct (Z.eqb_spec (d_year (dt_date a)) (d_year (dt_date b))) as [Ey|Ey].
  2:{ pose proof (toordinal_lt_year _ _ Hdb Hda ltac:(lia)). cbn [orb andb].
      symmetry. apply Z.ltb_ge. lia. }
  cbn [orb andb].
  destruct (Z.ltb_spec (d_month (dt_date a)) (d_month (dt_date b)))
    as [Hm|Hm].
  { pose proof (toordinal_lt_month _ _ Hda Hdb Ey Hm). cbn [orb].
    symmetry. apply Z.ltb_lt. lia. }
  destruct (Z.eqb_spec (d_month (dt_date a)) (d_month (dt_date b)))
    as [Em|Em].
  2:{ pose proof (toordinal_lt_month _ _ Hdb Hda (eq_sym Ey) ltac:(lia)).
      cbn [orb andb]. symmetry. apply Z.ltb_ge. lia. }
  cbn [orb andb].
  assert (toordinal (dt_date a) - toordinal (dt_date b)
          = d_day (dt_date a) - d_day (dt_date b)) as Ho.
  { unfold toordinal, ymd2ord. rewrite Ey, Em. lia. }
  unfold time_seconds in *.
  destruct (Z.ltb_spec (d_day (dt_date a)) (d_day (dt_date b))) as [Hd|Hd].
  { cbn [orb]. symmetry. apply Z.ltb_lt. lia. }
  destruct (Z.eqb_spec (d_day (dt_date a)) (d_day (dt_date b))) as [Ed|Ed].
  2:{ cbn [orb andb]. symmetry. apply Z.ltb_ge. lia. }
  cbn [orb andb].
  destruct (Z.ltb_spec (t_hour (dt_time a)) (t_hour (dt_time b))) as [Hh|Hh].
  { cbn [orb]. symmetry. apply Z.ltb_lt. lia. }
  destruct (Z.eqb_spec (t_hour (dt_time a)) (t_hour (dt_time b))) as [Eh|Eh].
  2:{ cbn [orb andb]. symmetry. apply Z.ltb_ge. lia. }
  cbn [orb andb].
  destruct (Z.ltb_spec (t_minute (dt_time a)) (t_minute (dt_time b)))
    as [Hn|Hn].
  { cbn [orb]. symmetry. apply Z.ltb_lt. lia. }
  destruct (Z.eqb_spec (t_minute (dt_time a)) (t_minute (dt_time b)))
    as [En|En].
  2:{ cbn [orb andb]. symmetry. apply Z.ltb_ge. lia. }
  cbn [orb andb]. rewrite ?andb_false_r, ?orb_false_r.
  destruct (Z.ltb_spec (t_second (dt_time a)) (t_second (dt_time b)))
    as [Hs|Hs];
    symmetry; [apply Z.ltb_lt | apply Z.ltb_ge]; lia.
Qed.

End CalendarOrder.

(** ** Records whose end does not precede their start *)
Section DurationClaims.
Context `{UnicodeData} `{Strptime}.

(** X14: on a kept record whose start and end both parsed, to dates and
    times of the calendar, with the end not before the start, the end is
    left as parsed, the duration is the end minus the start and is not
    negative, and the record is an anomaly exactly when its agents/teams
    field is empty, with that single note. *)
Theorem ordered_planning_is_left_alone
    (f : gmap (list N) (option (list N))) (al : bool) (year : Z)
    (s e : datetime) (r : OutRecord) (a : option Anomaly) :
  (parse_planning NOTE_START_ERR (f_get f K_DEBUT)).1 = Some s →
  (parse_planning NOTE_END_ERR (f_get f K_FIN)).1 = Some e →
  valid_datetime s = true → valid_datetime e = true →
  dt_lt e s = false →
  classify f al year = Kept al r a →
  r_Date_Fin r = Some (dt_date e)
  ∧ r_Heure_Fin r = Some (dt_time e)
  ∧ r_Duree r = Some (dt_sub e s)
  ∧ (0 <= dt_sub e s)%Z
  ∧ (is_empty (f_get f K_AGENTS) = false → a = None)
  ∧ (is_empty (f_get f K_AGENTS) = true →
     ∃ an, a = Some an
           ∧ a_Notes an = NOTE_AGENTS_MISSING
           ∧ a_Fin_corrigee an = Some e
           ∧ a_Duree_corrigee an = Some (dt_sub e s)).
Proof.
  intros Hs He Hvs Hve Hlt Hk.
  apply classify_Kept_inv in Hk as (ec & sh & Hk). cbv zeta in Hk.
  rewrite (parse_planning_Some _ _ _ Hs), (parse_planning_Some _ _ _ He) in Hk.
  cbn [fst snd] in Hk. destruct Hk as (_ & _ & Hc & -> & ->).
  apply correct_end_Ok in Hc
    as [(s0 & e0 & e' & [= <-] & [= <-] & Hlt' & _)|(-> & -> & _)];
    [by rewrite Hlt in Hlt'|].
  assert (Hpos : (0 <= dt_sub e s)%Z).
  { rewrite (dt_lt_seconds e s Hve Hvs) in Hlt.
    apply Z.ltb_ge in Hlt. unfold dt_sub. lia. }
  assert (Hd : duration_of (Some s) (Some e) = (Some (dt_sub e s), [])).
  { unfold duration_of, total_seconds.
    by rewrite (proj2 (Z.ltb_ge _ _) Hpos). }
  rewrite Hd. cbn [fst snd fmap option_fmap option_map].
  split; [reflexivity|]. split; [reflexivity|]. split; [reflexivity|].
  split; [exact Hpos|].
  unfold notes_before_filter. cbn [app].
  split; intros Hag; rewrite Hag; cbn [app].
  - assert (is_anomaly (join NOTE_SEP []) = false) as ->
      by (vm_compute; reflexivity).
    reflexivity.
  - assert (is_anomaly (join NOTE_SEP [NOTE_AGENTS_MISSING]) = true) as ->
      by (vm_compute; reflexivity).
    eexists. split; [reflexivity|]. cbn [a_Notes a_Fin_corrigee
      a_Duree_corrigee]. split; [|split; reflexivity].
    unfold join. cbn [foldr]. reflexivity.
Qed.

End DurationClaims.

(** ** Instances of the further properties *)
Section MoreInstances.

Local Ltac key_ne :=
  let E := fresh "E" in intros E; vm_compute in E; discriminate E.

Lemma continuation_lines_witness :
  rebuild_records_by_id
    [lit "ID;Desc" ++ [NL]; line_preamble ++ [NL]; line_record ++ [NL];
     line_more ++ [NL]; line_last] SEMI
  = [lit "ID;Desc"; lit "BE-1;Fuite au premier et au second;Voirie"].
Proof.
  etransitivity.
  - apply (continuation_lines_are_appended SEMI (lit "ID;Desc" ++ [NL])
             (line_record ++ [NL]) [line_preamble ++ [NL]]
             [line_more ++ [NL]; line_last]).
    + vm_compute; reflexivity.
    + constructor; [vm_compute; reflexivity | constructor].
    + vm_compute; reflexivity.
    + vm_compute; reflexivity.
    + constructor; [split; vm_compute; reflexivity|].
      constructor; [split; vm_compute; reflexivity | constructor].
  - vm_compute; reflexivity.
Defined.

Lemma main_counters_witness :
  ∃ run,
    @main latin1 cpython [header9; rec_aligned; rec_shift] 2025 = Ok run
    ∧ kept run = Z.of_nat (length (records run))
    ∧ (aligned_count run + broken_count run = 2)%Z
    ∧ (kept run + skipped_other_year run = 2)%Z.
Proof.
  assert (∃ run,
    @main latin1 cpython [header9; rec_aligned; rec_shift] 2025 = Ok run)
    as [run Hm].
  { eexists. vm_compute; reflexivity. }
  pose proof (@main_counters_are_consistent latin1 cpython
                [header9; rec_aligned; rec_shift] 2025%Z run Hm)
    as (Hk & Ha & Hs).
  assert (Hn : Z.of_nat (length (tail (rebuild_records_by_id
                 [header9; rec_aligned; rec_shift] SEMI))) = 2%Z)
    by (vm_compute; reflexivity).
  rewrite Hn in Ha, Hs.
  exists run. split; [exact Hm|]. split; [exact Hk|].
  split; [exact Ha | exact Hs].
Defined.

Lemma planning_anchors_witness :
  ∃ fm,
    @extract_fields latin1 rec_shift (map strip (split SEMI header9)) SEMI
    = Some {| fields := fm; aligned := false |}
    ∧ f_get fm K_DEBUT = Some (lit "15-03-25 17:30")
    ∧ f_get fm K_FIN = Some (lit "15-03-25 09:45")
    ∧ f_get fm K_AGENTS = Some (lit "Equipe A").
Proof.
  destruct (@planning_anchors_are_last_two_datetimes latin1 SEMI rec_shift
              (map strip (split SEMI header9)) [] 6%Z 7%Z)
    as (fm & He & Hd & Hf & _ & _ & _ & _ & Ha).
  - vm_compute; reflexivity.
  - vm_compute. intros E. discriminate E.
  - vm_compute; reflexivity.
  - exists fm. split; [exact He|].
    split; [etransitivity; [exact Hd | vm_compute; reflexivity]|].
    split; [etransitivity; [exact Hf | vm_compute; reflexivity]|].
    etransitivity; [apply Ha; vm_compute; reflexivity|].
    vm_compute; reflexivity.
Defined.

Lemma no_date_anchor_witness :
  ∃ fm,
    @extract_fields latin1 rec_no_dates header3 SEMI
    = Some {| fields := fm; aligned := false |}
    ∧ f_get fm K_ID = Some (lit "BE-7-")
    ∧ f_get fm K_DESCRIPTION = Some (lit "Banc cassé")
    ∧ f_get fm K_DEBUT = None.
Proof.
  destruct (@no_date_anchor_leaves_dates_absent latin1 SEMI rec_no_dates
              header3 K_DEBUT)
    as (fm & He & Hi & Hd & Hk).
  - vm_compute; reflexivity.
  - vm_compute. intros E. discriminate E.
  - vm_compute; reflexivity.
  - vm_compute; reflexivity.
  - do 3 right. left.
  - exists fm. split; [exact He|].
    split; [etransitivity; [exact Hi | vm_compute; reflexivity]|].
    split; [etransitivity; [exact Hd | vm_compute; reflexivity]|].
    exact Hk.
Defined.

Lemma date_anchors_witness :
  ∃ fm,
    @extract_fields latin1 rec_no_anchor header3 SEMI
    = Some {| fields := fm; aligned := false |}
    ∧ f_get fm K_CREE_LE = Some (lit "01-01-25")
    ∧ f_get fm K_ECHEANCE = Some (lit "02-01-25")
    ∧ f_get fm K_AGENTS = None.
Proof.
  destruct (@date_anchors_are_first_two_dates latin1 SEMI rec_no_anchor
              header3 3%Z 4%Z [])
    as (fm & He & Hc & Hd & _ & _ & _ & _ & _ & Ha).
  - vm_compute; reflexivity.
  - vm_compute. intros E. discriminate E.
  - vm_compute; reflexivity.
  - vm_compute; reflexivity.
  - exists fm. split; [exact He|].
    split; [etransitivity; [exact Hc | vm_compute; reflexivity]|].
    split; [etransitivity; [exact Hd | vm_compute; reflexivity]|].
    etransitivity; [exact Ha | vm_compute; reflexivity].
Defined.

Lemma fallback_map_keys_witness :
  ∃ fm,
    @extract_fields latin1 rec_no_anchor header3 SEMI
    = Some {| fields := fm; aligned := false |}
    ∧ is_Some (fm !! lit "A")
    ∧ f_get fm (lit "A") = None.
Proof.
  destruct (@fallback_map_keys latin1 SEMI rec_no_anchor header3)
    as (fm & He & Hhdr & _ & Hnone).
  - vm_compute; reflexivity.
  - vm_compute. intros E. discriminate E.
  - exists fm. split; [exact He|]. split.
    + apply Hhdr. right. left.
    + apply Hnone. unfold INFERRED_FIELDS.
      repeat (apply not_elem_of_cons; split; [key_ne|]).
      apply not_elem_of_nil.
Defined.

Lemma main_failure_witness :
  ∃ line s en,
    line ∈ [rec_overflow]
    ∧ dt_lt en s = true
    ∧ dt_add en (hours 12) = None.
Proof.
  destruct (@main_failure_modes latin1 cpython
              [header_planning; rec_overflow] 9999%Z OverflowError)
    as [[He _]|(_ & header & rest & line & ex & s & en & Hr & Hin & _
                 & _ & _ & Hlt & Ha)].
  - vm_compute; reflexivity.
  - unfold EMPTY_INPUT in He. discriminate He.
  - exists line, s, en. split; [|split; [exact Hlt | exact Ha]].
    vm_compute in Hr. injection Hr as _ <-. exact Hin.
Defined.

Lemma padded_date_witness :
  @parse_dt cpython (lit "  " ++ lit "15-03-25 07:30" ++ [NL])
  = @parse_dt cpython (lit "15-03-25 07:30").
Proof.
  apply (proj1 (@parsers_ignore_surrounding_space cpython
                  (lit "  ") (lit "15-03-25 07:30") [NL]
                  ltac:(vm_compute; reflexivity)
                  ltac:(vm_compute; reflexivity))).
Defined.

Lemma ordered_planning_witness :
  ∃ r a,
    @classify cpython fields_in_order true 2025 = Kept true r a
    ∧ r_Duree r = Some 44100%Z
    ∧ a = None.
Proof.
  assert (∃ r a,
    @classify cpython fields_in_order true 2025 = Kept true r a)
    as (r & a & Hk).
  { eexists _, _. vm_compute; reflexivity. }
  destruct (@ordered_planning_is_left_alone cpython fields_in_order true
              2025%Z
              {| dt_date := {| d_year := 2025; d_month := 3; d_day := 15 |};
                 dt_time := {| t_hour := 7; t_minute := 30;
                               t_second := 0 |} |}
              {| dt_date := {| d_year := 2025; d_month := 3; d_day := 15 |};
                 dt_time := {| t_hour := 19; t_minute := 45;
                               t_second := 0 |} |}
              r a)
    as (_ & _ & Hd & _ & Hnone & _).
  - vm_compute; reflexivity.
  - vm_compute; reflexivity.
  - vm_compute; reflexivity.
  - vm_compute; reflexivity.
  - vm_compute; reflexivity.
  - exact Hk.
  - exists r, a. split; [exact Hk|].
    split; [etransitivity; [exact Hd | vm_compute; reflexivity]|].
    apply Hnone. vm_compute; reflexivity.
Defined.

End MoreInstances.
